(** * CasperAi: the streaming chat relay and its in-memory store

    A shallow embedding of
      - [MemStorage], the store (server/storage.ts, the second document of
        src/use-websocket.ts): conversations, messages, files;
      - [generateStreamingCompletion] of the two services (src/openai.ts,
        src/anthropic.ts);
      - the WebSocket ['message'] handler of [registerRoutes]
        (server/routes.ts, the second document of src/public_ai-visual.js),
    followed by the properties of one chat turn.

    The handler is asynchronous JavaScript.  It is embedded as a state and
    exception monad over a [World] (store, connection, the handler's captured
    local [aiResponse], the calls made to the providers).  Everything the
    handler obtains from outside is an explicit input: the result of
    [JSON.parse], the values of [randomUUID()] and [new Date()], what the
    provider answers, and whether the transport went down while the handler
    was suspended on the network.  One turn is followed from the arrival of
    its frame to its last effect; what other handlers do to the store in the
    meantime is outside the model. *)

From Stdlib Require Import List String Ascii ZArith Bool Lia Sorted Permutation.
Import ListNotations.

Set Implicit Arguments.
Set Warnings "-register-all".

Local Open Scope string_scope.
Local Open Scope Z_scope.

(** ** JavaScript values *)

(** The values [JSON.parse] can produce, plus [undefined].  Arrays and objects
    carry the identity [ref] of their allocation: [===] compares them by
    reference, not by contents.  Numbers are integers here: the handler never
    computes with a number of the frame, it only stores and compares them. *)
Inductive JsValue : Type :=
| JUndefined
| JNull
| JBool (b : bool)
| JNum (n : Z)
| JStr (s : string)
| JArr (ref : nat) (items : list JsValue)
| JObj (ref : nat) (fields : list (string * JsValue)).

(** [a === b] *)
Definition strict_eq (a b : JsValue) : bool :=
  match a, b with
  | JUndefined, JUndefined => true
  | JNull, JNull => true
  | JBool x, JBool y => Bool.eqb x y
  | JNum x, JNum y => Z.eqb x y
  | JStr x, JStr y => String.eqb x y
  | JArr r _, JArr r' _ => Nat.eqb r r'
  | JObj r _, JObj r' _ => Nat.eqb r r'
  | _, _ => false
  end.

(** ToBoolean: what [if (v)] and [v || w] test. *)
Definition truthy (v : JsValue) : bool :=
  match v with
  | JUndefined | JNull => false
  | JBool b => b
  | JNum n => negb (Z.eqb n 0)
  | JStr s => negb (String.eqb s "")
  | JArr _ _ | JObj _ _ => true
  end.

(** [a || b] *)
Definition js_or (a b : JsValue) : JsValue := if truthy a then a else b.

(** What a [throw] carries, as far as [error instanceof Error ? error.message
    : 'Unknown error'] can tell. *)
Inductive Thrown : Type :=
| ErrorObject (message : string)
| NonError.

Definition error_message (e : Thrown) : string :=
  match e with
  | ErrorObject m => m
  | NonError => "Unknown error"
  end.

(** Own-property lookup on a parsed object; a missing property reads as
    [undefined] (none of the names the handler reads is on
    [Object.prototype]). *)
Fixpoint get_field (name : string) (fields : list (string * JsValue)) : JsValue :=
  match fields with
  | [] => JUndefined
  | (k, v) :: rest => if String.eqb k name then v else get_field name rest
  end.

(** [v.name] for a property that no primitive wrapper defines: reading it from
    [undefined] or [null] throws a TypeError, from any other primitive or an
    array it gives [undefined]. *)
Definition get_prop (v : JsValue) (name : string) : Thrown + JsValue :=
  match v with
  | JUndefined =>
      inl (ErrorObject ("Cannot read properties of undefined (reading '" ++ name ++ "')"))
  | JNull =>
      inl (ErrorObject ("Cannot read properties of null (reading '" ++ name ++ "')"))
  | JObj _ fields => inr (get_field name fields)
  | _ => inr JUndefined
  end.

(** [String.prototype.includes] *)
Fixpoint includes (s sub : string) : bool :=
  if String.prefix sub s then true
  else match s with
       | EmptyString => false
       | String _ rest => includes rest sub
       end.

(** [model.includes(sub)] on an arbitrary value: strings search a substring,
    arrays search an element, [undefined] and [null] have no properties, and
    on anything else [includes] is not a function. *)
Definition js_includes (v : JsValue) (sub : string) : Thrown + bool :=
  match v with
  | JStr s => inr (includes s sub)
  | JArr _ items => inr (existsb (fun x => strict_eq x (JStr sub)) items)
  | JUndefined =>
      inl (ErrorObject "Cannot read properties of undefined (reading 'includes')")
  | JNull =>
      inl (ErrorObject "Cannot read properties of null (reading 'includes')")
  | _ => inl (ErrorObject "model.includes is not a function")
  end.

(** ** [Map<string, V>]: insertion-ordered *)

Section JsMap.
Variable V : Type.

Definition JsMap : Type := list (string * V).

Fixpoint map_get (k : string) (m : JsMap) : option V :=
  match m with
  | [] => None
  | (k', v) :: rest => if String.eqb k' k then Some v else map_get k rest
  end.

(** [set] keeps the position of an existing key and appends a new one. *)
Fixpoint map_set (k : string) (v : V) (m : JsMap) : JsMap :=
  match m with
  | [] => [(k, v)]
  | (k', v') :: rest =>
      if String.eqb k' k then (k, v) :: rest else (k', v') :: map_set k v rest
  end.

Definition map_has (k : string) (m : JsMap) : bool :=
  match map_get k m with Some _ => true | None => false end.

(** [delete] returns whether the key was present. *)
Definition map_delete (k : string) (m : JsMap) : bool * JsMap :=
  (map_has k m, filter (fun kv => negb (String.eqb (fst kv) k)) m).

Definition map_values (m : JsMap) : list V := map snd m.
End JsMap.

Arguments map_get {V}.
Arguments map_set {V}.
Arguments map_has {V}.
Arguments map_delete {V}.
Arguments map_values {V}.

(** [Array.prototype.sort] with a comparator that subtracts two integer keys:
    the stable ascending (or, with [desc], descending) arrangement. *)
Section Sort.
Variable A : Type.
Variable key : A -> Z.
Variable desc : bool.

(** sign of [compareFn(x, y)] is not positive *)
Definition not_after (x y : A) : bool :=
  if desc then Z.leb (key y) (key x) else Z.leb (key x) (key y).

Fixpoint insert_sorted (x : A) (l : list A) : list A :=
  match l with
  | [] => [x]
  | y :: rest => if not_after x y then x :: y :: rest else y :: insert_sorted x rest
  end.

Definition js_sort (l : list A) : list A := fold_right insert_sorted [] l.
End Sort.

(** ** shared/schema.ts: the rows *)

Module Conversation.
Record t : Type := mk {
  id : string;
  title : string;
  model : string;
  mode : string;
  createdAt : Z;
  updatedAt : Z
}.
End Conversation.

(** [Partial<Conversation>] *)
Module ConversationUpdates.
Record t : Type := mk {
  id : option string;
  title : option string;
  model : option string;
  mode : option string;
  createdAt : option Z;
  updatedAt : option Z
}.
Definition empty : t := mk None None None None None None.
End ConversationUpdates.

Module InsertConversation.
Record t : Type := mk { title : string; model : string; mode : string }.
End InsertConversation.

(** The relay passes [conversationId] and [content] of the parsed frame
    unchecked, so at run time they are arbitrary values. *)
Module InsertMessage.
Record t : Type := mk {
  conversationId : JsValue;
  role : string;
  content : JsValue;
  model : JsValue;
  tokenUsage : option Z
}.
End InsertMessage.

Module Message.
Record t : Type := mk {
  conversationId : JsValue;
  role : string;
  content : JsValue;
  model : JsValue;
  tokenUsage : option Z;
  id : string;
  createdAt : Z
}.
End Message.

Module InsertUploadedFile.
Record t : Type := mk {
  name : string;
  originalName : string;
  mimeType : string;
  size : Z;
  path : string;
  conversationId : JsValue
}.
End InsertUploadedFile.

Module UploadedFile.
Record t : Type := mk {
  name : string;
  originalName : string;
  mimeType : string;
  size : Z;
  path : string;
  conversationId : JsValue;
  id : string;
  createdAt : Z
}.
End UploadedFile.

(** ** server/storage.ts: [MemStorage] *)

Module MemStorage.
Record t : Type := mk {
  conversations : JsMap Conversation.t;
  messages : JsMap Message.t;
  uploadedFiles : JsMap UploadedFile.t
}.

Definition empty : t := mk [] [] [].

Definition getConversation (s : t) (id : string) : option Conversation.t :=
  map_get id (conversations s).

Definition getConversations (s : t) : list Conversation.t :=
  js_sort Conversation.updatedAt true (map_values (conversations s)).

(** [uuid] is the value of [randomUUID()], [now] that of [new Date()]. *)
Definition createConversation (uuid : string) (now : Z)
    (ins : InsertConversation.t) (s : t) : Conversation.t * t :=
  let conversation :=
    Conversation.mk uuid (InsertConversation.title ins)
      (InsertConversation.model ins) (InsertConversation.mode ins) now now in
  (conversation,
   mk (map_set uuid conversation (conversations s)) (messages s) (uploadedFiles s)).

Definition pick {A} (o : option A) (d : A) : A :=
  match o with Some x => x | None => d end.

(** [{ ...conversation, ...updates, updatedAt: new Date() }] *)
Definition updateConversation (now : Z) (id : string)
    (updates : ConversationUpdates.t) (s : t) : option Conversation.t * t :=
  match map_get id (conversations s) with
  | None => (None, s)
  | Some conversation =>
      let updated :=
        Conversation.mk
          (pick (ConversationUpdates.id updates) (Conversation.id conversation))
          (pick (ConversationUpdates.title updates) (Conversation.title conversation))
          (pick (ConversationUpdates.model updates) (Conversation.model conversation))
          (pick (ConversationUpdates.mode updates) (Conversation.mode conversation))
          (pick (ConversationUpdates.createdAt updates) (Conversation.createdAt conversation))
          now in
      (Some updated,
       mk (map_set id updated (conversations s)) (messages s) (uploadedFiles s))
  end.

Definition getMessage (s : t) (id : string) : option Message.t :=
  map_get id (messages s).

Definition getMessagesByConversation (s : t) (conversationId : JsValue)
    : list Message.t :=
  js_sort Message.createdAt false
    (filter (fun message => strict_eq (Message.conversationId message) conversationId)
            (map_values (messages s))).

Definition getUploadedFile (s : t) (id : string) : option UploadedFile.t :=
  map_get id (uploadedFiles s).

Definition getUploadedFiles (s : t) (conversationId : JsValue)
    : list UploadedFile.t :=
  let files := map_values (uploadedFiles s) in
  if truthy conversationId
  then filter (fun file => strict_eq (UploadedFile.conversationId file) conversationId) files
  else js_sort UploadedFile.createdAt true files.

(** [insertMessage.tokenUsage || null] *)
Definition usage_or_null (u : option Z) : option Z :=
  match u with
  | Some n => if Z.eqb n 0 then None else Some n
  | None => None
  end.

(** [uuid], [now]: [randomUUID()] and [new Date()] of the message; [touch]:
    the [new Date()] inside [updateConversation].  The conversation is
    touched after the message is stored, and [updateConversation] answers
    [undefined] for a conversation that does not exist, which is ignored.
    The keys of [conversations] are strings, so a [conversationId] of any
    other type finds no conversation. *)
Definition createMessage (uuid : string) (now touch : Z)
    (ins : InsertMessage.t) (s : t) : Message.t * t :=
  let message :=
    Message.mk (InsertMessage.conversationId ins) (InsertMessage.role ins)
      (InsertMessage.content ins)
      (js_or (InsertMessage.model ins) JNull)
      (usage_or_null (InsertMessage.tokenUsage ins))
      uuid now in
  let s1 := mk (conversations s) (map_set uuid message (messages s)) (uploadedFiles s) in
  let s2 :=
    match InsertMessage.conversationId ins with
    | JStr cid => snd (updateConversation touch cid ConversationUpdates.empty s1)
    | _ => s1
    end in
  (message, s2).

Definition deleteMessage (id : string) (s : t) : bool * t :=
  let '(was, rest) := map_delete id (messages s) in
  (was, mk (conversations s) rest (uploadedFiles s)).

Definition createUploadedFile (uuid : string) (now : Z)
    (ins : InsertUploadedFile.t) (s : t) : UploadedFile.t * t :=
  let file :=
    UploadedFile.mk (InsertUploadedFile.name ins) (InsertUploadedFile.originalName ins)
      (InsertUploadedFile.mimeType ins) (InsertUploadedFile.size ins)
      (InsertUploadedFile.path ins)
      (js_or (InsertUploadedFile.conversationId ins) JNull)
      uuid now in
  (file, mk (conversations s) (messages s) (map_set uuid file (uploadedFiles s))).

Definition deleteUploadedFile (id : string) (s : t) : bool * t :=
  let '(was, rest) := map_delete id (uploadedFiles s) in
  (was, mk (conversations s) (messages s) rest).

(** the two [for ... of] loops of [deleteConversation] *)
Definition delete_each {V} (ids : list string) (m : JsMap V) : JsMap V :=
  fold_left (fun acc id => snd (map_delete id acc)) ids m.

Definition deleteConversation (id : string) (s : t) : bool * t :=
  let msgs := getMessagesByConversation s (JStr id) in
  let messages' := delete_each (map Message.id msgs) (messages s) in
  let files := getUploadedFiles s (JStr id) in
  let files' := delete_each (map UploadedFile.id files) (uploadedFiles s) in
  let '(was, conversations') := map_delete id (conversations s) in
  (was, mk conversations' messages' files').
End MemStorage.

(** ** The connection and the frames the server sends *)

(** [JSON.stringify] leaves out a property whose value is [undefined], so the
    [tokenUsage] of a [streaming_complete] frame is optional. *)
Inductive Frame : Type :=
| StreamingStart
| StreamingChunk (content : string)
| StreamingComplete (content : string) (tokenUsage : option Z)
| ErrorFrame (message : string).

Inductive ReadyState : Type := CONNECTING | OPEN | CLOSING | CLOSED.

Module WebSocket.
Record t : Type := mk {
  readyState : ReadyState;
  sent : list Frame
}.

Definition is_open (ws : t) : bool :=
  match readyState ws with OPEN => true | _ => false end.

Definition send (f : Frame) (ws : t) : t := mk (readyState ws) (sent ws ++ [f]).

(** the transport went away *)
Definition drop (ws : t) : t := mk CLOSED (sent ws).
End WebSocket.

(** ** What the providers are asked and what they answer *)

Module HistoryItem.
Record t : Type := mk { role : string; content : JsValue }.
End HistoryItem.

Inductive ApiCall : Type :=
| OpenAICreate (model : JsValue) (messages : list HistoryItem.t)
| AnthropicCreate (model : JsValue) (system : JsValue) (messages : list HistoryItem.t).

(** While the handler is suspended on the provider's network connection the
    event loop runs; the one thing it can do that a turn observes is to take
    the turn's own transport out of the OPEN state, for good: a closed
    WebSocket does not reopen.  The awaits on [MemStorage] resolve without
    network input.  A transport that closes while the first of them is
    pending behaves as a turn that starts on a closed transport, and one that
    closes while the last is pending as a hang-up at the end of the stream. *)
Inductive Suspension : Type := Quiet | Hangup.

(** The answer to [create({..., stream: true})]: the call rejects, or it gives
    an async iterable that yields [items], each after a suspension, and then
    either finishes ([ending = None]) or throws. *)
Inductive Reply (C : Type) : Type :=
| Rejects (during : Suspension) (e : Thrown)
| Streams (during : Suspension) (items : list (Suspension * C))
          (last : Suspension) (ending : option Thrown).
Arguments Rejects {C}.
Arguments Streams {C}.

(** [ChatCompletionChunk], as far as the service reads it, and its [usage]
    that the service does not read. *)
Module OpenAIChunk.
Record Delta : Type := mkDelta { content : option string }.
Record Choice : Type := mkChoice { delta : option Delta }.
Record t : Type := mk { choices : list Choice; usage : option Z }.
End OpenAIChunk.

(** [RawMessageStreamEvent] *)
Module AnthropicEvent.
Inductive Delta : Type :=
| text_delta (text : string)
| input_json_delta (partial_json : string).
Inductive t : Type :=
| message_start (input_tokens output_tokens : Z)
| content_block_start
| content_block_delta (delta : Delta)
| content_block_stop
| message_delta (output_tokens : Z)
| message_stop.
End AnthropicEvent.

(** Everything a turn takes from outside the process. *)
Record Env : Type := mkEnv {
  userUuid : string;
  userNow : Z;
  userTouch : Z;
  assistantUuid : string;
  assistantNow : Z;
  assistantTouch : Z;
  openai : JsValue -> list HistoryItem.t -> Reply OpenAIChunk.t;
  anthropic : JsValue -> JsValue -> list HistoryItem.t -> Reply AnthropicEvent.t
}.

(** ** The state a turn runs in *)

Record World : Type := mkWorld {
  storage : MemStorage.t;
  ws : WebSocket.t;
  aiResponse : string;
  apiCalls : list ApiCall
}.

Definition with_storage (s : MemStorage.t) (w : World) : World :=
  mkWorld s (ws w) (aiResponse w) (apiCalls w).
Definition with_ws (c : WebSocket.t) (w : World) : World :=
  mkWorld (storage w) c (aiResponse w) (apiCalls w).
Definition with_aiResponse (a : string) (w : World) : World :=
  mkWorld (storage w) (ws w) a (apiCalls w).
Definition record_call (c : ApiCall) (w : World) : World :=
  mkWorld (storage w) (ws w) (aiResponse w) (apiCalls w ++ [c]).

Definition await (s : Suspension) (w : World) : World :=
  match s with
  | Quiet => w
  | Hangup => with_ws (WebSocket.drop (ws w)) w
  end.

(** [if (ws.readyState === WebSocket.OPEN) { ws.send(JSON.stringify(f)); }] *)
Definition send_if_open (f : Frame) (w : World) : World :=
  if WebSocket.is_open (ws w) then with_ws (WebSocket.send f (ws w)) w else w.

(** State and exceptions: a [throw] keeps the state reached so far. *)
Definition Eff (A : Type) : Type := World -> World * (Thrown + A).

Definition ret {A} (a : A) : Eff A := fun w => (w, inr a).
Definition throw {A} (e : Thrown) : Eff A := fun w => (w, inl e).
Definition bind {A B} (c : Eff A) (k : A -> Eff B) : Eff B :=
  fun w =>
    match c w with
    | (w', inr a) => k a w'
    | (w', inl e) => (w', inl e)
    end.
Definition lift {A} (r : Thrown + A) : Eff A := fun w => (w, r).
Definition effect (f : World -> World) : Eff unit := fun w => (f w, inr tt).
Definition on_storage {A} (f : MemStorage.t -> A * MemStorage.t) : Eff A :=
  fun w => let '(a, s) := f (storage w) in (with_storage s w, inr a).
Definition read_storage {A} (f : MemStorage.t -> A) : Eff A :=
  fun w => (w, inr (f (storage w))).

Declare Scope eff_scope.
Delimit Scope eff_scope with eff.
Notation "x <- c ;; k" := (bind c (fun x => k))
  (at level 100, c at next level, right associativity) : eff_scope.
Notation "c ;;; k" := (bind c (fun _ => k))
  (at level 100, right associativity) : eff_scope.

(** ** server/services: streaming completions *)

Module Completion.
Record t : Type := mk {
  content : string;
  tokenUsage : option Z
}.
End Completion.

(** a parameter's default applies when the argument is [undefined] *)
Definition default_to (d : JsValue) (v : JsValue) : JsValue :=
  match v with JUndefined => d | _ => v end.

Section ForAwait.
Variable C : Type.
(** the loop body: the chunk, [fullContent], the world *)
Variable body : C -> string -> World -> string * World.

Fixpoint for_await (items : list (Suspension * C)) (fullContent : string)
    (w : World) : string * World :=
  match items with
  | [] => (fullContent, w)
  | (s, chunk) :: rest =>
      let '(fullContent', w') := body chunk fullContent (await s w) in
      for_await rest fullContent' w'
  end.

(** [try { const stream = await create(...); for await (...) {...};
    return { content: fullContent }; } catch (error) { throw new Error(...) }] *)
Definition stream_completion (prefix : string) (call : ApiCall) (reply : Reply C)
    : Eff Completion.t :=
  fun w =>
    let rethrow e := ErrorObject (prefix ++ error_message e) in
    let w := record_call call w in
    match reply with
    | Rejects during e => (await during w, inl (rethrow e))
    | Streams during items last ending =>
        let '(fullContent, w') := for_await items "" (await during w) in
        let w'' := await last w' in
        match ending with
        | Some e => (w'', inl (rethrow e))
        | None => (w'', inr (Completion.mk fullContent None))
        end
    end.
End ForAwait.

Module OpenAI.
(** [chunk.choices[0]?.delta?.content || ""] *)
Definition delta_content (chunk : OpenAIChunk.t) : string :=
  match OpenAIChunk.choices chunk with
  | [] => ""
  | choice :: _ =>
      match OpenAIChunk.delta choice with
      | None => ""
      | Some d =>
          match OpenAIChunk.content d with
          | None => ""
          | Some s => s
          end
      end
  end.

Definition loop_body (onChunk : string -> World -> World)
    (chunk : OpenAIChunk.t) (fullContent : string) (w : World) : string * World :=
  let content := delta_content chunk in
  if negb (String.eqb content "")
  then (fullContent ++ content, onChunk content w)
  else (fullContent, w).

Definition generateStreamingCompletion
    (api : JsValue -> list HistoryItem.t -> Reply OpenAIChunk.t)
    (messages : list HistoryItem.t) (model : JsValue)
    (onChunk : string -> World -> World) : Eff Completion.t :=
  let model := default_to (JStr "gpt-5") model in
  stream_completion (loop_body onChunk) "OpenAI API error: "
    (OpenAICreate model messages) (api model messages).
End OpenAI.

Module Anthropic.
Definition DEFAULT_MODEL_STR : string := "claude-sonnet-4-20250514".

Definition loop_body (onChunk : string -> World -> World)
    (chunk : AnthropicEvent.t) (fullContent : string) (w : World) : string * World :=
  match chunk with
  | AnthropicEvent.content_block_delta (AnthropicEvent.text_delta content) =>
      (fullContent ++ content, onChunk content w)
  | _ => (fullContent, w)
  end.

Definition is_system (m : HistoryItem.t) : bool :=
  String.eqb (HistoryItem.role m) "system".

Definition generateStreamingCompletion
    (api : JsValue -> JsValue -> list HistoryItem.t -> Reply AnthropicEvent.t)
    (messages : list HistoryItem.t) (model : JsValue)
    (onChunk : string -> World -> World) : Eff Completion.t :=
  let model := default_to (JStr DEFAULT_MODEL_STR) model in
  let anthropicMessages := filter (fun m => negb (is_system m)) messages in
  let systemMessage :=
    match find is_system messages with
    | Some m => HistoryItem.content m
    | None => JUndefined
    end in
  stream_completion (loop_body onChunk) "Anthropic API error: "
    (AnthropicCreate model systemMessage anthropicMessages)
    (api model systemMessage anthropicMessages).
End Anthropic.

(** ** server/routes.ts: the ['message'] handler of a connection *)

(** [JSON.parse(data.toString())]: a SyntaxError or a value. *)
Inductive Inbound : Type :=
| Unparseable (message : string)
| Parsed (message : JsValue).

Definition JSON_parse (data : Inbound) : Eff JsValue :=
  match data with
  | Unparseable m => throw (ErrorObject m)
  | Parsed v => ret v
  end.

(** the callback handed to the service *)
Definition onChunk (chunk : string) (w : World) : World :=
  send_if_open (StreamingChunk chunk) (with_aiResponse (aiResponse w ++ chunk) w).

Local Open Scope eff_scope.

(** the body of the [try] *)
Definition handle (env : Env) (data : Inbound) : Eff unit :=
  message <- JSON_parse data ;;
  type <- lift (get_prop message "type") ;;
  if strict_eq type (JStr "chat") then
    conversationId <- lift (get_prop message "conversationId") ;;
    content <- lift (get_prop message "content") ;;
    model <- lift (get_prop message "model") ;;
    mode <- lift (get_prop message "mode") ;;
    userMessage <- on_storage (MemStorage.createMessage
        (userUuid env) (userNow env) (userTouch env)
        (InsertMessage.mk conversationId "user" content JUndefined None)) ;;
    messages <- read_storage (fun s => MemStorage.getMessagesByConversation s conversationId) ;;
    let messageHistory :=
      map (fun m => HistoryItem.mk (Message.role m) (Message.content m)) messages in
    isOpenAI <- lift (js_includes model "gpt") ;;
    let aiService :=
      if isOpenAI : bool
      then OpenAI.generateStreamingCompletion (openai env)
      else Anthropic.generateStreamingCompletion (anthropic env) in
    effect (with_aiResponse "") ;;;
    effect (send_if_open StreamingStart) ;;;
    completion <- aiService messageHistory model onChunk ;;
    let fullResponse := Completion.content completion in
    let tokenUsage := Completion.tokenUsage completion in
    on_storage (MemStorage.createMessage
        (assistantUuid env) (assistantNow env) (assistantTouch env)
        (InsertMessage.mk conversationId "assistant" (JStr fullResponse) model tokenUsage)) ;;;
    effect (send_if_open (StreamingComplete fullResponse tokenUsage))
  else ret tt.

(** [try { ... } catch (error) { if (open) send({type: 'error', ...}) }] *)
Definition on_message (env : Env) (data : Inbound) (w : World) : World :=
  match handle env data w with
  | (w', inr _) => w'
  | (w', inl error) => send_if_open (ErrorFrame (error_message error)) w'
  end.

Local Close Scope eff_scope.

(** * The vocabulary of the properties *)

(** ** The invariant of the store *)

(** every value sits under its own [id] *)
Definition keyed {V} (id_of : V -> string) (m : JsMap V) : Prop :=
  forall k v, In (k, v) m -> id_of v = k.

(** The invariant of [MemStorage]: a message and a file are stored under their
    own [id]. *)
Record store_ok (s : MemStorage.t) : Prop := {
  messages_keyed : keyed Message.id (MemStorage.messages s);
  files_keyed : keyed UploadedFile.id (MemStorage.uploadedFiles s)
}.

(** ** What a stream does to the world *)

(** One suspension of the service, and the fragment (if any) it hands to
    [onChunk] afterwards. *)
Definition Step : Type := (Suspension * option string)%type.

Definition quiet (s : Suspension) : bool :=
  match s with Quiet => true | Hangup => false end.

Definition all_quiet (steps : list Step) : bool :=
  forallb (fun st => quiet (fst st)) steps.

(** every fragment handed to [onChunk], in order *)
Fixpoint fragments (steps : list Step) : list string :=
  match steps with
  | [] => []
  | (_, Some x) :: rest => x :: fragments rest
  | (_, None) :: rest => fragments rest
  end.

(** the fragments that reach a transport that is [open] at the start *)
Fixpoint delivered (open : bool) (steps : list Step) : list string :=
  match steps with
  | [] => []
  | (s, o) :: rest =>
      let open' := open && quiet s in
      match o with
      | Some x => if open' then x :: delivered open' rest else delivered open' rest
      | None => delivered open' rest
      end
  end.

Definition join (l : list string) : string := fold_right append "" l.

Definition played (steps : list Step) (w : World) : World :=
  mkWorld (storage w)
    (WebSocket.mk
       (if all_quiet steps then WebSocket.readyState (ws w) else CLOSED)
       (WebSocket.sent (ws w)
          ++ map StreamingChunk (delivered (WebSocket.is_open (ws w)) steps)))
    (aiResponse w ++ join (fragments steps))
    (apiCalls w).

(** the steps of a provider's answer, given the [fragment] the service's loop
    body takes from each chunk *)
Section Replies.
Variable C : Type.
Variable fragment : C -> option string.

Definition steps_of_items (items : list (Suspension * C)) : list Step :=
  map (fun it => (fst it, fragment (snd it))) items.

Definition steps_of (reply : Reply C) : list Step :=
  match reply with
  | Rejects during _ => [(during, None)]
  | Streams during items last _ =>
      (during, None) :: steps_of_items items ++ [(last, None)]
  end.

Definition ending_of (reply : Reply C) : option Thrown :=
  match reply with
  | Rejects _ e => Some e
  | Streams _ _ _ ending => ending
  end.

End Replies.

(** what the loop body of each service hands to [onChunk] *)
Definition openai_fragment (chunk : OpenAIChunk.t) : option string :=
  let content := OpenAI.delta_content chunk in
  if String.eqb content "" then None else Some content.

Definition anthropic_fragment (chunk : AnthropicEvent.t) : option string :=
  match chunk with
  | AnthropicEvent.content_block_delta (AnthropicEvent.text_delta text) => Some text
  | _ => None
  end.

(** ** A chat turn in closed form *)

(** The fields the handler destructures from a frame that parsed to an object
    whose [type] is ["chat"]; [None] for every other frame. *)
Module ChatRequest.
Record t : Type := mk {
  conversationId : JsValue;
  content : JsValue;
  model : JsValue;
  mode : JsValue
}.
End ChatRequest.

Definition chat_request (data : Inbound) : option ChatRequest.t :=
  match data with
  | Parsed (JObj _ fields) =>
      if strict_eq (get_field "type" fields) (JStr "chat")
      then Some (ChatRequest.mk (get_field "conversationId" fields)
                   (get_field "content" fields) (get_field "model" fields)
                   (get_field "mode" fields))
      else None
  | _ => None
  end.

(** what the selected service does: the request it makes, the steps of the
    answer, how the answer ends, and the prefix of its error messages *)
Record Script : Type := mkScript {
  error_prefix : string;
  call : ApiCall;
  steps : list Step;
  ending : option Thrown
}.

Definition script (env : Env) (isOpenAI : bool) (model : JsValue)
    (history : list HistoryItem.t) : Script :=
  if isOpenAI then
    let model := default_to (JStr "gpt-5") model in
    let reply := openai env model history in
    mkScript "OpenAI API error: " (OpenAICreate model history)
      (steps_of openai_fragment reply) (ending_of reply)
  else
    let model := default_to (JStr Anthropic.DEFAULT_MODEL_STR) model in
    let anthropicMessages := filter (fun m => negb (Anthropic.is_system m)) history in
    let systemMessage :=
      match find Anthropic.is_system history with
      | Some m => HistoryItem.content m
      | None => JUndefined
      end in
    let reply := anthropic env model systemMessage anthropicMessages in
    mkScript "Anthropic API error: "
      (AnthropicCreate model systemMessage anthropicMessages)
      (steps_of anthropic_fragment reply) (ending_of reply).

Section Turn.
Variables (env : Env) (req : ChatRequest.t) (w : World).

Definition user_insert : InsertMessage.t :=
  InsertMessage.mk (ChatRequest.conversationId req) "user" (ChatRequest.content req)
    JUndefined None.

Definition user_message : Message.t :=
  fst (MemStorage.createMessage (userUuid env) (userNow env) (userTouch env)
         user_insert (storage w)).

(** the store once the user message is in *)
Definition storage_with_user : MemStorage.t :=
  snd (MemStorage.createMessage (userUuid env) (userNow env) (userTouch env)
         user_insert (storage w)).

Definition turn_history : list HistoryItem.t :=
  map (fun m => HistoryItem.mk (Message.role m) (Message.content m))
    (MemStorage.getMessagesByConversation storage_with_user
       (ChatRequest.conversationId req)).

Definition turn_script (isOpenAI : bool) : Script :=
  script env isOpenAI (ChatRequest.model req) turn_history.

Definition assistant_insert (fullResponse : string) : InsertMessage.t :=
  InsertMessage.mk (ChatRequest.conversationId req) "assistant" (JStr fullResponse)
    (ChatRequest.model req) None.

Definition assistant_message (fullResponse : string) : Message.t :=
  fst (MemStorage.createMessage (assistantUuid env) (assistantNow env)
         (assistantTouch env) (assistant_insert fullResponse) storage_with_user).

Definition storage_with_both (fullResponse : string) : MemStorage.t :=
  snd (MemStorage.createMessage (assistantUuid env) (assistantNow env)
         (assistantTouch env) (assistant_insert fullResponse) storage_with_user).

Definition run_chat : World :=
  let w1 := with_storage storage_with_user w in
  match js_includes (ChatRequest.model req) "gpt" with
  | inl e => send_if_open (ErrorFrame (error_message e)) w1
  | inr isOpenAI =>
      let sc := turn_script isOpenAI in
      let w3 :=
        played (steps sc)
          (record_call (call sc)
             (send_if_open StreamingStart (with_aiResponse "" w1))) in
      match ending sc with
      | Some e =>
          send_if_open (ErrorFrame (error_prefix sc ++ error_message e)) w3
      | None =>
          let fullResponse := join (fragments (steps sc)) in
          send_if_open (StreamingComplete fullResponse None)
            (with_storage (storage_with_both fullResponse) w3)
      end
  end.

(** what the [try] block of the turn ends with *)
Definition chat_result : Thrown + unit :=
  match js_includes (ChatRequest.model req) "gpt" with
  | inl e => inl e
  | inr isOpenAI =>
      let sc := turn_script isOpenAI in
      match ending sc with
      | Some e => inl (ErrorObject (error_prefix sc ++ error_message e))
      | None => inr tt
      end
  end.
End Turn.

(** ** What a turn adds to the outbox, the store and the provider calls *)

(** the frames sent, and the provider calls made, between two worlds *)
Definition emitted (w w' : World) : list Frame :=
  skipn (List.length (WebSocket.sent (ws w))) (WebSocket.sent (ws w')).

Definition new_calls (w w' : World) : list ApiCall :=
  skipn (List.length (apiCalls w)) (apiCalls w').

Fixpoint chunk_payloads (frames : list Frame) : list string :=
  match frames with
  | [] => []
  | StreamingChunk c :: rest => c :: chunk_payloads rest
  | _ :: rest => chunk_payloads rest
  end.

Definition call_messages (c : ApiCall) : list HistoryItem.t :=
  match c with
  | OpenAICreate _ messages => messages
  | AnthropicCreate _ _ messages => messages
  end.

(** what the provider answers to a call *)
Definition reply_steps (env : Env) (c : ApiCall) : list Step :=
  match c with
  | OpenAICreate model messages =>
      steps_of openai_fragment (openai env model messages)
  | AnthropicCreate model system messages =>
      steps_of anthropic_fragment (anthropic env model system messages)
  end.

Definition reply_ending (env : Env) (c : ApiCall) : option Thrown :=
  match c with
  | OpenAICreate model messages => ending_of (openai env model messages)
  | AnthropicCreate model system messages =>
      ending_of (anthropic env model system messages)
  end.

Definition terminal_frame (sc : Script) : Frame :=
  match ending sc with
  | Some e => ErrorFrame (error_prefix sc ++ error_message e)
  | None => StreamingComplete (join (fragments (steps sc))) None
  end.

Section TurnEffects.
Variables (env : Env) (req : ChatRequest.t) (w : World).

Definition turn_frames : list Frame :=
  let open0 := WebSocket.is_open (ws w) in
  match js_includes (ChatRequest.model req) "gpt" with
  | inl e => if open0 then [ErrorFrame (error_message e)] else []
  | inr isOpenAI =>
      let sc := turn_script env req w isOpenAI in
      (if open0 then [StreamingStart] else []) ++
      map StreamingChunk (delivered open0 (steps sc)) ++
      (if open0 && all_quiet (steps sc) then [terminal_frame sc] else [])
  end.

Definition turn_calls : list ApiCall :=
  match js_includes (ChatRequest.model req) "gpt" with
  | inl _ => []
  | inr isOpenAI => [call (turn_script env req w isOpenAI)]
  end.

(** the full response of a turn whose backend ran to completion *)
Definition turn_completion : option string :=
  match js_includes (ChatRequest.model req) "gpt" with
  | inl _ => None
  | inr isOpenAI =>
      let sc := turn_script env req w isOpenAI in
      match ending sc with
      | Some _ => None
      | None => Some (join (fragments (steps sc)))
      end
  end.

End TurnEffects.

(** ** Stored messages and the shape of a turn's frames *)

(** a stored message of the turn's conversation with this role and content *)
Definition stored (req : ChatRequest.t) (s : MemStorage.t) (role : string)
    (content : JsValue) : Prop :=
  exists m,
    In m (MemStorage.getMessagesByConversation s (ChatRequest.conversationId req)) /\
    Message.role m = role /\ Message.content m = content.

(** ** The order of the frames of a turn *)

Definition is_terminal (f : Frame) : bool :=
  match f with
  | StreamingComplete _ _ | ErrorFrame _ => true
  | _ => false
  end.

(** chunks, then one terminal frame and nothing more; with [closed = false]
    the terminal frame may be missing *)
Fixpoint chunks_then_terminal (closed : bool) (frames : list Frame) : bool :=
  match frames with
  | [] => negb closed
  | StreamingChunk _ :: rest => chunks_then_terminal closed rest
  | f :: rest => is_terminal f && match rest with [] => true | _ => false end
  end.

(** [streaming_start], chunks, exactly one terminal frame *)
Definition complete_turn (frames : list Frame) : bool :=
  match frames with
  | StreamingStart :: rest => chunks_then_terminal true rest
  | _ => false
  end.

(** an initial part of a complete turn, or the [error] frame alone *)
Definition turn_prefix (frames : list Frame) : bool :=
  match frames with
  | [] => true
  | [ErrorFrame _] => true
  | StreamingStart :: rest => chunks_then_terminal false rest
  | _ => false
  end.

(** ** A turn whose transport closes *)

(** the same answer from the provider, with no hang-up in between *)
Definition calm_reply {C} (r : Reply C) : Reply C :=
  match r with
  | Rejects _ e => Rejects Quiet e
  | Streams _ items _ ending =>
      Streams Quiet (map (fun it => (Quiet, snd it)) items) Quiet ending
  end.

Definition calm (env : Env) : Env :=
  mkEnv (userUuid env) (userNow env) (userTouch env)
    (assistantUuid env) (assistantNow env) (assistantTouch env)
    (fun model messages => calm_reply (openai env model messages))
    (fun model system messages => calm_reply (anthropic env model system messages)).

Definition calm_steps (l : list Step) : list Step := map (fun st => (Quiet, snd st)) l.

(** ** The scenarios of the specification *)

Module Scenario.
(** a chunk of the OpenAI stream that carries text, and the closing chunk
    that carries the usage *)
Definition delta (s : string) : OpenAIChunk.t :=
  OpenAIChunk.mk [OpenAIChunk.mkChoice (Some (OpenAIChunk.mkDelta (Some s)))] None.
Definition usage (n : Z) : OpenAIChunk.t := OpenAIChunk.mk [] (Some n).

(** fragments ["Hel"], ["lo!"], then usage 5 *)
Definition hello : Reply OpenAIChunk.t :=
  Streams Quiet [(Quiet, delta "Hel"); (Quiet, delta "lo!"); (Quiet, usage 5)] Quiet None.

(** the same, with the transport closing before the second fragment *)
Definition hello_hangup : Reply OpenAIChunk.t :=
  Streams Quiet [(Quiet, delta "Hel"); (Hangup, delta "lo!"); (Quiet, usage 5)] Quiet None.

Definition rate_limited : Reply OpenAIChunk.t :=
  Rejects Quiet (ErrorObject "rate limited").

(** the provider rejects after the transport has closed *)
Definition rate_limited_hangup : Reply OpenAIChunk.t :=
  Rejects Hangup (ErrorObject "rate limited").

Definition env (reply : Reply OpenAIChunk.t) : Env :=
  mkEnv "m-1" 1000 1000 "m-2" 2000 2000
    (fun _ _ => reply) (fun _ _ _ => Rejects Quiet NonError).

(** one empty conversation, [C1] *)
Definition store : MemStorage.t :=
  snd (MemStorage.createConversation "C1" 0
         (InsertConversation.mk "New chat" "gpt-5" "chat") MemStorage.empty).

Definition world : World := mkWorld store (WebSocket.mk OPEN []) "" [].

Definition chat (fields : list (string * JsValue)) : Inbound :=
  Parsed (JObj 0 (("type", JStr "chat") :: fields)).

(** [{type:"chat", conversationId:"C1", content:"Hi", model:"gpt-5", mode:"chat"}] *)
Definition hi : Inbound :=
  chat [("conversationId", JStr "C1"); ("content", JStr "Hi");
        ("model", JStr "gpt-5"); ("mode", JStr "chat")].

Definition hi_request : ChatRequest.t :=
  ChatRequest.mk (JStr "C1") (JStr "Hi") (JStr "gpt-5") (JStr "chat").

(** the same request for a conversation that was never created *)
Definition hi_ghost : Inbound :=
  chat [("conversationId", JStr "ghost"); ("content", JStr "Hi");
        ("model", JStr "gpt-5"); ("mode", JStr "chat")].

(** a chat request without [model] *)
Definition hi_no_model : Inbound :=
  chat [("conversationId", JStr "C1"); ("content", JStr "Hi")].

(** a chat request without [content] *)
Definition no_content : Inbound :=
  chat [("conversationId", JStr "C1"); ("model", JStr "gpt-5"); ("mode", JStr "chat")].

(** role, content and token usage of the messages of a conversation *)
Definition transcript (w : World) (conversationId : string)
    : list (string * JsValue * option Z) :=
  map (fun m => (Message.role m, Message.content m, Message.tokenUsage m))
    (MemStorage.getMessagesByConversation (storage w) (JStr conversationId)).

(** a store with two conversations, their messages and a file *)
Definition busy_store : MemStorage.t :=
  let s := snd (MemStorage.createConversation "C2" 1
                  (InsertConversation.mk "Other" "gpt-5" "chat") store) in
  let s := snd (MemStorage.createMessage "a" 10 10
                  (InsertMessage.mk (JStr "C1") "user" (JStr "Hi") JUndefined None) s) in
  let s := snd (MemStorage.createMessage "b" 11 11
                  (InsertMessage.mk (JStr "C2") "user" (JStr "Yo") JUndefined None) s) in
  let s := snd (MemStorage.createMessage "c" 12 12
                  (InsertMessage.mk (JStr "C1") "assistant" (JStr "Hello!")
                     (JStr "gpt-5") (Some 5)) s) in
  snd (MemStorage.createUploadedFile "f" 13
         (InsertUploadedFile.mk "x" "x.txt" "text/plain" 3 "uploads/x" (JStr "C1")) s).
End Scenario.

(** * The store, the routes, the hook and the logs: more of the code *)

(** ** The store: what a [Map] guarantees *)

(** a [Map] holds a key once *)
Definition unique_keys {V} (m : JsMap V) : Prop := NoDup (map fst m).

(** the maps of a [MemStorage] hold every key once, and a message and a file
    sit under their own [id] *)
Record store_wf (s : MemStorage.t) : Prop := {
  wf_ok : store_ok s;
  wf_conversations : unique_keys (MemStorage.conversations s);
  wf_messages : unique_keys (MemStorage.messages s);
  wf_files : unique_keys (MemStorage.uploadedFiles s)
}.

(** the order of [Array.prototype.sort] with the comparators of the store *)
Definition in_order {A} (key : A -> Z) (desc : bool) (x y : A) : Prop :=
  not_after key desc x y = true.

(** ** server/routes.ts: the conversation routes *)

(** The routes that read and delete conversations (the second document of
    src/public_ai-visual.js).  [res.json] answers with status 200 unless
    [res.status] was called.  None of the store's operations throws, so the
    [catch] branches of these routes are not reached. *)
Module Routes.
Inductive Body : Type :=
| ConversationList (conversations : list Conversation.t)
| ConversationBody (conversation : Conversation.t)
| MessageList (messages : list Message.t)
| SuccessBody (success : bool)
| MessageBody (message : string).

Record Response : Type := mk {
  status : Z;
  body : Body
}.

Definition json (b : Body) : Response := mk 200 b.

(** [GET /api/conversations] *)
Definition get_conversations (s : MemStorage.t) : Response :=
  json (ConversationList (MemStorage.getConversations s)).

(** [GET /api/conversations/:id] *)
Definition get_conversation (id : string) (s : MemStorage.t) : Response :=
  match MemStorage.getConversation s id with
  | None => mk 404 (MessageBody "Conversation not found")
  | Some conversation => json (ConversationBody conversation)
  end.

(** [DELETE /api/conversations/:id] *)
Definition delete_conversation (id : string) (s : MemStorage.t)
    : Response * MemStorage.t :=
  let '(deleted, s') := MemStorage.deleteConversation id s in
  (if deleted then json (SuccessBody true)
   else mk 404 (MessageBody "Conversation not found"),
   s').

(** [GET /api/conversations/:id/messages] *)
Definition get_messages (id : string) (s : MemStorage.t) : Response :=
  json (MessageList (MemStorage.getMessagesByConversation s (JStr id))).
End Routes.

(** [{ ...conversation, updatedAt: touch }] *)
Definition touched (c : Conversation.t) (touch : Z) : Conversation.t :=
  Conversation.mk (Conversation.id c) (Conversation.title c) (Conversation.model c)
    (Conversation.mode c) (Conversation.createdAt c) touch.

(** ** The relay: what the theorems below speak of *)

(** the prefix that a service puts before the message of a provider's failure *)
Definition provider_prefix (c : ApiCall) : string :=
  match c with
  | OpenAICreate _ _ => "OpenAI API error: "
  | AnthropicCreate _ _ _ => "Anthropic API error: "
  end.

(** [{ role: m.role, content: m.content }] *)
Definition history_item (m : Message.t) : HistoryItem.t :=
  HistoryItem.mk (Message.role m) (Message.content m).

(** the part of a transcript that a call hands to its provider as [messages]:
    all of it for OpenAI, all but the system messages for Anthropic *)
Definition sent_history (c : ApiCall) (transcript : list HistoryItem.t)
    : list HistoryItem.t :=
  match c with
  | OpenAICreate _ _ => transcript
  | AnthropicCreate _ _ _ =>
      filter (fun item => negb (String.eqb (HistoryItem.role item) "system")) transcript
  end.

(** the two messages a turn stores *)
Definition user_row (env : Env) (req : ChatRequest.t) : Message.t :=
  Message.mk (ChatRequest.conversationId req) "user" (ChatRequest.content req)
    JNull None (userUuid env) (userNow env).

Definition assistant_row (env : Env) (req : ChatRequest.t) (fullResponse : string)
    : Message.t :=
  Message.mk (ChatRequest.conversationId req) "assistant" (JStr fullResponse)
    (js_or (ChatRequest.model req) JNull) None (assistantUuid env) (assistantNow env).

(** ** client/src/hooks/use-websocket.ts: [useWebSocket] *)

(** The hook (the first document of src/use-websocket.ts) as a transition
    system: its three pieces of React state, the socket in [wsRef], and a
    record of what its handlers did to the outside (frames sent, toasts,
    query invalidations, reconnections scheduled).  A handler's [set...]
    calls are applied in order. *)

(** [interface WebSocketMessage] *)
Module WebSocketMessage.
Record t : Type := mk {
  type : string;
  content : option string;
  tokenUsage : option Z;
  message : option string
}.
End WebSocketMessage.

(** what [JSON.parse(event.data)] and the [switch] make of a message: an
    exception (caught and logged), or a [WebSocketMessage] *)
Inductive ServerData : Type :=
| Garbled
| Decoded (data : WebSocketMessage.t).

(** a frame as the server's [JSON.stringify] writes it and the client's
    [JSON.parse] reads it *)
Definition wire (f : Frame) : WebSocketMessage.t :=
  match f with
  | StreamingStart => WebSocketMessage.mk "streaming_start" None None None
  | StreamingChunk c => WebSocketMessage.mk "streaming_chunk" (Some c) None None
  | StreamingComplete c u => WebSocketMessage.mk "streaming_complete" (Some c) u None
  | ErrorFrame m => WebSocketMessage.mk "error" None None (Some m)
  end.

Module Toast.
Record t : Type := mk {
  title : string;
  description : string;
  variant : string
}.
End Toast.

Module Hook.
Record t : Type := mk {
  isConnected : bool;
  isStreaming : bool;
  streamingContent : string;
  (** [wsRef.current] and its [readyState] *)
  socket : option ReadyState;
  (** the objects given to [wsRef.current.send], as their fields *)
  sentFrames : list (list (string * JsValue));
  toasts : list Toast.t;
  (** the [queryKey]s given to [queryClient.invalidateQueries] *)
  invalidated : list (list JsValue);
  (** [setTimeout(connect, 3000)] calls not yet fired *)
  reconnects : nat
}.

Definition setIsConnected (b : bool) (h : t) : t :=
  mk b (isStreaming h) (streamingContent h) (socket h) (sentFrames h) (toasts h)
    (invalidated h) (reconnects h).
Definition setIsStreaming (b : bool) (h : t) : t :=
  mk (isConnected h) b (streamingContent h) (socket h) (sentFrames h) (toasts h)
    (invalidated h) (reconnects h).
Definition setStreamingContent (f : string -> string) (h : t) : t :=
  mk (isConnected h) (isStreaming h) (f (streamingContent h)) (socket h) (sentFrames h)
    (toasts h) (invalidated h) (reconnects h).
Definition setSocket (r : option ReadyState) (h : t) : t :=
  mk (isConnected h) (isStreaming h) (streamingContent h) r (sentFrames h) (toasts h)
    (invalidated h) (reconnects h).
Definition send (frame : list (string * JsValue)) (h : t) : t :=
  mk (isConnected h) (isStreaming h) (streamingContent h) (socket h)
    (sentFrames h ++ [frame]) (toasts h) (invalidated h) (reconnects h).
Definition toast (x : Toast.t) (h : t) : t :=
  mk (isConnected h) (isStreaming h) (streamingContent h) (socket h) (sentFrames h)
    (toasts h ++ [x]) (invalidated h) (reconnects h).
Definition invalidateQueries (key : list JsValue) (h : t) : t :=
  mk (isConnected h) (isStreaming h) (streamingContent h) (socket h) (sentFrames h)
    (toasts h) (invalidated h ++ [key]) (reconnects h).
Definition setTimeout_connect (h : t) : t :=
  mk (isConnected h) (isStreaming h) (streamingContent h) (socket h) (sentFrames h)
    (toasts h) (invalidated h) (S (reconnects h)).

(** [data.message || "An error occurred ..."] and the like *)
Definition or_default (o : option string) (d : string) : string :=
  match o with
  | Some s => if String.eqb s "" then d else s
  | None => d
  end.

(** [ws.onopen] *)
Definition onopen (h : t) : t := setIsConnected true h.

(** [ws.onmessage] *)
Definition onmessage (event : ServerData) (h : t) : t :=
  match event with
  | Garbled => h
  | Decoded data =>
      let type := WebSocketMessage.type data in
      if String.eqb type "streaming_start" then
        setStreamingContent (fun _ => "") (setIsStreaming true h)
      else if String.eqb type "streaming_chunk" then
        match WebSocketMessage.content data with
        | Some content =>
            if String.eqb content "" then h
            else setStreamingContent (fun prev => prev ++ content) h
        | None => h
        end
      else if String.eqb type "streaming_complete" then
        invalidateQueries [JStr "/api/conversations"; JUndefined; JStr "messages"]
          (invalidateQueries [JStr "/api/conversations"]
             (setStreamingContent (fun _ => "") (setIsStreaming false h)))
      else if String.eqb type "error" then
        toast
          (Toast.mk "AI Error"
             (or_default (WebSocketMessage.message data)
                "An error occurred while processing your request.")
             "destructive")
          (setStreamingContent (fun _ => "") (setIsStreaming false h))
      else h
  end.

(** [ws.onclose] *)
Definition onclose (h : t) : t :=
  setTimeout_connect
    (setStreamingContent (fun _ => "") (setIsStreaming false (setIsConnected false h))).

(** [ws.onerror] *)
Definition onerror (h : t) : t := setIsConnected false h.

(** [connect]: a new socket goes into [wsRef] *)
Definition connect (h : t) : t := setSocket (Some CONNECTING) h.

(** [sendMessage(content, conversationId, model, mode)] *)
Definition sendMessage (content conversationId : string) (model mode : option string)
    (h : t) : t :=
  match socket h with
  | Some OPEN =>
      if negb (isStreaming h) then
        send [("type", JStr "chat");
              ("conversationId", JStr conversationId);
              ("content", JStr content);
              ("model", JStr (or_default model "gpt-5"));
              ("mode", JStr (or_default mode "chat"))] h
      else
        toast (Toast.mk "Connection Error"
                 "Unable to send message. Please check your connection." "destructive") h
  | _ =>
      toast (Toast.mk "Connection Error"
               "Unable to send message. Please check your connection." "destructive") h
  end.

(** the messages of the server, handled one after the other *)
Definition receive (frames : list Frame) (h : t) : t :=
  fold_left (fun h f => onmessage (Decoded (wire f)) h) frames h.
End Hook.

(** ** server/storage.ts: scan results and logs of the autonomous system *)

(** The maps of [MemStorage] that the chat path never touches are kept in a
    record of their own.  Rows that reach the store have passed the insert
    schemas, so their [notNull] text columns are strings; optional columns
    are arbitrary values. *)

Module AutonomousLog.
Record t : Type := mk {
  id : string;
  level : string;
  message : string;
  category : string;
  data : JsValue;
  timestamp : Z
}.
End AutonomousLog.

Module InsertAutonomousLog.
Record t : Type := mk {
  level : string;
  message : string;
  category : string;
  data : JsValue
}.
End InsertAutonomousLog.

Module ScanResult.
Record t : Type := mk {
  id : string;
  url : string;
  title : JsValue;
  content : string;
  links : JsValue;
  depth : JsValue;
  status : JsValue;
  metadata : JsValue;
  scannedAt : Z
}.
End ScanResult.

Module InsertScanResult.
Record t : Type := mk {
  url : string;
  title : JsValue;
  content : string;
  links : JsValue;
  depth : JsValue;
  status : JsValue;
  metadata : JsValue
}.
End InsertScanResult.

(** [new Date(t)] for an integer number of milliseconds: outside the range
    of dates the result is an invalid date *)
Definition time_clip (t : Z) : option Z :=
  if Z.abs t <=? 8640000000000000 then Some t else None.

(** [date < cutoffDate], where [date] is valid: a comparison with an invalid
    date is false *)
Definition date_lt (date : Z) (cutoffDate : option Z) : bool :=
  match cutoffDate with
  | Some c => date <? c
  | None => false
  end.

(** [Array.prototype.slice(0, limit)] for an integer [limit]: a negative
    limit counts from the end *)
Definition slice_to {A} (limit : Z) (l : list A) : list A :=
  if limit <? 0
  then firstn (List.length l - Z.to_nat (- limit)) l
  else firstn (Z.to_nat limit) l.

(** a parameter with a default value *)
Definition or_else (o : option Z) (d : Z) : Z :=
  match o with Some n => n | None => d end.

Module AutonomousStorage.
Record t : Type := mk {
  scanResults : JsMap ScanResult.t;
  autonomousLogs : JsMap AutonomousLog.t
}.

Definition empty : t := mk [] [].

Definition getScanResult (s : t) (id : string) : option ScanResult.t :=
  map_get id (scanResults s).

Definition getScanResults (s : t) (limit : option Z) : list ScanResult.t :=
  slice_to (or_else limit 50) (js_sort ScanResult.scannedAt true (map_values (scanResults s))).

Definition getScanResultByUrl (s : t) (url : string) : option ScanResult.t :=
  find (fun result => String.eqb (ScanResult.url result) url) (map_values (scanResults s)).

Definition createScanResult (uuid : string) (now : Z) (ins : InsertScanResult.t) (s : t)
    : ScanResult.t * t :=
  let result :=
    ScanResult.mk uuid (InsertScanResult.url ins)
      (js_or (InsertScanResult.title ins) JNull)
      (InsertScanResult.content ins)
      (js_or (InsertScanResult.links ins) JNull)
      (InsertScanResult.depth ins)
      (js_or (InsertScanResult.status ins) (JStr "completed"))
      (js_or (InsertScanResult.metadata ins) JNull)
      now in
  (result, mk (map_set uuid result (scanResults s)) (autonomousLogs s)).

Definition deleteScanResult (id : string) (s : t) : bool * t :=
  let '(was, scans) := map_delete id (scanResults s) in
  (was, mk scans (autonomousLogs s)).

Definition getAutonomousLog (s : t) (id : string) : option AutonomousLog.t :=
  map_get id (autonomousLogs s).

Definition getAutonomousLogs (s : t) (category level : JsValue) (limit : option Z)
    : list AutonomousLog.t :=
  let logs := map_values (autonomousLogs s) in
  let logs :=
    if truthy category
    then filter (fun log => strict_eq (JStr (AutonomousLog.category log)) category) logs
    else logs in
  let logs :=
    if truthy level
    then filter (fun log => strict_eq (JStr (AutonomousLog.level log)) level) logs
    else logs in
  slice_to (or_else limit 100) (js_sort AutonomousLog.timestamp true logs).

Definition createAutonomousLog (uuid : string) (now : Z) (ins : InsertAutonomousLog.t)
    (s : t) : AutonomousLog.t * t :=
  let log :=
    AutonomousLog.mk uuid (InsertAutonomousLog.level ins) (InsertAutonomousLog.message ins)
      (InsertAutonomousLog.category ins) (js_or (InsertAutonomousLog.data ins) JNull) now in
  (log, mk (scanResults s) (map_set uuid log (autonomousLogs s))).

Definition deleteAutonomousLog (id : string) (s : t) : bool * t :=
  let '(was, logs) := map_delete id (autonomousLogs s) in
  (was, mk (scanResults s) logs).

(** [cleanupOldLogs(days = 30)] for a whole number of days; [now] is the
    value of [Date.now()].  The loop visits every entry of the map once. *)
Definition cleanupOldLogs (now : Z) (days : option Z) (s : t) : Z * t :=
  let cutoffDate := time_clip (now - or_else days 30 * 24 * 60 * 60 * 1000) in
  let '(logs, deleted) :=
    fold_left
      (fun (acc : JsMap AutonomousLog.t * Z) (entry : string * AutonomousLog.t) =>
         if date_lt (AutonomousLog.timestamp (snd entry)) cutoffDate
         then (snd (map_delete (fst entry) (fst acc)), snd acc + 1)
         else acc)
      (autonomousLogs s) (autonomousLogs s, 0) in
  (deleted, mk (scanResults s) logs).

End AutonomousStorage.

(** ** server/routes.ts: the log listing *)

Module AutonomousRoutes.
(** [GET /api/autonomous/logs]: the body of the answer.  [category] and
    [level] are the values of the query, [parsed] is what
    [parseInt(limit)] gives: an integer, or [None] for NaN. *)
Definition get_logs (category level : JsValue) (parsed : option Z)
    (s : AutonomousStorage.t)
    : list AutonomousLog.t :=
  let limit :=
    match parsed with
    | Some n => if n =? 0 then 100 else n
    | None => 100
    end in
  AutonomousStorage.getAutonomousLogs s category level (Some limit).
End AutonomousRoutes.

(** the logs a listing asks for *)
Definition log_matches (category level : JsValue) (log : AutonomousLog.t) : bool :=
  (negb (truthy category) || strict_eq (JStr (AutonomousLog.category log)) category) &&
  (negb (truthy level) || strict_eq (JStr (AutonomousLog.level log)) level).

Definition matching_logs (s : AutonomousStorage.t) (category level : JsValue)
    : list AutonomousLog.t :=
  filter (log_matches category level) (map_values (AutonomousStorage.autonomousLogs s)).

Definition newest_first (l : list AutonomousLog.t) : Prop :=
  StronglySorted (fun a b => AutonomousLog.timestamp b <= AutonomousLog.timestamp a) l.

(** ** Further concrete cases *)

Module Cases.
(** one more user message for conversation [C2] *)
Definition more : InsertMessage.t :=
  InsertMessage.mk (JStr "C2") "user" (JStr "more") JUndefined None.


(** a connected hook that is not streaming *)
Definition ready : Hook.t := Hook.mk true false "" (Some OPEN) [] [] [] 0.

(** three logs, written at 10, 20 and 30 *)
Definition logs : AutonomousStorage.t :=
  let s := snd (AutonomousStorage.createAutonomousLog "l1" 10
                  (InsertAutonomousLog.mk "info" "started" "scanner" JUndefined)
                  AutonomousStorage.empty) in
  let s := snd (AutonomousStorage.createAutonomousLog "l2" 20
                  (InsertAutonomousLog.mk "error" "failed" "scanner" JUndefined) s) in
  snd (AutonomousStorage.createAutonomousLog "l3" 30
         (InsertAutonomousLog.mk "info" "sealed" "vault" JUndefined) s).

Definition scan (content : string) : InsertScanResult.t :=
  InsertScanResult.mk "http://a" JUndefined content JUndefined (JNum 0) JUndefined JUndefined.

(** one scan of [http://a] *)
Definition scans : AutonomousStorage.t :=
  snd (AutonomousStorage.createScanResult "s1" 1 (scan "old") AutonomousStorage.empty).
End Cases.

(** * Properties *)

(** ** Values, maps and sorting *)

Lemma strict_eq_refl (v : JsValue) : strict_eq v v = true.
Proof.
  destruct v; simpl; auto using Bool.eqb_reflx, Z.eqb_refl, String.eqb_refl, Nat.eqb_refl.
Qed.

Lemma strict_eq_chat (v : JsValue) :
  strict_eq v (JStr "chat") = true -> v = JStr "chat".
Proof.
  destruct v; simpl; try discriminate.
  intros H. apply String.eqb_eq in H. now subst.
Qed.

Lemma string_app_assoc (a b c : string) : ((a ++ b) ++ c = a ++ (b ++ c))%string.
Proof. induction a as [|ch a IH]; simpl; [reflexivity | now rewrite IH]. Qed.

Lemma string_app_empty_r (a : string) : (a ++ "" = a)%string.
Proof. induction a as [|ch a IH]; simpl; [reflexivity | now rewrite IH]. Qed.

Section MapFacts.
Variable V : Type.
Implicit Types (m : JsMap V) (k : string) (v : V).

Lemma map_set_In k v m : In (k, v) (map_set k v m).
Proof.
  induction m as [|[k' v'] m IH]; simpl; [now left|].
  destruct (String.eqb k' k); simpl; auto.
Qed.

Lemma map_set_values k v m : In v (map_values (map_set k v m)).
Proof.
  unfold map_values. change v with (snd (k, v)) at 1.
  apply in_map, map_set_In.
Qed.

(** an entry of the updated map is the new one or an old one *)
Lemma map_set_inv k v m e : In e (map_set k v m) -> e = (k, v) \/ In e m.
Proof.
  induction m as [|[k' v'] m IH]; simpl.
  - intros [H|[]]; auto.
  - destruct (String.eqb k' k); simpl; intros [H|H]; auto.
    destruct (IH H); auto.
Qed.

Lemma map_values_set_inv k v m x :
  In x (map_values (map_set k v m)) -> x = v \/ In x (map_values m).
Proof.
  unfold map_values. rewrite !in_map_iff.
  intros [e [<- He]]. destruct (map_set_inv _ _ _ _ He) as [->|Hin]; auto.
  right. now exists e.
Qed.

Lemma map_delete_In k m e :
  In e (snd (map_delete k m)) <-> In e m /\ fst e <> k.
Proof.
  unfold map_delete; simpl. rewrite filter_In.
  destruct (String.eqb_spec (fst e) k); simpl; intuition congruence.
Qed.

Lemma map_get_delete k m : map_get k (snd (map_delete k m)) = None.
Proof.
  unfold map_delete; simpl.
  induction m as [|[k' v'] m IH]; simpl; [reflexivity|].
  destruct (String.eqb_spec k' k) as [->|Hne]; simpl; [exact IH|].
  destruct (String.eqb_spec k' k); [contradiction | exact IH].
Qed.

Lemma delete_each_In (ids : list string) m e :
  In e (MemStorage.delete_each ids m) <-> In e m /\ ~ In (fst e) ids.
Proof.
  revert m. induction ids as [|i ids IH]; intros m.
  - simpl. tauto.
  - change (MemStorage.delete_each (i :: ids) m)
      with (MemStorage.delete_each ids (snd (map_delete i m))).
    rewrite IH, map_delete_In. simpl. intuition congruence.
Qed.

Lemma keyed_set id_of k v m : id_of v = k -> keyed id_of m -> keyed id_of (map_set k v m).
Proof.
  intros Hk Hm k0 v0 Hin.
  destruct (map_set_inv _ _ _ _ Hin) as [E|Hold]; [inversion E; now subst | now apply Hm].
Qed.

Lemma keyed_delete id_of k m : keyed id_of m -> keyed id_of (snd (map_delete k m)).
Proof. intros Hm k0 v0 Hin. apply map_delete_In in Hin. now apply Hm. Qed.

Lemma keyed_delete_each id_of ids m :
  keyed id_of m -> keyed id_of (MemStorage.delete_each ids m).
Proof. intros Hm k0 v0 Hin. apply delete_each_In in Hin. now apply Hm. Qed.

End MapFacts.

Section SortFacts.
Variables (A : Type) (key : A -> Z) (desc : bool).

Lemma insert_sorted_In x y (l : list A) :
  In y (insert_sorted key desc x l) <-> y = x \/ In y l.
Proof.
  induction l as [|z l IH]; simpl.
  - intuition.
  - destruct (not_after key desc x z); simpl; rewrite ?IH; intuition.
Qed.

Lemma js_sort_In y (l : list A) : In y (js_sort key desc l) <-> In y l.
Proof.
  induction l as [|x l IH]; simpl; [tauto|].
  rewrite insert_sorted_In, IH. intuition.
Qed.

End SortFacts.

Lemma filter_none {A} (f : A -> bool) (l : list A) :
  (forall x, In x l -> f x = false) -> filter f l = [].
Proof.
  induction l as [|x l IH]; simpl; intros H; [reflexivity|].
  rewrite (H x (or_introl eq_refl)). apply IH. intros y Hy. apply H. now right.
Qed.

(** ** The store *)

Lemma getMessagesByConversation_In (s : MemStorage.t) (c : JsValue) (m : Message.t) :
  In m (MemStorage.getMessagesByConversation s c) <->
  In m (map_values (MemStorage.messages s)) /\ strict_eq (Message.conversationId m) c = true.
Proof.
  unfold MemStorage.getMessagesByConversation. now rewrite js_sort_In, filter_In.
Qed.

Lemma getUploadedFiles_owned (s : MemStorage.t) (c : JsValue) (f : UploadedFile.t) :
  In f (map_values (MemStorage.uploadedFiles s)) ->
  strict_eq (UploadedFile.conversationId f) c = true ->
  In f (MemStorage.getUploadedFiles s c).
Proof.
  intros Hin Hc. unfold MemStorage.getUploadedFiles.
  destruct (truthy c); [apply filter_In; auto | now apply js_sort_In].
Qed.

Lemma store_ok_empty : store_ok MemStorage.empty.
Proof. split; intros k v []. Qed.

Lemma store_ok_createConversation uuid now ins s :
  store_ok s -> store_ok (snd (MemStorage.createConversation uuid now ins s)).
Proof. intros [Hm Hf]. split; assumption. Qed.

Lemma store_ok_updateConversation now id updates s :
  store_ok s -> store_ok (snd (MemStorage.updateConversation now id updates s)).
Proof.
  intros [Hm Hf]. unfold MemStorage.updateConversation.
  destruct (map_get id (MemStorage.conversations s)); split; assumption.
Qed.

Lemma createMessage_messages uuid now touch ins s :
  MemStorage.messages (snd (MemStorage.createMessage uuid now touch ins s)) =
  map_set uuid (fst (MemStorage.createMessage uuid now touch ins s)) (MemStorage.messages s).
Proof.
  unfold MemStorage.createMessage; simpl.
  destruct (InsertMessage.conversationId ins); try reflexivity.
  unfold MemStorage.updateConversation; simpl.
  destruct (map_get s0 (MemStorage.conversations s)); reflexivity.
Qed.

Lemma createMessage_uploadedFiles uuid now touch ins s :
  MemStorage.uploadedFiles (snd (MemStorage.createMessage uuid now touch ins s)) =
  MemStorage.uploadedFiles s.
Proof.
  unfold MemStorage.createMessage; simpl.
  destruct (InsertMessage.conversationId ins); try reflexivity.
  unfold MemStorage.updateConversation; simpl.
  destruct (map_get s0 (MemStorage.conversations s)); reflexivity.
Qed.

Lemma store_ok_createMessage uuid now touch ins s :
  store_ok s -> store_ok (snd (MemStorage.createMessage uuid now touch ins s)).
Proof.
  intros [Hm Hf]. split.
  - rewrite createMessage_messages. now apply keyed_set.
  - now rewrite createMessage_uploadedFiles.
Qed.

Lemma store_ok_deleteMessage id s :
  store_ok s -> store_ok (snd (MemStorage.deleteMessage id s)).
Proof. intros [Hm Hf]. split; simpl; [now apply keyed_delete | assumption]. Qed.

Lemma store_ok_createUploadedFile uuid now ins s :
  store_ok s -> store_ok (snd (MemStorage.createUploadedFile uuid now ins s)).
Proof. intros [Hm Hf]. split; simpl; [assumption | now apply keyed_set]. Qed.

Lemma store_ok_deleteUploadedFile id s :
  store_ok s -> store_ok (snd (MemStorage.deleteUploadedFile id s)).
Proof. intros [Hm Hf]. split; simpl; [assumption | now apply keyed_delete]. Qed.

Lemma store_ok_deleteConversation id s :
  store_ok s -> store_ok (snd (MemStorage.deleteConversation id s)).
Proof. intros [Hm Hf]. split; simpl; now apply keyed_delete_each. Qed.

(** what [deleteConversation] leaves of a keyed map whose matching values are
    the ones deleted *)
Lemma delete_each_clears {V} (id_of : V -> string) (hit : V -> bool)
    (doomed : list V) (m : JsMap V) :
  keyed id_of m ->
  (forall v, In v (map_values m) -> hit v = true -> In v doomed) ->
  forall v, In v (map_values (MemStorage.delete_each (map id_of doomed) m)) -> hit v = false.
Proof.
  intros Hk Hall v Hin. unfold map_values in Hin. apply in_map_iff in Hin.
  destruct Hin as [[k v'] [Hv He]]. simpl in Hv. subst v'.
  apply delete_each_In in He. destruct He as [Hm Hnot]. simpl in Hnot.
  destruct (hit v) eqn:Hhit; [|reflexivity].
  exfalso. apply Hnot. rewrite <- (Hk _ _ Hm). apply in_map, Hall; [|assumption].
  unfold map_values. apply in_map_iff. now exists (k, v).
Qed.

(** C9. Deleting a conversation removes every message and every uploaded file
    whose owning conversation id equals the deleted id, and the conversation
    itself: afterwards [getMessagesByConversation] on that id is empty, and no
    message or file of that conversation is left. *)
Theorem C9_delete_conversation_cascades (s : MemStorage.t) (id : string) :
  store_ok s ->
  let s' := snd (MemStorage.deleteConversation id s) in
  MemStorage.getMessagesByConversation s' (JStr id) = [] /\
  (forall m, In m (map_values (MemStorage.messages s')) ->
             strict_eq (Message.conversationId m) (JStr id) = false) /\
  (forall f, In f (map_values (MemStorage.uploadedFiles s')) ->
             strict_eq (UploadedFile.conversationId f) (JStr id) = false) /\
  (id <> "" -> MemStorage.getUploadedFiles s' (JStr id) = []) /\
  MemStorage.getConversation s' id = None.
Proof.
  intros [Hm Hf] s'.
  assert (Hmsgs : forall m, In m (map_values (MemStorage.messages s')) ->
                            strict_eq (Message.conversationId m) (JStr id) = false).
  { subst s'; simpl.
    apply delete_each_clears
      with (hit := fun m => strict_eq (Message.conversationId m) (JStr id)); [assumption|].
    intros v Hv Hhit. now apply getMessagesByConversation_In. }
  assert (Hfiles : forall f, In f (map_values (MemStorage.uploadedFiles s')) ->
                             strict_eq (UploadedFile.conversationId f) (JStr id) = false).
  { subst s'; simpl.
    apply delete_each_clears
      with (hit := fun f => strict_eq (UploadedFile.conversationId f) (JStr id)); [assumption|].
    intros v Hv Hhit. now apply getUploadedFiles_owned. }
  repeat split; try assumption.
  - unfold MemStorage.getMessagesByConversation.
    rewrite (filter_none _ _ Hmsgs). reflexivity.
  - intros Hid. unfold MemStorage.getUploadedFiles; simpl.
    apply String.eqb_neq in Hid. rewrite Hid; simpl.
    apply filter_none, Hfiles.
  - subst s'. unfold MemStorage.getConversation; simpl. apply map_get_delete.
Qed.

(** ** What a stream does to the world *)

Lemma played_nil (w : World) : played [] w = w.
Proof.
  destruct w as [st [rs out] ai calls]. unfold played; simpl.
  now rewrite app_nil_r, string_app_empty_r.
Qed.

Lemma delivered_closed (steps : list Step) : delivered false steps = [].
Proof. induction steps as [|[s [x|]] rest IH]; simpl; auto. Qed.

Lemma played_cons_none (s : Suspension) (rest : list Step) (w : World) :
  played ((s, None) :: rest) w = played rest (await s w).
Proof.
  destruct w as [st [rs out] ai calls].
  destruct s; unfold played, WebSocket.is_open; simpl.
  - now rewrite Bool.andb_true_r.
  - rewrite Bool.andb_false_r, !delivered_closed.
    now destruct (all_quiet rest).
Qed.

Lemma played_cons_some (s : Suspension) (x : string) (rest : list Step) (w : World) :
  played ((s, Some x) :: rest) w = played rest (onChunk x (await s w)).
Proof.
  destruct w as [st [rs out] ai calls].
  destruct s; unfold played, onChunk, send_if_open, WebSocket.is_open; simpl.
  - destruct rs; simpl; rewrite ?string_app_assoc, <- ?app_assoc; reflexivity.
  - rewrite Bool.andb_false_r, !delivered_closed, string_app_assoc.
    now destruct (all_quiet rest).
Qed.

Lemma played_app (a b : list Step) (w : World) :
  played (a ++ b) w = played b (played a w).
Proof.
  revert w. induction a as [|[s [x|]] a IH]; intros w.
  - now rewrite played_nil.
  - simpl app. now rewrite !played_cons_some, IH.
  - simpl app. now rewrite !played_cons_none, IH.
Qed.

Lemma fragments_app (a b : list Step) :
  fragments (a ++ b) = (fragments a ++ fragments b)%list.
Proof. induction a as [|[s [x|]] a IH]; simpl; congruence. Qed.

Lemma join_app (a b : list string) : join (a ++ b) = (join a ++ join b)%string.
Proof.
  induction a as [|x a IH]; simpl; [reflexivity|].
  now rewrite IH, string_app_assoc.
Qed.

(** the transport never reopens: what is delivered is an initial part of what
    is produced, all of it when nothing interrupts an open transport *)
Lemma delivered_prefix (open : bool) (steps : list Step) :
  exists lost, fragments steps = (delivered open steps ++ lost)%list.
Proof.
  revert open. induction steps as [|[s [x|]] rest IH]; intros open; simpl.
  - now exists [].
  - destruct (open && quiet s) eqn:E.
    + destruct (IH true) as [lost H]. exists lost. now rewrite H.
    + rewrite delivered_closed. now exists (x :: fragments rest).
  - apply IH.
Qed.

Lemma delivered_all (steps : list Step) :
  all_quiet steps = true -> delivered true steps = fragments steps.
Proof.
  induction steps as [|[s [x|]] rest IH]; simpl; [reflexivity| |];
    intros H; apply Bool.andb_true_iff in H; destruct H as [Hs Hr];
    rewrite Hs; simpl; now rewrite IH.
Qed.

Lemma played_open (steps : list Step) (w : World) :
  WebSocket.is_open (ws (played steps w)) = true ->
  WebSocket.is_open (ws w) = true /\ all_quiet steps = true.
Proof.
  unfold played, WebSocket.is_open; simpl.
  destruct (all_quiet steps); simpl; [auto | discriminate].
Qed.

Section ServiceFacts.
Variable C : Type.
Variable fragment : C -> option string.
Variable body : C -> string -> World -> string * World.
Hypothesis body_fragment :
  forall chunk fullContent w,
    body chunk fullContent w =
    match fragment chunk with
    | Some x => ((fullContent ++ x)%string, onChunk x w)
    | None => (fullContent, w)
    end.

Lemma for_await_played (items : list (Suspension * C)) (fullContent : string) (w : World) :
  for_await body items fullContent w =
  ((fullContent ++ join (fragments (steps_of_items fragment items)))%string,
   played (steps_of_items fragment items) w).
Proof.
  revert fullContent w. induction items as [|[s chunk] items IH]; intros full w.
  - simpl. now rewrite played_nil, string_app_empty_r.
  - simpl. rewrite body_fragment. destruct (fragment chunk) as [x|].
    + rewrite IH, played_cons_some. simpl. now rewrite string_app_assoc.
    + now rewrite IH, played_cons_none.
Qed.

Lemma stream_completion_played (prefix : string) (call : ApiCall) (reply : Reply C)
    (w : World) :
  stream_completion body prefix call reply w =
  (played (steps_of fragment reply) (record_call call w),
   match ending_of reply with
   | Some e => inl (ErrorObject (prefix ++ error_message e))
   | None => inr (Completion.mk (join (fragments (steps_of fragment reply))) None)
   end).
Proof.
  unfold stream_completion. destruct reply as [during e | during items last ending]; simpl.
  - now rewrite played_cons_none, played_nil.
  - rewrite for_await_played, played_cons_none, played_app, played_cons_none, played_nil.
    rewrite fragments_app; simpl. rewrite app_nil_r.
    now destruct ending.
Qed.

End ServiceFacts.


Lemma openai_loop_body_fragment chunk fullContent w :
  OpenAI.loop_body onChunk chunk fullContent w =
  match openai_fragment chunk with
  | Some x => ((fullContent ++ x)%string, onChunk x w)
  | None => (fullContent, w)
  end.
Proof.
  unfold OpenAI.loop_body, openai_fragment.
  now destruct (String.eqb (OpenAI.delta_content chunk) "").
Qed.



Lemma anthropic_loop_body_fragment chunk fullContent w :
  Anthropic.loop_body onChunk chunk fullContent w =
  match anthropic_fragment chunk with
  | Some x => ((fullContent ++ x)%string, onChunk x w)
  | None => (fullContent, w)
  end.
Proof. destruct chunk as [| | [|] | | |]; reflexivity. Qed.


Lemma service_script (env : Env) (isOpenAI : bool) (model : JsValue)
    (history : list HistoryItem.t) (w : World) :
  (if isOpenAI
   then OpenAI.generateStreamingCompletion (openai env)
   else Anthropic.generateStreamingCompletion (anthropic env)) history model onChunk w =
  let sc := script env isOpenAI model history in
  (played (steps sc) (record_call (call sc) w),
   match ending sc with
   | Some e => inl (ErrorObject (error_prefix sc ++ error_message e))
   | None => inr (Completion.mk (join (fragments (steps sc))) None)
   end).
Proof.
  destruct isOpenAI; simpl.
  - unfold OpenAI.generateStreamingCompletion.
    apply stream_completion_played, openai_loop_body_fragment.
  - unfold Anthropic.generateStreamingCompletion.
    apply stream_completion_played, anthropic_loop_body_fragment.
Qed.

(** ** The handler in closed form *)

(** sending touches the outbox only *)
Lemma send_if_open_storage f w : storage (send_if_open f w) = storage w.
Proof. unfold send_if_open. now destruct (WebSocket.is_open (ws w)). Qed.

Lemma send_if_open_apiCalls f w : apiCalls (send_if_open f w) = apiCalls w.
Proof. unfold send_if_open. now destruct (WebSocket.is_open (ws w)). Qed.

Lemma send_if_open_aiResponse f w : aiResponse (send_if_open f w) = aiResponse w.
Proof. unfold send_if_open. now destruct (WebSocket.is_open (ws w)). Qed.

Lemma send_if_open_is_open f w :
  WebSocket.is_open (ws (send_if_open f w)) = WebSocket.is_open (ws w).
Proof. unfold send_if_open. now destruct (WebSocket.is_open (ws w)) eqn:E. Qed.

Lemma send_if_open_sent f w :
  WebSocket.sent (ws (send_if_open f w)) =
  (WebSocket.sent (ws w) ++ (if WebSocket.is_open (ws w) then [f] else []))%list.
Proof.
  unfold send_if_open. destruct (WebSocket.is_open (ws w)); simpl; auto using app_nil_r.
Qed.

Lemma played_is_open steps w :
  WebSocket.is_open (ws (played steps w)) = WebSocket.is_open (ws w) && all_quiet steps.
Proof.
  unfold played, WebSocket.is_open; simpl.
  destruct (all_quiet steps), (WebSocket.readyState (ws w)); reflexivity.
Qed.

#[local] Arguments MemStorage.createMessage : simpl never.
#[local] Arguments script : simpl never.

Lemma chat_request_inv (data : Inbound) (req : ChatRequest.t) :
  chat_request data = Some req ->
  exists ref fields,
    data = Parsed (JObj ref fields) /\
    get_field "type" fields = JStr "chat" /\
    req = ChatRequest.mk (get_field "conversationId" fields) (get_field "content" fields)
            (get_field "model" fields) (get_field "mode" fields).
Proof.
  destruct data as [m | [| | | | | |ref fields]]; simpl; try discriminate.
  destruct (strict_eq (get_field "type" fields) (JStr "chat")) eqn:E; [|discriminate].
  intros H. inversion H. exists ref, fields. auto using strict_eq_chat.
Qed.

Lemma handle_chat (env : Env) (data : Inbound) (req : ChatRequest.t) (w : World) :
  chat_request data = Some req ->
  handle env data w =
  (match chat_result env req w with
   | inl e => (* the state the exception leaves behind *)
       match js_includes (ChatRequest.model req) "gpt" with
       | inl _ => with_storage (storage_with_user env req w) w
       | inr isOpenAI =>
           let sc := turn_script env req w isOpenAI in
           played (steps sc)
             (record_call (call sc)
                (send_if_open StreamingStart
                   (with_aiResponse "" (with_storage (storage_with_user env req w) w))))
       end
   | inr _ => run_chat env req w
   end,
   chat_result env req w).
Proof.
  intros H. destruct (chat_request_inv _ H) as [ref [fields [-> [Hty ->]]]].
  unfold handle, bind, lift, JSON_parse, ret, on_storage, read_storage, effect,
    chat_result, run_chat, turn_script, turn_history, storage_with_both,
    storage_with_user, assistant_insert, user_insert; cbn.
  rewrite Hty; cbn.
  match goal with
  | |- context [MemStorage.createMessage ?a ?b ?c ?d (storage w)] =>
      destruct (MemStorage.createMessage a b c d (storage w)) as [um s1]
  end; cbn.
  destruct (js_includes (get_field "model" fields) "gpt") as [e|isOpenAI]; [reflexivity|].
  rewrite service_script; cbn.
  match goal with |- context [ending ?sc] => destruct (ending sc) end; [reflexivity|].
  cbn. rewrite send_if_open_storage; cbn.
  match goal with
  | |- context [MemStorage.createMessage ?a ?b ?c ?d ?e] =>
      destruct (MemStorage.createMessage a b c d e) as [am s2]
  end.
  reflexivity.
Qed.

(** The whole handler on a chat request. *)
Lemma on_message_chat (env : Env) (data : Inbound) (req : ChatRequest.t) (w : World) :
  chat_request data = Some req -> on_message env data w = run_chat env req w.
Proof.
  intros H. unfold on_message. rewrite (@handle_chat env data req w H).
  unfold chat_result, run_chat.
  destruct (js_includes (ChatRequest.model req) "gpt") as [e|isOpenAI]; [reflexivity|].
  simpl. destruct (ending (turn_script env req w isOpenAI)); reflexivity.
Qed.

(** The handler on a frame that is not a chat request: it throws on a frame
    that does not parse and on [null], and does nothing otherwise. *)
Lemma on_message_other (env : Env) (data : Inbound) (w : World) :
  chat_request data = None ->
  on_message env data w =
  match data with
  | Unparseable m => send_if_open (ErrorFrame m) w
  | Parsed v =>
      match get_prop v "type" with
      | inl e => send_if_open (ErrorFrame (error_message e)) w
      | inr _ => w
      end
  end.
Proof.
  destruct data as [m | v]; [reflexivity|].
  destruct v as [| | | | | |ref fields]; try reflexivity.
  simpl. unfold on_message, handle, bind, lift, JSON_parse, ret; simpl.
  destruct (strict_eq (get_field "type" fields) (JStr "chat")); [discriminate | reflexivity].
Qed.

(** ** What a turn adds to the outbox, the store and the provider calls *)

Lemma script_reply (env : Env) (isOpenAI : bool) (model : JsValue)
    (history : list HistoryItem.t) :
  let sc := script env isOpenAI model history in
  steps sc = reply_steps env (call sc) /\ ending sc = reply_ending env (call sc).
Proof. destruct isOpenAI; split; reflexivity. Qed.

Section TurnEffectsFacts.
Variables (env : Env) (req : ChatRequest.t) (w : World).

Lemma run_chat_sent :
  WebSocket.sent (ws (run_chat env req w)) =
  (WebSocket.sent (ws w) ++ turn_frames env req w)%list.
Proof.
  unfold run_chat, turn_frames, terminal_frame.
  destruct (js_includes (ChatRequest.model req) "gpt") as [e|isOpenAI].
  - now rewrite send_if_open_sent.
  - cbv zeta. set (sc := turn_script env req w isOpenAI).
    destruct (ending sc); rewrite send_if_open_sent; cbn -[played];
      rewrite played_is_open; cbn;
      rewrite !send_if_open_sent, !send_if_open_is_open; cbn;
      rewrite <- !app_assoc; reflexivity.
Qed.

Lemma run_chat_is_open :
  WebSocket.is_open (ws (run_chat env req w)) =
  match js_includes (ChatRequest.model req) "gpt" with
  | inl _ => WebSocket.is_open (ws w)
  | inr isOpenAI =>
      WebSocket.is_open (ws w) && all_quiet (steps (turn_script env req w isOpenAI))
  end.
Proof.
  unfold run_chat.
  destruct (js_includes (ChatRequest.model req) "gpt") as [e|isOpenAI].
  - now rewrite send_if_open_is_open.
  - cbv zeta. set (sc := turn_script env req w isOpenAI).
    destruct (ending sc); rewrite send_if_open_is_open; cbn -[played];
      rewrite played_is_open; cbn; now rewrite send_if_open_is_open.
Qed.

Lemma run_chat_storage :
  storage (run_chat env req w) =
  match turn_completion env req w with
  | Some fullResponse => storage_with_both env req w fullResponse
  | None => storage_with_user env req w
  end.
Proof.
  unfold run_chat, turn_completion.
  destruct (js_includes (ChatRequest.model req) "gpt") as [e|isOpenAI].
  - now rewrite send_if_open_storage.
  - cbv zeta. set (sc := turn_script env req w isOpenAI).
    destruct (ending sc); rewrite send_if_open_storage; cbn;
      rewrite ?send_if_open_storage; reflexivity.
Qed.

Lemma run_chat_apiCalls :
  apiCalls (run_chat env req w) = (apiCalls w ++ turn_calls env req w)%list.
Proof.
  unfold run_chat, turn_calls.
  destruct (js_includes (ChatRequest.model req) "gpt") as [e|isOpenAI].
  - now rewrite send_if_open_apiCalls, app_nil_r.
  - cbv zeta. set (sc := turn_script env req w isOpenAI).
    destruct (ending sc); rewrite send_if_open_apiCalls; cbn;
      rewrite send_if_open_apiCalls; reflexivity.
Qed.

Lemma run_chat_aiResponse :
  aiResponse (run_chat env req w) =
  match js_includes (ChatRequest.model req) "gpt" with
  | inl _ => aiResponse w
  | inr isOpenAI => join (fragments (steps (turn_script env req w isOpenAI)))
  end.
Proof.
  unfold run_chat.
  destruct (js_includes (ChatRequest.model req) "gpt") as [e|isOpenAI].
  - now rewrite send_if_open_aiResponse.
  - cbv zeta. set (sc := turn_script env req w isOpenAI).
    destruct (ending sc); rewrite send_if_open_aiResponse; cbn;
      rewrite send_if_open_aiResponse; reflexivity.
Qed.

End TurnEffectsFacts.

Lemma skipn_length_app {A} (l x : list A) : skipn (List.length l) (l ++ x) = x.
Proof. induction l as [|a l IH]; simpl; auto. Qed.

Section ChatTurnFacts.
Variables (env : Env) (data : Inbound) (req : ChatRequest.t) (w : World).
Hypothesis is_chat : chat_request data = Some req.

Lemma emitted_chat : emitted w (on_message env data w) = turn_frames env req w.
Proof.
  unfold emitted. rewrite (@on_message_chat env data req w is_chat), run_chat_sent.
  apply skipn_length_app.
Qed.

Lemma new_calls_chat : new_calls w (on_message env data w) = turn_calls env req w.
Proof.
  unfold new_calls. rewrite (@on_message_chat env data req w is_chat), run_chat_apiCalls.
  apply skipn_length_app.
Qed.

Lemma storage_chat :
  storage (on_message env data w) =
  match turn_completion env req w with
  | Some fullResponse => storage_with_both env req w fullResponse
  | None => storage_with_user env req w
  end.
Proof. rewrite (@on_message_chat env data req w is_chat). apply run_chat_storage. Qed.

Lemma result_chat : snd (handle env data w) = chat_result env req w.
Proof. now rewrite (@handle_chat env data req w is_chat). Qed.

End ChatTurnFacts.

(** the handler keeps the invariant of the store *)
Lemma on_message_store_ok (env : Env) (data : Inbound) (w : World) :
  store_ok (storage w) -> store_ok (storage (on_message env data w)).
Proof.
  intros Hok. destruct (chat_request data) as [req|] eqn:Hreq.
  - rewrite (@storage_chat env data req w Hreq).
    destruct (turn_completion env req w);
      unfold storage_with_both, storage_with_user;
      repeat apply store_ok_createMessage; assumption.
  - rewrite (on_message_other env data w Hreq).
    destruct data as [m|v]; [now rewrite send_if_open_storage|].
    destruct (get_prop v "type"); [now rewrite send_if_open_storage | assumption].
Qed.

(** ** Frames and stored messages of a turn *)

Lemma chunk_payloads_app (a b : list Frame) :
  chunk_payloads (a ++ b) = (chunk_payloads a ++ chunk_payloads b)%list.
Proof.
  induction a as [|f a IH]; simpl; [reflexivity|].
  destruct f; simpl; now rewrite IH.
Qed.

Lemma chunk_payloads_chunks (l : list string) : chunk_payloads (map StreamingChunk l) = l.
Proof. induction l as [|x l IH]; simpl; congruence. Qed.

Lemma chunk_payloads_turn_frames (env : Env) (req : ChatRequest.t) (w : World) :
  chunk_payloads (turn_frames env req w) =
  match js_includes (ChatRequest.model req) "gpt" with
  | inl _ => []
  | inr isOpenAI =>
      delivered (WebSocket.is_open (ws w)) (steps (turn_script env req w isOpenAI))
  end.
Proof.
  unfold turn_frames, terminal_frame.
  destruct (js_includes (ChatRequest.model req) "gpt") as [e|isOpenAI].
  - now destruct (WebSocket.is_open (ws w)).
  - cbv zeta. rewrite !chunk_payloads_app, chunk_payloads_chunks.
    destruct (WebSocket.is_open (ws w)); simpl.
    + destruct (all_quiet _); simpl; [|apply app_nil_r].
      destruct (ending _); simpl; apply app_nil_r.
    + apply app_nil_r.
Qed.

Lemma createMessage_fst uuid now touch ins s :
  fst (MemStorage.createMessage uuid now touch ins s) =
  Message.mk (InsertMessage.conversationId ins) (InsertMessage.role ins)
    (InsertMessage.content ins) (js_or (InsertMessage.model ins) JNull)
    (MemStorage.usage_or_null (InsertMessage.tokenUsage ins)) uuid now.
Proof. reflexivity. Qed.

Lemma map_set_other {V} (k k0 : string) (v v0 : V) (m : JsMap V) :
  k0 <> k -> In (k0, v0) m -> In (k0, v0) (map_set k v m).
Proof.
  intros Hne. induction m as [|[k' v'] m IH]; simpl; [tauto|].
  destruct (String.eqb_spec k' k) as [->|Hk]; simpl.
  - intros [H|H]; [inversion H; congruence | now right].
  - intros [H|H]; auto.
Qed.

Section StoredMessagesFacts.
Variables (env : Env) (req : ChatRequest.t) (w : World).

Lemma user_stored : stored req (storage_with_user env req w) "user" (ChatRequest.content req).
Proof.
  exists (user_message env req w). split; [|split; reflexivity].
  apply getMessagesByConversation_In. split.
  - unfold storage_with_user. rewrite createMessage_messages. apply map_set_values.
  - apply strict_eq_refl.
Qed.

Lemma assistant_stored (fullResponse : string) :
  stored req (storage_with_both env req w fullResponse) "assistant" (JStr fullResponse).
Proof.
  exists (assistant_message env req w fullResponse). split; [|split; reflexivity].
  apply getMessagesByConversation_In. split.
  - unfold storage_with_both. rewrite createMessage_messages. apply map_set_values.
  - apply strict_eq_refl.
Qed.

Lemma user_survives (fullResponse : string) :
  userUuid env <> assistantUuid env ->
  stored req (storage_with_both env req w fullResponse) "user" (ChatRequest.content req).
Proof.
  intros Hfresh. exists (user_message env req w). split; [|split; reflexivity].
  apply getMessagesByConversation_In. split; [|apply strict_eq_refl].
  unfold storage_with_both. rewrite createMessage_messages.
  unfold map_values. apply in_map_iff. exists (userUuid env, user_message env req w).
  split; [reflexivity|]. apply map_set_other; [assumption|].
  unfold storage_with_user. rewrite createMessage_messages. apply map_set_In.
Qed.

Lemma user_in_history :
  In (HistoryItem.mk "user" (ChatRequest.content req)) (turn_history env req w).
Proof.
  destruct user_stored as [m [Hin [Hrole Hcontent]]].
  unfold turn_history. apply in_map_iff. exists m. now rewrite Hrole, Hcontent.
Qed.

Lemma user_in_call (isOpenAI : bool) :
  In (HistoryItem.mk "user" (ChatRequest.content req))
     (call_messages (call (turn_script env req w isOpenAI))).
Proof.
  unfold turn_script, script. destruct isOpenAI; cbn.
  - apply user_in_history.
  - apply filter_In. split; [apply user_in_history | reflexivity].
Qed.

(** a message that the failed turn leaves in the store with the role
    "assistant" was there before the turn *)
Lemma no_new_assistant (m : Message.t) :
  In m (map_values (MemStorage.messages (storage_with_user env req w))) ->
  Message.role m = "assistant" ->
  In m (map_values (MemStorage.messages (storage w))).
Proof.
  unfold storage_with_user. rewrite createMessage_messages. intros Hin Hrole.
  destruct (map_values_set_inv _ _ _ _ Hin) as [->|Hold]; [|assumption].
  rewrite createMessage_fst in Hrole. discriminate.
Qed.

End StoredMessagesFacts.

(** ** The chat turn *)

(** The first suspension during which the transport closes splits the steps
    of an answer: the fragments before it are delivered, the others are not. *)

Lemma all_quiet_app (a b : list Step) : all_quiet (a ++ b) = all_quiet a && all_quiet b.
Proof. apply forallb_app. Qed.

Lemma hangup_split (l : list Step) :
  all_quiet l = false ->
  exists before o after,
    l = (before ++ (Hangup, o) :: after)%list /\ all_quiet before = true.
Proof.
  induction l as [|[s o] rest IH]; [discriminate|].
  destruct s.
  - intros H. destruct (IH H) as [before [o' [after [-> Hq]]]].
    exists ((Quiet, o) :: before), o', after. now split.
  - intros _. exists [], o, rest. now split.
Qed.

Lemma delivered_until_hangup (before : list Step) (o : option string) (after : list Step) :
  all_quiet before = true ->
  delivered true (before ++ (Hangup, o) :: after) = fragments before.
Proof.
  induction before as [|[s x] before IH]; simpl.
  - intros _. destruct o; apply delivered_closed.
  - intros H. apply Bool.andb_true_iff in H. destruct H as [Hs Hq]. simpl in Hs.
    rewrite Hs. destruct x; simpl; now rewrite IH.
Qed.

Lemma hangup_not_quiet (before : list Step) (o : option string) (after : list Step) :
  all_quiet (before ++ (Hangup, o) :: after) = false.
Proof. rewrite all_quiet_app. simpl. apply Bool.andb_false_r. Qed.

(** C1 (as amended). A chat turn whose [try] block ends without an exception
    has called one provider, whose answer ran to completion, and the store
    then holds, under the turn's conversation, an assistant message whose
    content is the concatenation of all the fragments of that answer.  The
    payloads of the [streaming_chunk] frames sent are an initial part of
    those fragments.  If the connection is still open at the end of the turn,
    [streaming_complete] is the last frame sent, and its [content], the
    concatenation of the chunk payloads and the stored content are equal.  If
    the connection is closed by then, no [streaming_complete] is sent.
    Whenever a [streaming_complete] frame is sent, the three texts are
    equal. *)
Theorem C1_chunks_equal_complete_and_stored
    (env : Env) (data : Inbound) (req : ChatRequest.t) (w : World) :
  chat_request data = Some req ->
  snd (handle env data w) = inr tt ->
  let w' := on_message env data w in
  let frames := emitted w w' in
  exists call,
    new_calls w w' = [call] /\
    reply_ending env call = None /\
    let full := join (fragments (reply_steps env call)) in
    stored req (storage w') "assistant" (JStr full) /\
    (exists lost,
       fragments (reply_steps env call) = (chunk_payloads frames ++ lost)%list) /\
    (WebSocket.is_open (ws w') = true ->
       join (chunk_payloads frames) = full /\
       exists before, frames = (before ++ [StreamingComplete full None])%list) /\
    (WebSocket.is_open (ws w') = false ->
       forall c u, ~ In (StreamingComplete c u) frames) /\
    (forall c u, In (StreamingComplete c u) frames ->
       c = full /\ join (chunk_payloads frames) = c).
Proof.
  intros Hreq Hdone w' frames. subst w' frames.
  rewrite (@result_chat env data req w Hreq) in Hdone.
  rewrite (@emitted_chat env data req w Hreq), (@storage_chat env data req w Hreq),
    (@new_calls_chat env data req w Hreq), (@on_message_chat env data req w Hreq),
    run_chat_is_open, chunk_payloads_turn_frames.
  unfold chat_result in Hdone. unfold turn_frames, turn_completion, turn_calls, terminal_frame.
  destruct (js_includes (ChatRequest.model req) "gpt") as [e|isOpenAI]; [discriminate|].
  cbv zeta in *. set (sc := turn_script env req w isOpenAI) in *.
  destruct (script_reply env isOpenAI (ChatRequest.model req) (turn_history env req w))
    as [Hsteps Hending]. fold (turn_script env req w isOpenAI) in Hsteps, Hending.
  fold sc in Hsteps, Hending.
  destruct (ending sc) as [e|] eqn:Hend; [discriminate|].
  exists (call sc). rewrite <- Hsteps, <- Hending.
  split; [reflexivity|]. split; [reflexivity|].
  split; [apply assistant_stored|].
  split; [apply delivered_prefix|].
  split; [|split].
  - intros Hopen. apply Bool.andb_true_iff in Hopen. destruct Hopen as [Hopen Hquiet].
    rewrite Hopen, Hquiet, (delivered_all _ Hquiet). split; [reflexivity|].
    exists (StreamingStart :: map StreamingChunk (fragments (steps sc))).
    cbn [andb app]. reflexivity.
  - intros Hclosed c u Hin. rewrite Hclosed in Hin.
    apply in_app_or in Hin. destruct Hin as [H|H].
    { destruct (WebSocket.is_open (ws w)); simpl in H; [|contradiction].
      destruct H as [H|[]]; discriminate. }
    apply in_app_or in H. destruct H as [H|[]].
    apply in_map_iff in H. destruct H as [x [Hx _]]; discriminate.
  - intros c u Hin.
    apply in_app_or in Hin. destruct Hin as [H|H].
    { destruct (WebSocket.is_open (ws w)); simpl in H; [|contradiction].
      destruct H as [H|[]]; discriminate. }
    apply in_app_or in H. destruct H as [H|H].
    { apply in_map_iff in H. destruct H as [x [Hx _]]; discriminate. }
    destruct (WebSocket.is_open (ws w) && all_quiet (steps sc)) eqn:E; [|contradiction].
    apply Bool.andb_true_iff in E. destruct E as [Hopen Hquiet].
    destruct H as [H|[]]. inversion H; subst.
    rewrite Hopen, (delivered_all _ Hquiet). split; reflexivity.
Qed.

(** C2. The user message of a chat turn is stored before the backend is
    invoked: every call the turn makes to a provider already carries it in the
    history.  When the turn then fails, the store is exactly the store with
    the user message added, and the message is retrievable under its
    conversation.  When the turn succeeds it is retrievable too, as long as
    the assistant message was not given the same uuid. *)
Theorem C2_user_message_persisted_first
    (env : Env) (data : Inbound) (req : ChatRequest.t) (w : World) :
  chat_request data = Some req ->
  let w' := on_message env data w in
  (forall call, In call (new_calls w w') ->
     In (HistoryItem.mk "user" (ChatRequest.content req)) (call_messages call)) /\
  (forall e, snd (handle env data w) = inl e ->
     storage w' = storage_with_user env req w /\
     stored req (storage w') "user" (ChatRequest.content req)) /\
  (userUuid env <> assistantUuid env ->
     stored req (storage w') "user" (ChatRequest.content req)).
Proof.
  intros Hreq w'. subst w'.
  rewrite (@new_calls_chat env data req w Hreq), (@storage_chat env data req w Hreq), (@result_chat env data req w Hreq).
  unfold turn_calls, turn_completion, chat_result.
  destruct (js_includes (ChatRequest.model req) "gpt") as [e0|isOpenAI].
  - repeat split; auto using user_stored. intros call [].
  - cbv zeta. split; [|split].
    + intros call [<-|[]]. apply user_in_call.
    + intros e He. destruct (ending _); [|discriminate].
      split; [reflexivity | apply user_stored].
    + intros Hfresh. destruct (ending _); [apply user_stored | now apply user_survives].
Qed.

(** C3 (as amended). When the [try] block of a chat turn throws, the store is
    the store with the user message added and nothing else: no assistant
    message is created.  No [streaming_complete] is sent.  The [error] frame
    with the failure's message is the last frame sent if the connection is
    still open when the failure is caught, and is not sent otherwise. *)
Theorem C3_failed_turn_no_assistant_message
    (env : Env) (data : Inbound) (req : ChatRequest.t) (w : World) (e : Thrown) :
  chat_request data = Some req ->
  snd (handle env data w) = inl e ->
  let w' := on_message env data w in
  storage w' = storage_with_user env req w /\
  (forall m, In m (map_values (MemStorage.messages (storage w'))) ->
             Message.role m = "assistant" ->
             In m (map_values (MemStorage.messages (storage w)))) /\
  (forall c u, ~ In (StreamingComplete c u) (emitted w w')) /\
  (WebSocket.is_open (ws w') = true ->
     exists before, emitted w w' = (before ++ [ErrorFrame (error_message e)])%list) /\
  (WebSocket.is_open (ws w') = false ->
     forall m, ~ In (ErrorFrame m) (emitted w w')).
Proof.
  intros Hreq He w'. subst w'.
  rewrite (@result_chat env data req w Hreq) in He.
  assert (Hst : storage (on_message env data w) = storage_with_user env req w).
  { rewrite (@storage_chat env data req w Hreq).
    unfold turn_completion. unfold chat_result in He.
    destruct (js_includes (ChatRequest.model req) "gpt"); [reflexivity|].
    cbv zeta in *. destruct (ending _); [reflexivity | discriminate]. }
  split; [exact Hst|]. split.
  { rewrite Hst. apply no_new_assistant. }
  rewrite (@emitted_chat env data req w Hreq), (@on_message_chat env data req w Hreq).
  rewrite run_chat_is_open.
  unfold chat_result in He. unfold turn_frames, terminal_frame.
  destruct (js_includes (ChatRequest.model req) "gpt") as [e0|isOpenAI].
  - inversion He; subst e0. repeat split.
    + intros c u. destruct (WebSocket.is_open (ws w)); simpl; [|tauto].
      intros [H|[]]; discriminate.
    + intros ->. now exists [].
    + intros -> m [].
  - cbv zeta in *. set (sc := turn_script env req w isOpenAI) in *.
    destruct (ending sc) as [e1|]; [|discriminate]. inversion He; subst e. simpl.
    repeat split.
    + intros c u Hin. apply in_app_or in Hin. destruct Hin as [H|H].
      { destruct (WebSocket.is_open (ws w)); simpl in H; [|contradiction].
        destruct H as [H|[]]; discriminate. }
      apply in_app_or in H. destruct H as [H|H].
      { apply in_map_iff in H. destruct H as [x [Hx _]]; discriminate. }
      destruct (WebSocket.is_open (ws w) && all_quiet (steps sc)); [|contradiction].
      destruct H as [H|[]]; discriminate.
    + intros ->. rewrite app_assoc. eauto.
    + intros -> m Hin. rewrite app_nil_r in Hin.
      apply in_app_or in Hin. destruct Hin as [H|H].
      { destruct (WebSocket.is_open (ws w)); simpl in H; [|contradiction].
        destruct H as [H|[]]; discriminate. }
      apply in_map_iff in H. destruct H as [x [Hx _]]; discriminate.
Qed.

(** ** The order of the frames of a turn *)

Lemma chunks_then_terminal_chunks (closed : bool) (l : list string) (tail : list Frame) :
  chunks_then_terminal closed (map StreamingChunk l ++ tail) =
  chunks_then_terminal closed tail.
Proof. induction l as [|x l IH]; simpl; auto. Qed.

Lemma terminal_frame_is_terminal (sc : Script) : is_terminal (terminal_frame sc) = true.
Proof. unfold terminal_frame. now destruct (ending sc). Qed.

Lemma chunks_then_terminal_one (closed : bool) (f : Frame) :
  is_terminal f = true -> chunks_then_terminal closed [f] = true.
Proof. destruct f; simpl; intros H; now try discriminate. Qed.

(** C4 (as amended). The frames a chat turn sends are an initial part of
    [streaming_start], the chunks, one terminal frame, or they are the [error]
    frame alone: a chunk only follows [streaming_start], nothing follows a
    terminal frame, and [streaming_complete] and [error] never both occur.
    The chunks carry the provider's fragments in the order produced, without
    gaps.  If the connection is still open at the end of the turn, the
    sequence is whole: the [error] frame alone when the backend was never
    called, and otherwise [streaming_start], one chunk for every fragment and
    exactly one terminal frame.  Every send is guarded by the connection
    being open: a turn that starts on a closed connection sends nothing; a
    turn whose connection is closed at its end sends no terminal frame; and
    when the transport closes while the provider answers, the frames sent
    are [streaming_start] and the chunks of the fragments produced before
    the suspension in which it closed, and nothing more. *)
Theorem C4_frame_order
    (env : Env) (data : Inbound) (req : ChatRequest.t) (w : World) :
  chat_request data = Some req ->
  let w' := on_message env data w in
  let frames := emitted w w' in
  turn_prefix frames = true /\
  (forall call, In call (new_calls w w') ->
     exists lost,
       fragments (reply_steps env call) = (chunk_payloads frames ++ lost)%list /\
       (WebSocket.is_open (ws w') = true -> lost = [])) /\
  (WebSocket.is_open (ws w') = true ->
     match new_calls w w' with
     | [] => exists m, frames = [ErrorFrame m]
     | _ => complete_turn frames = true
     end) /\
  (WebSocket.is_open (ws w) = false -> frames = []) /\
  (WebSocket.is_open (ws w') = false ->
     forall f, In f frames -> is_terminal f = false) /\
  (forall call (before : list Step) o (after : list Step),
     In call (new_calls w w') ->
     WebSocket.is_open (ws w) = true ->
     reply_steps env call = (before ++ (Hangup, o) :: after)%list ->
     all_quiet before = true ->
     WebSocket.is_open (ws w') = false /\
     frames = StreamingStart :: map StreamingChunk (fragments before)).
Proof.
  intros Hreq w' frames. subst w' frames.
  rewrite (@emitted_chat env data req w Hreq), (@new_calls_chat env data req w Hreq),
    (@on_message_chat env data req w Hreq), run_chat_is_open, chunk_payloads_turn_frames.
  unfold turn_frames, turn_calls.
  destruct (js_includes (ChatRequest.model req) "gpt") as [e0|isOpenAI].
  - split; [now destruct (WebSocket.is_open (ws w))|]. split; [intros call []|].
    split; [intros ->; eauto|]. split; [now intros ->|].
    split; [now intros ->|]. intros call before o after [].
  - cbv zeta. set (sc := turn_script env req w isOpenAI).
    destruct (script_reply env isOpenAI (ChatRequest.model req) (turn_history env req w))
      as [Hsteps Hending]. fold (turn_script env req w isOpenAI) in Hsteps, Hending.
    fold sc in Hsteps, Hending.
    split; [|split; [|split; [|split; [|split]]]].
    + destruct (WebSocket.is_open (ws w)); simpl.
      * rewrite chunks_then_terminal_chunks.
        destruct (all_quiet (steps sc)); [|reflexivity].
        apply chunks_then_terminal_one, terminal_frame_is_terminal.
      * now rewrite delivered_closed.
    + intros call [<-|[]]. rewrite <- Hsteps.
      destruct (delivered_prefix (WebSocket.is_open (ws w)) (steps sc)) as [lost Hlost].
      exists lost. split; [exact Hlost|].
      intros Hopen. apply Bool.andb_true_iff in Hopen. destruct Hopen as [Hopen Hquiet].
      rewrite Hopen, (delivered_all _ Hquiet) in Hlost.
      rewrite <- (app_nil_r (fragments (steps sc))) in Hlost at 1.
      now apply app_inv_head in Hlost.
    + intros Hopen. apply Bool.andb_true_iff in Hopen. destruct Hopen as [Hopen Hquiet].
      rewrite Hopen, Hquiet. simpl. rewrite chunks_then_terminal_chunks.
      apply chunks_then_terminal_one, terminal_frame_is_terminal.
    + intros ->. simpl. now rewrite delivered_closed.
    + intros Hclosed f Hin. rewrite Hclosed in Hin.
      apply in_app_or in Hin. destruct Hin as [H|H].
      { destruct (WebSocket.is_open (ws w)); simpl in H; [|contradiction].
        destruct H as [<-|[]]. reflexivity. }
      apply in_app_or in H. destruct H as [H|[]].
      apply in_map_iff in H. destruct H as [x [<- _]]. reflexivity.
    + intros call before o after [<-|[]] Hopen Hsplit Hquiet.
      rewrite <- Hsteps in Hsplit. rewrite Hopen, Hsplit, hangup_not_quiet.
      rewrite (@delivered_until_hangup before o after Hquiet). split; [reflexivity|].
      cbn [andb app]. now rewrite app_nil_r.
Qed.

(** ** A turn whose transport closes *)

Lemma calm_steps_app (a b : list Step) :
  calm_steps (a ++ b) = (calm_steps a ++ calm_steps b)%list.
Proof. apply map_app. Qed.

Lemma steps_of_calm {C} (fragment : C -> option string) (r : Reply C) :
  steps_of fragment (calm_reply r) = calm_steps (steps_of fragment r).
Proof.
  destruct r as [during e | during items last ending]; simpl; [reflexivity|].
  f_equal. rewrite calm_steps_app. simpl. f_equal.
  unfold steps_of_items, calm_steps. rewrite !map_map. reflexivity.
Qed.

Lemma ending_of_calm {C} (r : Reply C) : ending_of (calm_reply r) = ending_of r.
Proof. now destruct r. Qed.

Lemma fragments_calm (l : list Step) : fragments (calm_steps l) = fragments l.
Proof. induction l as [|[s [x|]] l IH]; simpl; congruence. Qed.

Lemma all_quiet_calm (l : list Step) : all_quiet (calm_steps l) = true.
Proof. induction l as [|[s o] l IH]; simpl; auto. Qed.

Lemma turn_script_calm (env : Env) (req : ChatRequest.t) (w : World) (isOpenAI : bool) :
  let sc := turn_script env req w isOpenAI in
  turn_script (calm env) req w isOpenAI =
  mkScript (error_prefix sc) (call sc) (calm_steps (steps sc)) (ending sc).
Proof.
  unfold turn_script, script. destruct isOpenAI; cbn;
    now rewrite steps_of_calm, ending_of_calm.
Qed.

(** C8. A chat turn whose [model] can be searched calls one provider.  The
    connection is open at the end of the turn exactly if it was open at the
    start and the transport did not close while the provider answered.  When
    it closes during the answer, the frames sent are [streaming_start] and
    the chunks of the fragments produced before it closed: every later send
    is skipped, no terminal frame is sent, and no exception results, for the
    [try] block ends as the provider's answer ends.  The fragments are
    consumed to the end all the same: the accumulated text is the
    concatenation of all of them, and when the answer runs to completion the
    assistant message is stored with that whole text.  Compared with the same
    turn without any hang-up, the frames sent are an initial part, and the
    outcome, the store, the accumulated text and the provider calls are the
    same. *)
Theorem C8_closed_transport_still_persists
    (env : Env) (data : Inbound) (req : ChatRequest.t) (w : World) :
  chat_request data = Some req ->
  let w' := on_message env data w in
  let undisturbed := on_message (calm env) data w in
  (forall isOpenAI, js_includes (ChatRequest.model req) "gpt" = inr isOpenAI ->
     exists call,
       new_calls w w' = [call] /\
       WebSocket.is_open (ws w') =
         WebSocket.is_open (ws w) && all_quiet (reply_steps env call) /\
       (forall (before : list Step) o (after : list Step),
          WebSocket.is_open (ws w) = true ->
          reply_steps env call = (before ++ (Hangup, o) :: after)%list ->
          all_quiet before = true ->
          emitted w w' = StreamingStart :: map StreamingChunk (fragments before)) /\
       aiResponse w' = join (fragments (reply_steps env call)) /\
       (reply_ending env call = None ->
          snd (handle env data w) = inr tt /\
          stored req (storage w') "assistant"
            (JStr (join (fragments (reply_steps env call)))))) /\
  (exists skipped, emitted w undisturbed = (emitted w w' ++ skipped)%list) /\
  (WebSocket.is_open (ws w) = false -> emitted w w' = []) /\
  snd (handle env data w) = snd (handle (calm env) data w) /\
  storage w' = storage undisturbed /\
  aiResponse w' = aiResponse undisturbed /\
  apiCalls w' = apiCalls undisturbed /\
  (forall call, In call (new_calls w w') -> reply_ending env call = None ->
     let text := join (fragments (reply_steps env call)) in
     aiResponse w' = text /\ stored req (storage w') "assistant" (JStr text)).
Proof.
  intros Hreq w' undisturbed. subst w' undisturbed.
  rewrite !(@emitted_chat _ data req w Hreq), !(@result_chat _ data req w Hreq),
    !(@storage_chat _ data req w Hreq), !(@new_calls_chat _ data req w Hreq),
    !(@on_message_chat _ data req w Hreq), !run_chat_aiResponse, !run_chat_apiCalls,
    run_chat_is_open.
  unfold turn_frames, chat_result, turn_completion, turn_calls, terminal_frame.
  destruct (js_includes (ChatRequest.model req) "gpt") as [e0|isOpenAI].
  - split; [intros isOpenAI H; discriminate|].
    split; [exists []; now rewrite app_nil_r|].
    split; [now intros ->|].
    repeat (split; [reflexivity|]).
    intros call [].
  - cbv zeta. rewrite turn_script_calm. cbn [error_prefix call steps ending].
    set (sc := turn_script env req w isOpenAI).
    rewrite fragments_calm, all_quiet_calm.
    destruct (script_reply env isOpenAI (ChatRequest.model req) (turn_history env req w))
      as [Hsteps Hending]. fold (turn_script env req w isOpenAI) in Hsteps, Hending.
    fold sc in Hsteps, Hending.
    split.
    { intros isOpenAI' _. exists (call sc). rewrite <- Hsteps, <- Hending.
      split; [reflexivity|]. split; [reflexivity|]. split; [|split; [reflexivity|]].
      - intros before o after Hopen Hsplit Hquiet.
        rewrite Hopen, Hsplit, hangup_not_quiet, (@delivered_until_hangup before o after Hquiet).
        cbn [andb app]. now rewrite app_nil_r.
      - intros Hend. rewrite Hend. split; [reflexivity | apply assistant_stored]. }
    split.
    { destruct (WebSocket.is_open (ws w)); simpl.
      - destruct (all_quiet (steps sc)) eqn:Hq.
        + exists []. rewrite (delivered_all _ Hq), (delivered_all _ (all_quiet_calm _)),
            fragments_calm, app_nil_r. reflexivity.
        + destruct (delivered_prefix true (steps sc)) as [lost Hlost].
          rewrite (delivered_all _ (all_quiet_calm _)), fragments_calm, Hlost.
          rewrite map_app, app_nil_r, <- app_assoc. eauto.
      - rewrite !delivered_closed. now exists []. }
    split.
    { intros ->. simpl. now rewrite delivered_closed. }
    repeat (split; [reflexivity|]).
    intros call0 [<-|[]] Hend.
    rewrite <- Hending in Hend.
    cbv zeta. rewrite Hend, <- Hsteps.
    split; [reflexivity | apply assistant_stored].
Qed.

(** ** Frames that are not chat requests *)

(** A frame that does not parse is answered with the parse failure's message,
    if the connection is open, and changes nothing else. *)
Lemma unparseable_frame (env : Env) (message : string) (w : World) :
  on_message env (Unparseable message) w = send_if_open (ErrorFrame message) w.
Proof. reflexivity. Qed.

(** C10 (as amended). A frame that parses to a value other than [null] and
    whose [type] is not ["chat"] is ignored: the handler leaves the world as
    it was, so it sends nothing and stores nothing.  The frame [null] does not
    touch the store or the providers either. *)
Theorem C10_non_chat_frame_ignored (env : Env) (message : JsValue) (w : World) :
  chat_request (Parsed message) = None ->
  storage (on_message env (Parsed message) w) = storage w /\
  apiCalls (on_message env (Parsed message) w) = apiCalls w /\
  (message <> JNull -> message <> JUndefined ->
   on_message env (Parsed message) w = w).
Proof.
  intros H. rewrite (on_message_other env _ w H).
  destruct message; simpl;
    rewrite ?send_if_open_storage, ?send_if_open_apiCalls; repeat split; congruence.
Qed.

(** ** The scenarios of the specification, run on the code *)

(** The spec's first scenario on the code: the frames are those expected,
    except that [streaming_complete] carries no [tokenUsage]; the transcript
    is the user message and the assistant message, in that order, the latter
    without token usage. *)
Theorem C6_scenario_token_usage_dropped :
  emitted Scenario.world
    (on_message (Scenario.env Scenario.hello) Scenario.hi Scenario.world) =
  [StreamingStart; StreamingChunk "Hel"; StreamingChunk "lo!";
   StreamingComplete "Hello!" None] /\
  Scenario.transcript
    (on_message (Scenario.env Scenario.hello) Scenario.hi Scenario.world) "C1" =
  [("user", JStr "Hi", None); ("assistant", JStr "Hello!", None)].
Proof. split; vm_compute; reflexivity. Qed.

(** No turn reports a token usage: the streaming services return
    [{ content: fullContent }] only. *)
Lemma streaming_complete_without_usage
    (env : Env) (data : Inbound) (req : ChatRequest.t) (w : World)
    (c : string) (u : option Z) :
  chat_request data = Some req ->
  In (StreamingComplete c u) (emitted w (on_message env data w)) ->
  u = None.
Proof.
  intros Hreq. rewrite (@emitted_chat env data req w Hreq).
  unfold turn_frames, terminal_frame.
  destruct (js_includes (ChatRequest.model req) "gpt") as [e|isOpenAI].
  - destruct (WebSocket.is_open (ws w)); simpl; [|tauto]. intros [H|[]]; discriminate.
  - cbv zeta. intros Hin. apply in_app_or in Hin. destruct Hin as [H|H].
    { destruct (WebSocket.is_open (ws w)); simpl in H; [|contradiction].
      destruct H as [H|[]]; discriminate. }
    apply in_app_or in H. destruct H as [H|H].
    { apply in_map_iff in H. destruct H as [x [Hx _]]; discriminate. }
    destruct (_ && _); [|contradiction].
    destruct H as [H|[]]. destruct (ending _); [discriminate|]. now inversion H.
Qed.

(** Whether a turn succeeds is decided by the frame's [model] and by the
    provider alone: the store never makes it fail. *)
Lemma turn_succeeds_whatever_the_store
    (env : Env) (data : Inbound) (req : ChatRequest.t) (w : World) (isOpenAI : bool) :
  chat_request data = Some req ->
  js_includes (ChatRequest.model req) "gpt" = inr isOpenAI ->
  ending (turn_script env req w isOpenAI) = None ->
  snd (handle env data w) = inr tt.
Proof.
  intros Hreq Hmodel Hend. rewrite (@result_chat env data req w Hreq).
  unfold chat_result. rewrite Hmodel. cbv zeta. now rewrite Hend.
Qed.

(** A chat request for a conversation that does not exist runs as a
    successful turn: the [try] block returns, [streaming_complete] is sent, and
    both messages are stored under the id of the missing conversation. *)
Theorem C5_missing_conversation_turn_succeeds :
  MemStorage.getConversation (storage Scenario.world) "ghost" = None /\
  snd (handle (Scenario.env Scenario.hello) Scenario.hi_ghost Scenario.world) = inr tt /\
  emitted Scenario.world
    (on_message (Scenario.env Scenario.hello) Scenario.hi_ghost Scenario.world) =
  [StreamingStart; StreamingChunk "Hel"; StreamingChunk "lo!";
   StreamingComplete "Hello!" None] /\
  Scenario.transcript
    (on_message (Scenario.env Scenario.hello) Scenario.hi_ghost Scenario.world) "ghost" =
  [("user", JStr "Hi", None); ("assistant", JStr "Hello!", None)] /\
  MemStorage.getConversation
    (storage (on_message (Scenario.env Scenario.hello) Scenario.hi_ghost Scenario.world))
    "ghost" = None.
Proof. repeat split; vm_compute; reflexivity. Qed.

(** A chat request without [model] stores the user message and only then
    fails; one without [content] is not rejected at all and stores a user
    message whose content is [undefined]. *)
Theorem C7_missing_field_mutates_store :
  Scenario.transcript Scenario.world "C1" = [] /\
  emitted Scenario.world
    (on_message (Scenario.env Scenario.hello) Scenario.hi_no_model Scenario.world) =
  [ErrorFrame "Cannot read properties of undefined (reading 'includes')"] /\
  Scenario.transcript
    (on_message (Scenario.env Scenario.hello) Scenario.hi_no_model Scenario.world) "C1" =
  [("user", JStr "Hi", None)] /\
  emitted Scenario.world
    (on_message (Scenario.env Scenario.hello) Scenario.no_content Scenario.world) =
  [StreamingStart; StreamingChunk "Hel"; StreamingChunk "lo!";
   StreamingComplete "Hello!" None] /\
  Scenario.transcript
    (on_message (Scenario.env Scenario.hello) Scenario.no_content Scenario.world) "C1" =
  [("user", JUndefined, None); ("assistant", JStr "Hello!", None)].
Proof. repeat split; vm_compute; reflexivity. Qed.

(** The spec's second scenario: the backend rejects with "rate limited". *)
Example scenario_rate_limited :
  emitted Scenario.world
    (on_message (Scenario.env Scenario.rate_limited) Scenario.hi Scenario.world) =
  [StreamingStart; ErrorFrame "OpenAI API error: rate limited"] /\
  Scenario.transcript
    (on_message (Scenario.env Scenario.rate_limited) Scenario.hi Scenario.world) "C1" =
  [("user", JStr "Hi", None)].
Proof. split; vm_compute; reflexivity. Qed.

(** ** Where the claims as stated fail *)

(** C1 as stated fails: the transport closes before the second fragment; the
    turn succeeds, the chunks sent concatenate to ["Hel"], no
    [streaming_complete] is sent, and the assistant message stored is
    ["Hello!"]. *)
Lemma C1_counterexample :
  chat_request Scenario.hi = Some Scenario.hi_request /\
  snd (handle (Scenario.env Scenario.hello_hangup) Scenario.hi Scenario.world) = inr tt /\
  emitted Scenario.world
    (on_message (Scenario.env Scenario.hello_hangup) Scenario.hi Scenario.world) =
  [StreamingStart; StreamingChunk "Hel"] /\
  join (chunk_payloads
          (emitted Scenario.world
             (on_message (Scenario.env Scenario.hello_hangup) Scenario.hi Scenario.world))) =
  "Hel" /\
  Scenario.transcript
    (on_message (Scenario.env Scenario.hello_hangup) Scenario.hi Scenario.world) "C1" =
  [("user", JStr "Hi", None); ("assistant", JStr "Hello!", None)].
Proof. repeat split; vm_compute; reflexivity. Qed.

(** C3 as stated fails: the transport closes while the provider is awaited,
    the provider rejects, and no [error] frame is sent. *)
Lemma C3_counterexample :
  chat_request Scenario.hi = Some Scenario.hi_request /\
  snd (handle (Scenario.env Scenario.rate_limited_hangup) Scenario.hi Scenario.world) =
    inl (ErrorObject "OpenAI API error: rate limited") /\
  emitted Scenario.world
    (on_message (Scenario.env Scenario.rate_limited_hangup) Scenario.hi Scenario.world) =
  [StreamingStart] /\
  ~ (exists m,
       In (ErrorFrame m)
          (emitted Scenario.world
             (on_message (Scenario.env Scenario.rate_limited_hangup)
                Scenario.hi Scenario.world))).
Proof.
  assert (E : emitted Scenario.world
                (on_message (Scenario.env Scenario.rate_limited_hangup)
                   Scenario.hi Scenario.world) = [StreamingStart])
    by (vm_compute; reflexivity).
  repeat split; try (vm_compute; reflexivity).
  rewrite E. intros [m [H|[]]]. discriminate.
Qed.

(** C4 as stated fails: the transport closes before the second fragment, and
    the turn's frames end without a terminal frame. *)
Lemma C4_counterexample :
  chat_request Scenario.hi = Some Scenario.hi_request /\
  emitted Scenario.world
    (on_message (Scenario.env Scenario.hello_hangup) Scenario.hi Scenario.world) =
  [StreamingStart; StreamingChunk "Hel"] /\
  complete_turn
    (emitted Scenario.world
       (on_message (Scenario.env Scenario.hello_hangup) Scenario.hi Scenario.world)) =
  false.
Proof. repeat split; vm_compute; reflexivity. Qed.

(** C10 as stated fails: the frame [null] parses, is not a chat request, and
    is answered with an [error] frame. *)
Lemma C10_counterexample :
  chat_request (Parsed JNull) = None /\
  emitted Scenario.world
    (on_message (Scenario.env Scenario.hello) (Parsed JNull) Scenario.world) =
  [ErrorFrame "Cannot read properties of null (reading 'type')"].
Proof. split; vm_compute; reflexivity. Qed.

(** ** The theorems at concrete turns *)

Lemma C1_witness :
  chat_request Scenario.hi = Some Scenario.hi_request /\
  snd (handle (Scenario.env Scenario.hello) Scenario.hi Scenario.world) = inr tt /\
  exists call,
    new_calls Scenario.world
      (on_message (Scenario.env Scenario.hello) Scenario.hi Scenario.world) = [call] /\
    stored Scenario.hi_request
      (storage (on_message (Scenario.env Scenario.hello) Scenario.hi Scenario.world))
      "assistant" (JStr (join (fragments (reply_steps (Scenario.env Scenario.hello) call)))) /\
    join (chunk_payloads
            (emitted Scenario.world
               (on_message (Scenario.env Scenario.hello) Scenario.hi Scenario.world))) =
    join (fragments (reply_steps (Scenario.env Scenario.hello) call)) /\
    In (StreamingComplete (join (fragments (reply_steps (Scenario.env Scenario.hello) call)))
          None)
       (emitted Scenario.world
          (on_message (Scenario.env Scenario.hello) Scenario.hi Scenario.world)).
Proof.
  split; [reflexivity|]. split; [reflexivity|].
  pose proof (@C1_chunks_equal_complete_and_stored (Scenario.env Scenario.hello) Scenario.hi
                Scenario.hi_request Scenario.world eq_refl eq_refl) as H.
  cbv zeta in H. destruct H as [call [Hcall [_ [Hstored [_ [Hopen _]]]]]].
  destruct (Hopen eq_refl) as [Hjoin [before Hlast]].
  exists call. split; [exact Hcall|]. split; [exact Hstored|]. split; [exact Hjoin|].
  rewrite Hlast. apply in_or_app. right. left. reflexivity.
Defined.

Lemma C2_witness :
  chat_request Scenario.hi = Some Scenario.hi_request /\
  snd (handle (Scenario.env Scenario.rate_limited) Scenario.hi Scenario.world) =
    inl (ErrorObject "OpenAI API error: rate limited") /\
  stored Scenario.hi_request
    (storage (on_message (Scenario.env Scenario.rate_limited) Scenario.hi Scenario.world))
    "user" (JStr "Hi") /\
  stored Scenario.hi_request
    (storage (on_message (Scenario.env Scenario.hello) Scenario.hi Scenario.world))
    "user" (JStr "Hi").
Proof.
  split; [reflexivity|]. split; [reflexivity|]. split.
  - exact (proj2 (proj1 (proj2
        (@C2_user_message_persisted_first (Scenario.env Scenario.rate_limited) Scenario.hi
           Scenario.hi_request Scenario.world eq_refl))
        (ErrorObject "OpenAI API error: rate limited") eq_refl)).
  - apply (proj2 (proj2
        (@C2_user_message_persisted_first (Scenario.env Scenario.hello) Scenario.hi
           Scenario.hi_request Scenario.world eq_refl))).
    simpl. discriminate.
Defined.

Lemma C3_witness :
  chat_request Scenario.hi = Some Scenario.hi_request /\
  snd (handle (Scenario.env Scenario.rate_limited) Scenario.hi Scenario.world) =
    inl (ErrorObject "OpenAI API error: rate limited") /\
  storage (on_message (Scenario.env Scenario.rate_limited) Scenario.hi Scenario.world) =
    storage_with_user (Scenario.env Scenario.rate_limited) Scenario.hi_request Scenario.world /\
  forall c u,
    ~ In (StreamingComplete c u)
        (emitted Scenario.world
           (on_message (Scenario.env Scenario.rate_limited) Scenario.hi Scenario.world)).
Proof.
  split; [reflexivity|]. split; [reflexivity|].
  pose proof (@C3_failed_turn_no_assistant_message (Scenario.env Scenario.rate_limited)
                Scenario.hi Scenario.hi_request Scenario.world
                (ErrorObject "OpenAI API error: rate limited") eq_refl eq_refl) as H.
  split; [exact (proj1 H) | exact (proj1 (proj2 (proj2 H)))].
Defined.

Lemma C4_witness :
  chat_request Scenario.hi = Some Scenario.hi_request /\
  turn_prefix
    (emitted Scenario.world
       (on_message (Scenario.env Scenario.hello_hangup) Scenario.hi Scenario.world)) = true /\
  emitted Scenario.world
    (on_message (Scenario.env Scenario.hello_hangup) Scenario.hi Scenario.world) =
    [StreamingStart; StreamingChunk "Hel"].
Proof.
  split; [reflexivity|].
  pose proof (@C4_frame_order (Scenario.env Scenario.hello_hangup) Scenario.hi
                Scenario.hi_request Scenario.world eq_refl) as H.
  cbv zeta in H. destruct H as [Hprefix [_ [_ [_ [_ Hstop]]]]].
  split; [exact Hprefix|].
  exact (proj2 (Hstop (OpenAICreate (JStr "gpt-5") [HistoryItem.mk "user" (JStr "Hi")])
                  [(Quiet, None); (Quiet, Some "Hel")] (Some "lo!")
                  [(Quiet, None); (Quiet, None)]
                  (or_introl eq_refl) eq_refl eq_refl eq_refl)).
Defined.

Lemma C8_witness :
  chat_request Scenario.hi = Some Scenario.hi_request /\
  WebSocket.is_open
    (ws (on_message (Scenario.env Scenario.hello_hangup) Scenario.hi Scenario.world)) =
    false /\
  emitted Scenario.world
    (on_message (Scenario.env Scenario.hello_hangup) Scenario.hi Scenario.world) =
    [StreamingStart; StreamingChunk "Hel"] /\
  aiResponse (on_message (Scenario.env Scenario.hello_hangup) Scenario.hi Scenario.world) =
    "Hello!" /\
  stored Scenario.hi_request
    (storage (on_message (Scenario.env Scenario.hello_hangup) Scenario.hi Scenario.world))
    "assistant" (JStr "Hello!").
Proof.
  split; [reflexivity|].
  pose proof (@C8_closed_transport_still_persists (Scenario.env Scenario.hello_hangup)
                Scenario.hi Scenario.hi_request Scenario.world eq_refl) as H.
  cbv zeta in H. destruct H as [H _].
  destruct (H true eq_refl) as [call [Hcall [Hopen [Hframes [Htext Hend]]]]].
  assert (Hthe : call = OpenAICreate (JStr "gpt-5") [HistoryItem.mk "user" (JStr "Hi")]).
  { vm_compute in Hcall. inversion Hcall. reflexivity. }
  subst call.
  split; [rewrite Hopen; reflexivity|].
  split.
  { exact (Hframes [(Quiet, None); (Quiet, Some "Hel")] (Some "lo!")
             [(Quiet, None); (Quiet, None)] eq_refl eq_refl eq_refl). }
  split; [exact Htext|].
  exact (proj2 (Hend eq_refl)).
Defined.

Lemma C9_witness :
  store_ok Scenario.busy_store /\
  Scenario.transcript (mkWorld Scenario.busy_store (WebSocket.mk OPEN []) "" []) "C1" =
    [("user", JStr "Hi", None); ("assistant", JStr "Hello!", Some 5)] /\
  MemStorage.getMessagesByConversation
    (snd (MemStorage.deleteConversation "C1" Scenario.busy_store)) (JStr "C1") = [].
Proof.
  assert (Hok : store_ok Scenario.busy_store).
  { unfold Scenario.busy_store, Scenario.store.
    apply store_ok_createUploadedFile.
    do 3 apply store_ok_createMessage.
    do 2 apply store_ok_createConversation.
    exact store_ok_empty. }
  split; [exact Hok|]. split; [vm_compute; reflexivity|].
  exact (proj1 (@C9_delete_conversation_cascades Scenario.busy_store "C1" Hok)).
Defined.

Lemma C10_witness :
  chat_request (Parsed (JObj 0 [("type", JStr "ping")])) = None /\
  on_message (Scenario.env Scenario.hello) (Parsed (JObj 0 [("type", JStr "ping")]))
    Scenario.world = Scenario.world.
Proof.
  split; [reflexivity|].
  apply (proj2 (proj2 (@C10_non_chat_frame_ignored (Scenario.env Scenario.hello)
                         (JObj 0 [("type", JStr "ping")]) Scenario.world eq_refl)));
    discriminate.
Defined.

(** * Further properties *)

(** ** Sorting *)

Section SortOrder.
Variables (A : Type) (key : A -> Z) (desc : bool).

Lemma in_order_total (x y : A) :
  not_after key desc x y = false -> in_order key desc y x.
Proof. unfold in_order, not_after. destruct desc; rewrite !Z.leb_gt, ?Z.leb_le; lia. Qed.

Lemma in_order_trans (x y z : A) :
  in_order key desc x y -> in_order key desc y z -> in_order key desc x z.
Proof. unfold in_order, not_after. destruct desc; rewrite !Z.leb_le; lia. Qed.

Lemma insert_sorted_sorted (x : A) (l : list A) :
  StronglySorted (in_order key desc) l ->
  StronglySorted (in_order key desc) (insert_sorted key desc x l).
Proof.
  induction 1 as [|y l Hl IH Hy]; simpl.
  - repeat constructor.
  - destruct (not_after key desc x y) eqn:E.
    + constructor; [now constructor|]. constructor; [exact E|].
      eapply Forall_impl; [|exact Hy]. intros z Hz. now apply in_order_trans with y.
    + constructor; [exact IH|]. apply Forall_forall. intros z Hz.
      apply insert_sorted_In in Hz. destruct Hz as [->|Hz].
      * now apply in_order_total.
      * rewrite Forall_forall in Hy. now apply Hy.
Qed.

Lemma js_sort_sorted (l : list A) : StronglySorted (in_order key desc) (js_sort key desc l).
Proof.
  induction l as [|x l IH]; simpl; [constructor | now apply insert_sorted_sorted].
Qed.

Lemma insert_sorted_perm (x : A) (l : list A) :
  Permutation (insert_sorted key desc x l) (x :: l).
Proof.
  induction l as [|y l IH]; simpl; [reflexivity|].
  destruct (not_after key desc x y); [reflexivity|].
  rewrite IH. apply perm_swap.
Qed.

Lemma js_sort_perm (l : list A) : Permutation (js_sort key desc l) l.
Proof.
  induction l as [|x l IH]; simpl; [reflexivity|].
  rewrite insert_sorted_perm. now constructor.
Qed.

(** the sort is stable: values with the same key keep their order *)
Lemma insert_sorted_same_key (t : Z) (x : A) (l : list A) :
  filter (fun y => Z.eqb (key y) t) (insert_sorted key desc x l) =
  filter (fun y => Z.eqb (key y) t) (x :: l).
Proof.
  induction l as [|y l IH]; [reflexivity|].
  cbn [insert_sorted]. destruct (not_after key desc x y) eqn:E; [reflexivity|].
  cbn [filter] in *. rewrite IH.
  destruct (Z.eqb_spec (key x) t) as [Hx|Hx], (Z.eqb_spec (key y) t) as [Hy|Hy];
    try reflexivity.
  exfalso. unfold not_after in E. destruct desc; apply Z.leb_gt in E; lia.
Qed.

Lemma js_sort_stable (t : Z) (l : list A) :
  filter (fun y => Z.eqb (key y) t) (js_sort key desc l) =
  filter (fun y => Z.eqb (key y) t) l.
Proof.
  induction l as [|x l IH]; [reflexivity|].
  cbn [js_sort fold_right]. rewrite insert_sorted_same_key.
  cbn [filter]. fold (js_sort key desc l). now rewrite IH.
Qed.

(** a value that belongs after all the others is appended *)
Lemma insert_sorted_before_last (y x : A) (l : list A) :
  in_order key desc y x ->
  insert_sorted key desc y (l ++ [x]) = (insert_sorted key desc y l ++ [x])%list.
Proof.
  intros Hyx. induction l as [|z l IH]; simpl.
  - now rewrite Hyx.
  - destruct (not_after key desc y z); [reflexivity | now rewrite IH].
Qed.

Lemma js_sort_append (x : A) (l : list A) :
  (forall y, In y l -> in_order key desc y x) ->
  js_sort key desc (l ++ [x]) = (js_sort key desc l ++ [x])%list.
Proof.
  induction l as [|y l IH]; intros H; [reflexivity|].
  simpl. fold (js_sort key desc (l ++ [x])). rewrite IH by (intros; apply H; now right).
  fold (js_sort key desc l).
  apply insert_sorted_before_last, H. now left.
Qed.
End SortOrder.

(** ** Maps *)

Section MapLaws.
Variable V : Type.
Implicit Types (m : JsMap V) (k : string) (v : V).

Lemma map_get_set_same k v m : map_get k (map_set k v m) = Some v.
Proof.
  induction m as [|[k' v'] m IH]; simpl.
  - now rewrite String.eqb_refl.
  - destruct (String.eqb k' k) eqn:E; simpl; [now rewrite String.eqb_refl | now rewrite E].
Qed.

Lemma map_get_set_other k k0 v m :
  k0 <> k -> map_get k0 (map_set k v m) = map_get k0 m.
Proof.
  intros Hne. induction m as [|[k' v'] m IH]; simpl.
  - destruct (String.eqb_spec k k0); congruence.
  - destruct (String.eqb_spec k' k) as [->|Hk]; simpl.
    + destruct (String.eqb_spec k k0); congruence.
    + now rewrite IH.
Qed.

Lemma map_get_delete_other k k0 m :
  k0 <> k -> map_get k0 (snd (map_delete k m)) = map_get k0 m.
Proof.
  intros Hne. unfold map_delete; simpl.
  induction m as [|[k' v'] m IH]; simpl; [reflexivity|].
  destruct (String.eqb_spec k' k) as [->|Hk]; simpl.
  - destruct (String.eqb_spec k k0); congruence.
  - now rewrite IH.
Qed.

Lemma map_get_Some_In k v m : map_get k m = Some v -> In (k, v) m.
Proof.
  induction m as [|[k' v'] m IH]; simpl; [discriminate|].
  destruct (String.eqb_spec k' k) as [->|Hk].
  - intros H. inversion H. now left.
  - intros H. right. now apply IH.
Qed.

Lemma map_get_None_keys k m : map_get k m = None <-> ~ In k (map fst m).
Proof.
  induction m as [|[k' v'] m IH]; simpl; [tauto|].
  destruct (String.eqb_spec k' k) as [->|Hk]; [|rewrite IH]; intuition congruence.
Qed.

Lemma map_get_In k v m : unique_keys m -> In (k, v) m -> map_get k m = Some v.
Proof.
  unfold unique_keys. induction m as [|[k' v'] m IH]; simpl; [tauto|].
  intros Hnd [H|H].
  - inversion H; subst. now rewrite String.eqb_refl.
  - inversion Hnd as [|? ? Hnot Hrest]; subst.
    destruct (String.eqb_spec k' k) as [->|Hk]; [|now apply IH].
    exfalso. apply Hnot. change k with (fst (k, v)). now apply in_map.
Qed.

Lemma unique_keys_functional k v v' m :
  unique_keys m -> In (k, v) m -> In (k, v') m -> v = v'.
Proof.
  intros Hu H1 H2. apply (map_get_In _ _ Hu) in H1. apply (map_get_In _ _ Hu) in H2.
  congruence.
Qed.

Lemma map_set_fresh k v m : map_get k m = None -> map_set k v m = (m ++ [(k, v)])%list.
Proof.
  induction m as [|[k' v'] m IH]; simpl; [reflexivity|].
  destruct (String.eqb k' k); [discriminate|]. intros H. now rewrite IH.
Qed.

Lemma map_set_keys k v m :
  map fst (map_set k v m) =
  if map_has k m then map fst m else (map fst m ++ [k])%list.
Proof.
  unfold map_has. induction m as [|[k' v'] m IH]; simpl; [reflexivity|].
  destruct (String.eqb_spec k' k) as [->|Hk]; simpl; [reflexivity|].
  rewrite IH. now destruct (map_get k m).
Qed.

Lemma unique_keys_set k v m : unique_keys m -> unique_keys (map_set k v m).
Proof.
  unfold unique_keys. rewrite map_set_keys. unfold map_has.
  destruct (map_get k m) eqn:E; [trivial|].
  intros Hnd. apply NoDup_app; [assumption | repeat constructor; simpl; tauto |].
  intros x Hx [<-|[]]. now apply map_get_None_keys in E.
Qed.

Lemma unique_keys_filter (f : string * V -> bool) m :
  unique_keys m -> unique_keys (filter f m).
Proof.
  unfold unique_keys. induction m as [|e m IH]; simpl; [trivial|].
  intros Hnd. inversion Hnd as [|? ? Hnot Hrest]; subst.
  destruct (f e); simpl; [|now apply IH].
  constructor; [|now apply IH].
  intros Hin. apply Hnot. apply in_map_iff in Hin. destruct Hin as [e' [He' Hin]].
  apply filter_In in Hin. apply in_map_iff. exists e'. tauto.
Qed.

Lemma unique_keys_delete k m : unique_keys m -> unique_keys (snd (map_delete k m)).
Proof. apply unique_keys_filter. Qed.

(** the loops of [deleteConversation] as one filter *)
Lemma delete_each_filter (ids : list string) m :
  MemStorage.delete_each ids m =
  filter (fun kv => negb (existsb (String.eqb (fst kv)) ids)) m.
Proof.
  revert m. induction ids as [|i ids IH]; intros m.
  - simpl. induction m as [|e m IHm]; simpl; congruence.
  - change (MemStorage.delete_each (i :: ids) m)
      with (MemStorage.delete_each ids (snd (map_delete i m))).
    rewrite IH. unfold map_delete; simpl.
    induction m as [|e m IHm]; simpl; [reflexivity|].
    destruct (String.eqb_spec (fst e) i) as [Hi|Hi]; simpl.
    + exact IHm.
    + now rewrite IHm.
Qed.

Lemma unique_keys_delete_each ids m :
  unique_keys m -> unique_keys (MemStorage.delete_each ids m).
Proof. rewrite delete_each_filter. apply unique_keys_filter. Qed.

Lemma map_has_true k m : map_has k m = true <-> map_get k m <> None.
Proof. unfold map_has. destruct (map_get k m); split; congruence. Qed.
End MapLaws.

(** values kept by a filter on the entries that spares them *)
Lemma filter_values_spared {V} (p : V -> bool) (q : string * V -> bool) (m : JsMap V) :
  (forall e, In e m -> p (snd e) = true -> q e = true) ->
  filter p (map_values (filter q m)) = filter p (map_values m).
Proof.
  unfold map_values. induction m as [|e m IH]; intros H; simpl; [reflexivity|].
  assert (IH' : filter p (map snd (filter q m)) = filter p (map snd m))
    by (apply IH; intros; apply H; auto; now right).
  destruct (q e) eqn:Eq; simpl; rewrite IH'; [reflexivity|].
  destruct (p (snd e)) eqn:Ep; [|reflexivity].
  rewrite (H e (or_introl eq_refl) Ep) in Eq. discriminate.
Qed.

Lemma no_member_nil {A} (l : list A) : (forall x, ~ In x l) -> l = [].
Proof. destruct l as [|a l]; [reflexivity|]. intros H. destruct (H a). now left. Qed.

(** ** The store keeps its keys unique *)

Lemma store_wf_empty : store_wf MemStorage.empty.
Proof. split; [apply store_ok_empty | constructor | constructor | constructor]. Qed.

Lemma store_wf_createConversation uuid now ins s :
  store_wf s -> store_wf (snd (MemStorage.createConversation uuid now ins s)).
Proof.
  intros [Hok Hc Hm Hf]. split; [now apply store_ok_createConversation | | assumption..].
  simpl. now apply unique_keys_set.
Qed.

Lemma createMessage_conversations_keys uuid now touch ins s :
  unique_keys (MemStorage.conversations s) ->
  unique_keys (MemStorage.conversations (snd (MemStorage.createMessage uuid now touch ins s))).
Proof.
  intros Hc. unfold MemStorage.createMessage; simpl.
  destruct (InsertMessage.conversationId ins); try assumption.
  unfold MemStorage.updateConversation; simpl.
  destruct (map_get s0 (MemStorage.conversations s)); simpl; [|assumption].
  now apply unique_keys_set.
Qed.

Lemma store_wf_createMessage uuid now touch ins s :
  store_wf s -> store_wf (snd (MemStorage.createMessage uuid now touch ins s)).
Proof.
  intros [Hok Hc Hm Hf]. split.
  - now apply store_ok_createMessage.
  - now apply createMessage_conversations_keys.
  - rewrite createMessage_messages. now apply unique_keys_set.
  - now rewrite createMessage_uploadedFiles.
Qed.

Lemma store_wf_createUploadedFile uuid now ins s :
  store_wf s -> store_wf (snd (MemStorage.createUploadedFile uuid now ins s)).
Proof.
  intros [Hok Hc Hm Hf].
  split; [now apply store_ok_createUploadedFile | assumption | assumption |].
  simpl. now apply unique_keys_set.
Qed.

Lemma store_wf_deleteConversation id s :
  store_wf s -> store_wf (snd (MemStorage.deleteConversation id s)).
Proof.
  intros [Hok Hc Hm Hf]. split.
  - now apply store_ok_deleteConversation.
  - simpl. now apply unique_keys_delete.
  - simpl. now apply unique_keys_delete_each.
  - simpl. now apply unique_keys_delete_each.
Qed.

Lemma store_wf_deleteMessage id s :
  store_wf s -> store_wf (snd (MemStorage.deleteMessage id s)).
Proof.
  intros [Hok Hc Hm Hf]. split; [now apply store_ok_deleteMessage | assumption | | assumption].
  simpl. now apply unique_keys_delete.
Qed.

Lemma store_wf_busy : store_wf Scenario.busy_store.
Proof.
  unfold Scenario.busy_store, Scenario.store.
  apply store_wf_createUploadedFile.
  do 3 apply store_wf_createMessage.
  do 2 apply store_wf_createConversation.
  exact store_wf_empty.
Qed.

(** ** Listing messages and conversations *)

Lemma StronglySorted_weaken {A} (R R' : A -> A -> Prop) (l : list A) :
  (forall x y, R x y -> R' x y) -> StronglySorted R l -> StronglySorted R' l.
Proof.
  intros H. induction 1 as [|x l Hl IH Hx]; constructor; [assumption|].
  eapply Forall_impl; [|exact Hx]. auto.
Qed.

(** X1. [getMessagesByConversation] returns exactly the stored messages of the
    conversation, each as often as it is stored, in non-decreasing order of
    creation time. *)
Theorem X1_messages_in_creation_order (s : MemStorage.t) (c : JsValue) :
  StronglySorted (fun a b => Message.createdAt a <= Message.createdAt b)
    (MemStorage.getMessagesByConversation s c) /\
  Permutation (MemStorage.getMessagesByConversation s c)
    (filter (fun m => strict_eq (Message.conversationId m) c)
       (map_values (MemStorage.messages s))).
Proof.
  unfold MemStorage.getMessagesByConversation. split; [|apply js_sort_perm].
  eapply StronglySorted_weaken; [|apply js_sort_sorted].
  unfold in_order, not_after. intros x y H. now apply Z.leb_le.
Qed.

(** X2. Messages of a conversation that were created at the same instant are
    listed in the order in which they were stored. *)
Theorem X2_same_instant_in_insertion_order (s : MemStorage.t) (c : JsValue) (t : Z) :
  filter (fun m => Z.eqb (Message.createdAt m) t)
    (MemStorage.getMessagesByConversation s c) =
  filter (fun m => Z.eqb (Message.createdAt m) t)
    (filter (fun m => strict_eq (Message.conversationId m) c)
       (map_values (MemStorage.messages s))).
Proof. unfold MemStorage.getMessagesByConversation. apply js_sort_stable. Qed.

(** X3. [getConversations] returns every stored conversation once per entry,
    the most recently updated first. *)
Theorem X3_conversations_most_recent_first (s : MemStorage.t) :
  StronglySorted (fun a b => Conversation.updatedAt b <= Conversation.updatedAt a)
    (MemStorage.getConversations s) /\
  Permutation (MemStorage.getConversations s) (map_values (MemStorage.conversations s)).
Proof.
  unfold MemStorage.getConversations. split; [|apply js_sort_perm].
  eapply StronglySorted_weaken; [|apply js_sort_sorted].
  unfold in_order, not_after. intros x y H. now apply Z.leb_le.
Qed.

(** ** Creating and deleting messages *)

Lemma createMessage_conversations uuid now touch ins s :
  MemStorage.conversations (snd (MemStorage.createMessage uuid now touch ins s)) =
  match InsertMessage.conversationId ins with
  | JStr cid =>
      match map_get cid (MemStorage.conversations s) with
      | Some c => map_set cid (touched c touch) (MemStorage.conversations s)
      | None => MemStorage.conversations s
      end
  | _ => MemStorage.conversations s
  end.
Proof.
  unfold MemStorage.createMessage; simpl.
  destruct (InsertMessage.conversationId ins); try reflexivity.
  unfold MemStorage.updateConversation; simpl.
  destruct (map_get s0 (MemStorage.conversations s)); reflexivity.
Qed.

(** X4. A message that [createMessage] returns is the one [getMessage] then
    finds under its id and one of those [getMessagesByConversation] lists for
    its conversation; it carries the inserted conversation id, role and
    content, a falsy [model] and a [tokenUsage] of 0 read back as null; and
    the messages under every other id are as before. *)
Theorem X4_createMessage_round_trip
    (uuid : string) (now touch : Z) (ins : InsertMessage.t) (s : MemStorage.t) :
  let message := fst (MemStorage.createMessage uuid now touch ins s) in
  let s' := snd (MemStorage.createMessage uuid now touch ins s) in
  MemStorage.getMessage s' uuid = Some message /\
  In message (MemStorage.getMessagesByConversation s' (InsertMessage.conversationId ins)) /\
  (forall id, id <> uuid -> MemStorage.getMessage s' id = MemStorage.getMessage s id) /\
  Message.id message = uuid /\
  Message.createdAt message = now /\
  Message.conversationId message = InsertMessage.conversationId ins /\
  Message.role message = InsertMessage.role ins /\
  Message.content message = InsertMessage.content ins /\
  Message.model message =
    (if truthy (InsertMessage.model ins) then InsertMessage.model ins else JNull) /\
  (Message.tokenUsage message = None <->
   InsertMessage.tokenUsage ins = None \/ InsertMessage.tokenUsage ins = Some 0).
Proof.
  intros message s'. subst message s'. unfold MemStorage.getMessage.
  rewrite createMessage_messages, createMessage_fst.
  split; [apply map_get_set_same|]. split.
  { apply getMessagesByConversation_In. split.
    - rewrite createMessage_messages, createMessage_fst. apply map_set_values.
    - apply strict_eq_refl. }
  split; [intros id Hid; now apply map_get_set_other|].
  repeat (split; [reflexivity|]). simpl.
  unfold MemStorage.usage_or_null. destruct (InsertMessage.tokenUsage ins) as [n|].
  - destruct (Z.eqb_spec n 0); split; intros H; try discriminate; auto.
    + right. now subst.
    + destruct H as [H|H]; [discriminate | inversion H; contradiction].
  - tauto.
Qed.

(** X5. [createMessage] for an existing conversation sets that conversation's
    [updatedAt] to the current time and leaves its other fields and the other
    conversations alone; for a conversation that does not exist it leaves the
    conversations as they are. *)
Theorem X5_createMessage_touches_conversation
    (uuid : string) (now touch : Z) (ins : InsertMessage.t) (s : MemStorage.t)
    (cid : string) :
  InsertMessage.conversationId ins = JStr cid ->
  let s' := snd (MemStorage.createMessage uuid now touch ins s) in
  (forall c, MemStorage.getConversation s cid = Some c ->
     MemStorage.getConversation s' cid = Some (touched c touch)) /\
  (MemStorage.getConversation s cid = None ->
     MemStorage.conversations s' = MemStorage.conversations s) /\
  (forall id, id <> cid ->
     MemStorage.getConversation s' id = MemStorage.getConversation s id).
Proof.
  intros Hcid s'. subst s'. unfold MemStorage.getConversation.
  rewrite createMessage_conversations, Hcid.
  split; [|split].
  - intros c Hc. rewrite Hc. apply map_get_set_same.
  - intros Hnone. now rewrite Hnone.
  - intros id Hid. destruct (map_get cid (MemStorage.conversations s)); [|reflexivity].
    now apply map_get_set_other.
Qed.

Lemma map_set_inv_unique {V} (k : string) (v : V) (m : JsMap V) (e : string * V) :
  unique_keys m -> In e (map_set k v m) -> e = (k, v) \/ (In e m /\ fst e <> k).
Proof.
  unfold unique_keys. induction m as [|[k' v'] m IH]; simpl.
  - intros _ [H|[]]; auto.
  - intros Hnd. inversion Hnd as [|? ? Hnot Hrest]; subst.
    destruct (String.eqb_spec k' k) as [->|Hk]; simpl.
    + intros [H|H]; [now left|]. right. split; [now right|].
      intros He. apply Hnot. rewrite <- He. now apply in_map.
    + intros [H|H].
      * right. subst e. split; [now left | exact Hk].
      * destruct (IH Hrest H) as [He|[He Hne]]; [now left|]. right. split; [now right | exact Hne].
Qed.

(** the head of a list sorted in descending order is its greatest element *)
Lemma sorted_desc_head {A} (key : A -> Z) (x : A) (l : list A) :
  StronglySorted (in_order key true) l -> In x l ->
  (forall y, In y l -> y = x \/ key y < key x) ->
  exists rest, l = x :: rest.
Proof.
  intros Hs Hin Hmax. destruct l as [|h rest]; [contradiction|].
  destruct (Hmax h (or_introl eq_refl)) as [->|Hlt]; [eauto|].
  destruct Hin as [->|Hin]; [eauto|]. exfalso.
  inversion Hs as [|? ? _ Hall]; subst. rewrite Forall_forall in Hall.
  specialize (Hall x Hin). unfold in_order, not_after in Hall. apply Z.leb_le in Hall. lia.
Qed.

(** X6. A message stored in an existing conversation at a time later than the
    last update of every other conversation moves its conversation to the top
    of [getConversations]. *)
Theorem X6_message_moves_conversation_to_top
    (uuid : string) (now touch : Z) (ins : InsertMessage.t) (s : MemStorage.t)
    (cid : string) (c : Conversation.t) :
  unique_keys (MemStorage.conversations s) ->
  InsertMessage.conversationId ins = JStr cid ->
  MemStorage.getConversation s cid = Some c ->
  (forall id' c', id' <> cid -> MemStorage.getConversation s id' = Some c' ->
                  Conversation.updatedAt c' < touch) ->
  exists rest,
    MemStorage.getConversations (snd (MemStorage.createMessage uuid now touch ins s)) =
    touched c touch :: rest.
Proof.
  intros Hu Hcid Hc Hothers. unfold MemStorage.getConversations, MemStorage.getConversation in *.
  rewrite createMessage_conversations, Hcid, Hc.
  apply sorted_desc_head with (key := Conversation.updatedAt).
  - apply js_sort_sorted.
  - apply js_sort_In, map_set_values.
  - intros y Hy. apply js_sort_In in Hy. unfold map_values in Hy.
    apply in_map_iff in Hy. destruct Hy as [[k v] [<- He]].
    destruct (map_set_inv_unique _ _ _ Hu He) as [E|[Hin Hne]].
    + left. now inversion E.
    + right. simpl in *. apply (Hothers k v Hne). now apply map_get_In.
Qed.

(** X7. [deleteMessage] answers whether a message was stored under the id;
    afterwards no message is, the messages under other ids are as before, and
    conversations and files are untouched. *)
Theorem X7_deleteMessage (id : string) (s : MemStorage.t) :
  let deleted := fst (MemStorage.deleteMessage id s) in
  let s' := snd (MemStorage.deleteMessage id s) in
  (deleted = true <-> MemStorage.getMessage s id <> None) /\
  MemStorage.getMessage s' id = None /\
  (forall id', id' <> id -> MemStorage.getMessage s' id' = MemStorage.getMessage s id') /\
  MemStorage.conversations s' = MemStorage.conversations s /\
  MemStorage.uploadedFiles s' = MemStorage.uploadedFiles s.
Proof.
  unfold MemStorage.deleteMessage, MemStorage.getMessage; simpl.
  split; [apply map_has_true|]. split; [apply (map_get_delete id (MemStorage.messages s))|].
  split; [|split; reflexivity].
  intros id' Hne. now apply (map_get_delete_other (MemStorage.messages s)).
Qed.

Lemma filter_app_last {A} (f : A -> bool) (l : list A) (x : A) :
  filter f (l ++ [x]) = (filter f l ++ (if f x then [x] else []))%list.
Proof. rewrite filter_app. reflexivity. Qed.

(** a message created under a fresh id, not earlier than the messages of its
    conversation, goes to the end of the transcript *)
Lemma transcript_append
    (uuid : string) (now touch : Z) (ins : InsertMessage.t) (s : MemStorage.t)
    (c : JsValue) :
  MemStorage.getMessage s uuid = None ->
  strict_eq (InsertMessage.conversationId ins) c = true ->
  (forall m, In m (MemStorage.getMessagesByConversation s c) -> Message.createdAt m <= now) ->
  MemStorage.getMessagesByConversation (snd (MemStorage.createMessage uuid now touch ins s)) c =
  (MemStorage.getMessagesByConversation s c
     ++ [fst (MemStorage.createMessage uuid now touch ins s)])%list.
Proof.
  intros Hfresh Hc Hle. unfold MemStorage.getMessage in Hfresh.
  unfold MemStorage.getMessagesByConversation.
  rewrite createMessage_messages, map_set_fresh by exact Hfresh.
  unfold map_values. rewrite !map_app. cbn [map snd]. rewrite !filter_app_last.
  rewrite createMessage_fst. cbn [Message.conversationId]. rewrite Hc.
  apply js_sort_append.
  intros y Hy. unfold in_order, not_after. cbn [Message.createdAt]. apply Z.leb_le.
  apply Hle. unfold MemStorage.getMessagesByConversation. now apply js_sort_In.
Qed.

(** X8. A message created under a fresh id, at a time not earlier than the
    messages already in its conversation, is appended to that conversation's
    transcript, and the transcript of every other conversation is unchanged. *)
Theorem X8_createMessage_appends
    (uuid : string) (now touch : Z) (ins : InsertMessage.t) (s : MemStorage.t)
    (c : JsValue) :
  MemStorage.getMessage s uuid = None ->
  let message := fst (MemStorage.createMessage uuid now touch ins s) in
  let s' := snd (MemStorage.createMessage uuid now touch ins s) in
  (strict_eq (InsertMessage.conversationId ins) c = true ->
   (forall m, In m (MemStorage.getMessagesByConversation s c) -> Message.createdAt m <= now) ->
   MemStorage.getMessagesByConversation s' c =
   (MemStorage.getMessagesByConversation s c ++ [message])%list) /\
  (strict_eq (InsertMessage.conversationId ins) c = false ->
   MemStorage.getMessagesByConversation s' c = MemStorage.getMessagesByConversation s c).
Proof.
  intros Hfresh message s'. subst message s'. split.
  - intros Hc Hle. now apply transcript_append.
  - intros Hc. unfold MemStorage.getMessage in Hfresh.
    unfold MemStorage.getMessagesByConversation.
    rewrite createMessage_messages, map_set_fresh by exact Hfresh.
    unfold map_values. rewrite !map_app. cbn [map snd]. rewrite !filter_app_last.
    rewrite createMessage_fst. cbn [Message.conversationId].
    rewrite Hc. now rewrite app_nil_r.
Qed.

(** ** Deleting a conversation *)

Lemma strict_eq_eq (a b : JsValue) :
  strict_eq a b = true ->
  match a with
  | JArr r _ => exists items, b = JArr r items
  | JObj r _ => exists fields, b = JObj r fields
  | _ => b = a
  end.
Proof.
  destruct a, b; simpl; try discriminate; intros H; try reflexivity.
  - apply Bool.eqb_prop in H. now subst.
  - apply Z.eqb_eq in H. now subst.
  - apply String.eqb_eq in H. now subst.
  - apply Nat.eqb_eq in H. subst. eauto.
  - apply Nat.eqb_eq in H. subst. eauto.
Qed.

Lemma strict_eq_common (a b c : JsValue) :
  strict_eq a b = true -> strict_eq a c = true -> strict_eq b c = true.
Proof.
  intros Hb Hc. apply strict_eq_eq in Hb. apply strict_eq_eq in Hc.
  destruct a; try (subst; apply strict_eq_refl).
  - destruct Hb as [x ->], Hc as [y ->]. simpl. apply Nat.eqb_refl.
  - destruct Hb as [x ->], Hc as [y ->]. simpl. apply Nat.eqb_refl.
Qed.

(** an entry of a well-keyed map is spared by [deleteConversation]'s loop
    unless its value is one of those to delete *)
Lemma spared_by_delete_each {V} (id_of : V -> string) (doomed : list V) (m : JsMap V)
    (e : string * V) :
  keyed id_of m -> unique_keys m ->
  (forall v, In v doomed -> In v (map_values m)) ->
  In e m -> ~ In (snd e) doomed ->
  negb (existsb (String.eqb (fst e)) (map id_of doomed)) = true.
Proof.
  intros Hk Hu Hsub He Hnot. apply Bool.negb_true_iff.
  destruct (existsb _ _) eqn:E; [|reflexivity]. exfalso.
  apply existsb_exists in E. destruct E as [i [Hi Heq]].
  apply String.eqb_eq in Heq. apply in_map_iff in Hi. destruct Hi as [v [Hv Hin]].
  apply Hnot. specialize (Hsub v Hin). unfold map_values in Hsub.
  apply in_map_iff in Hsub. destruct Hsub as [[k v'] [Hsnd Hentry]]. simpl in Hsnd. subst v'.
  assert (k = fst e) by (rewrite <- (Hk _ _ Hentry); congruence). subst k.
  destruct e as [k0 v0]. simpl in *.
  now rewrite (unique_keys_functional _ _ _ Hu He Hentry).
Qed.

Lemma deleteConversation_messages id s :
  MemStorage.messages (snd (MemStorage.deleteConversation id s)) =
  MemStorage.delete_each
    (map Message.id (MemStorage.getMessagesByConversation s (JStr id)))
    (MemStorage.messages s).
Proof. reflexivity. Qed.

Lemma deleteConversation_uploadedFiles id s :
  MemStorage.uploadedFiles (snd (MemStorage.deleteConversation id s)) =
  MemStorage.delete_each
    (map UploadedFile.id (MemStorage.getUploadedFiles s (JStr id)))
    (MemStorage.uploadedFiles s).
Proof. reflexivity. Qed.

Lemma deleteConversation_conversations id s :
  MemStorage.conversations (snd (MemStorage.deleteConversation id s)) =
  snd (map_delete id (MemStorage.conversations s)).
Proof. reflexivity. Qed.

Lemma deleteConversation_fst id s :
  fst (MemStorage.deleteConversation id s) = map_has id (MemStorage.conversations s).
Proof. reflexivity. Qed.

Lemma getMessagesByConversation_eq s c :
  MemStorage.getMessagesByConversation s c =
  js_sort Message.createdAt false
    (filter (fun message => strict_eq (Message.conversationId message) c)
       (map_values (MemStorage.messages s))).
Proof. reflexivity. Qed.

Lemma getUploadedFiles_truthy s c :
  truthy c = true ->
  MemStorage.getUploadedFiles s c =
  filter (fun file => strict_eq (UploadedFile.conversationId file) c)
    (map_values (MemStorage.uploadedFiles s)).
Proof. intros H. unfold MemStorage.getUploadedFiles. now rewrite H. Qed.

(** X9. Deleting a conversation leaves the transcript of every other
    conversation and the other conversations themselves as they were, and,
    when the deleted id is not the empty string, also the uploaded files of
    every other conversation. *)
Theorem X9_deleteConversation_spares_others (id : string) (s : MemStorage.t) :
  store_wf s ->
  let s' := snd (MemStorage.deleteConversation id s) in
  (forall c, strict_eq c (JStr id) = false ->
     MemStorage.getMessagesByConversation s' c = MemStorage.getMessagesByConversation s c) /\
  (forall id', id' <> id ->
     MemStorage.getConversation s' id' = MemStorage.getConversation s id') /\
  (id <> "" ->
   forall c, truthy c = true -> strict_eq c (JStr id) = false ->
     MemStorage.getUploadedFiles s' c = MemStorage.getUploadedFiles s c).
Proof.
  intros [[Hkm Hkf] Hc Hm Hf] s'. subst s'. split; [|split].
  - intros c Hne. rewrite !getMessagesByConversation_eq, deleteConversation_messages.
    rewrite delete_each_filter. f_equal.
    apply filter_values_spared. intros e He Hmatch.
    apply spared_by_delete_each with (m := MemStorage.messages s); auto.
    + intros v Hv. now apply getMessagesByConversation_In in Hv.
    + intros Hd. apply getMessagesByConversation_In in Hd. destruct Hd as [_ Hd].
      rewrite (strict_eq_common _ _ _ Hmatch Hd) in Hne. discriminate.
  - intros id' Hne. unfold MemStorage.getConversation.
    rewrite deleteConversation_conversations.
    now apply (map_get_delete_other (MemStorage.conversations s)).
  - intros Hid c Htruthy Hne.
    assert (Hid' : truthy (JStr id) = true).
    { simpl. apply String.eqb_neq in Hid. now rewrite Hid. }
    rewrite !(getUploadedFiles_truthy _ _ Htruthy), deleteConversation_uploadedFiles.
    rewrite delete_each_filter, (getUploadedFiles_truthy _ _ Hid').
    apply filter_values_spared. intros e He Hmatch.
    apply spared_by_delete_each with (m := MemStorage.uploadedFiles s); auto.
    + intros v Hv. now apply filter_In in Hv.
    + intros Hd. apply filter_In in Hd. destruct Hd as [_ Hd].
      rewrite (strict_eq_common _ _ _ Hmatch Hd) in Hne. discriminate.
Qed.

(** what is left under a deleted id *)
Lemma deleted_conversation_gone (id : string) (s : MemStorage.t) :
  store_ok s ->
  MemStorage.getMessagesByConversation (snd (MemStorage.deleteConversation id s)) (JStr id) = [] /\
  MemStorage.getConversation (snd (MemStorage.deleteConversation id s)) id = None.
Proof.
  intros [Hm Hf]. split.
  - rewrite getMessagesByConversation_eq, deleteConversation_messages.
    rewrite filter_none; [reflexivity|].
    apply delete_each_clears
      with (hit := fun m => strict_eq (Message.conversationId m) (JStr id)); [assumption|].
    intros v Hv Hhit. now apply getMessagesByConversation_In.
  - unfold MemStorage.getConversation. rewrite deleteConversation_conversations.
    apply map_get_delete.
Qed.

(** X10. [DELETE /api/conversations/:id] answers 404 exactly when no such
    conversation is stored and [{ success: true }] otherwise; in both cases
    the messages stored under that id are deleted, so that the messages route
    then answers with an empty list and the conversation route with 404. *)
Theorem X10_delete_route (id : string) (s : MemStorage.t) :
  store_ok s ->
  let r := fst (Routes.delete_conversation id s) in
  let s' := snd (Routes.delete_conversation id s) in
  (r = Routes.mk 404 (Routes.MessageBody "Conversation not found") <->
   MemStorage.getConversation s id = None) /\
  (r = Routes.json (Routes.SuccessBody true) <->
   MemStorage.getConversation s id <> None) /\
  Routes.get_messages id s' = Routes.json (Routes.MessageList []) /\
  Routes.get_conversation id s' = Routes.mk 404 (Routes.MessageBody "Conversation not found").
Proof.
  intros Hok r s'. subst r s'. unfold Routes.delete_conversation.
  destruct (deleted_conversation_gone id Hok) as [Hmsgs Hconv].
  pose proof (deleteConversation_fst id s) as Hd.
  destruct (MemStorage.deleteConversation id s) as [deleted s1].
  cbn [fst snd] in *. unfold Routes.get_messages, Routes.get_conversation.
  rewrite Hmsgs, Hconv. unfold MemStorage.getConversation, map_has in *.
  destruct (map_get id (MemStorage.conversations s)); subst deleted;
    repeat split; intros; try discriminate; try congruence; try reflexivity.
Qed.

(** X11. The empty string is a falsy filter for [getUploadedFiles], so
    [deleteConversation("")] deletes every uploaded file, whichever
    conversation owns it. *)
Theorem X11_empty_id_deletes_every_file (s : MemStorage.t) :
  store_ok s ->
  MemStorage.getUploadedFiles s (JStr "") =
    js_sort UploadedFile.createdAt true (map_values (MemStorage.uploadedFiles s)) /\
  MemStorage.uploadedFiles (snd (MemStorage.deleteConversation "" s)) = [].
Proof.
  intros [Hm Hf]. split; [reflexivity|].
  rewrite deleteConversation_uploadedFiles. apply no_member_nil.
  intros [k f] Hin. apply delete_each_In in Hin. destruct Hin as [Hin Hnot].
  apply Hnot. simpl. rewrite <- (Hf _ _ Hin). apply in_map.
  change (MemStorage.getUploadedFiles s (JStr ""))
    with (js_sort UploadedFile.createdAt true (map_values (MemStorage.uploadedFiles s))).
  apply js_sort_In. unfold map_values. apply in_map_iff. now exists (k, f).
Qed.

(** ** The relay: provider, chunks and failures *)

Lemma chunk_payloads_In (c : string) (frames : list Frame) :
  In (StreamingChunk c) frames <-> In c (chunk_payloads frames).
Proof.
  induction frames as [|f frames IH]; simpl; [tauto|].
  destruct f; simpl; rewrite <- IH; intuition (try discriminate; try congruence).
Qed.

Lemma fragments_In (c : string) (l : list Step) :
  In c (fragments l) <-> exists s, In (s, Some c) l.
Proof.
  induction l as [|[s [x|]] l IH]; simpl.
  - split; [tauto | intros [s []]].
  - rewrite IH. split.
    + intros [->|[s' H]]; eauto.
    + intros [s' [H|H]]; [left; congruence | eauto].
  - rewrite IH. split.
    + intros [s' H]; eauto.
    + intros [s' [H|H]]; [discriminate | eauto].
Qed.

Lemma delivered_In (c : string) (open : bool) (l : list Step) :
  In c (delivered open l) -> In c (fragments l).
Proof.
  intros H. destruct (delivered_prefix open l) as [lost ->]. apply in_or_app. now left.
Qed.

Lemma steps_of_fragment {C} (fragment : C -> option string) (reply : Reply C)
    (s : Suspension) (c : string) :
  In (s, Some c) (steps_of fragment reply) -> exists chunk, fragment chunk = Some c.
Proof.
  destruct reply as [during e | during items last ending]; simpl.
  - intros [H|[]]; discriminate.
  - intros [H|H]; [discriminate|]. apply in_app_or in H. destruct H as [H|[H|[]]]; [|discriminate].
    unfold steps_of_items in H. apply in_map_iff in H. destruct H as [it [E _]].
    inversion E. eauto.
Qed.

(** X12. A chat turn whose [model] is a string calls exactly one provider,
    once: OpenAI if the model's name contains "gpt", Anthropic otherwise.  The
    call carries the whole transcript of the conversation as it is listed once
    the user message is stored (for Anthropic without the system messages).
    A turn whose [model] has no [includes] calls no provider. *)
Theorem X12_one_provider_call
    (env : Env) (data : Inbound) (req : ChatRequest.t) (w : World) :
  chat_request data = Some req ->
  let transcript :=
    map history_item
      (MemStorage.getMessagesByConversation (storage_with_user env req w)
         (ChatRequest.conversationId req)) in
  (forall m, ChatRequest.model req = JStr m -> includes m "gpt" = true ->
     new_calls w (on_message env data w) = [OpenAICreate (JStr m) transcript]) /\
  (forall m, ChatRequest.model req = JStr m -> includes m "gpt" = false ->
     exists system,
       new_calls w (on_message env data w) =
       [AnthropicCreate (JStr m) system
          (filter (fun item => negb (String.eqb (HistoryItem.role item) "system"))
             transcript)]) /\
  (forall e, js_includes (ChatRequest.model req) "gpt" = inl e ->
     new_calls w (on_message env data w) = []).
Proof.
  intros Hreq transcript. subst transcript.
  rewrite (@new_calls_chat env data req w Hreq). unfold turn_calls.
  split; [|split].
  - intros m Hm Hgpt. unfold turn_script, script, turn_history. rewrite Hm.
    cbn [js_includes default_to]. rewrite Hgpt. reflexivity.
  - intros m Hm Hgpt. unfold turn_script, script, turn_history. rewrite Hm.
    cbn [js_includes default_to]. rewrite Hgpt. eexists. reflexivity.
  - intros e ->. reflexivity.
Qed.

(** X13. Every [streaming_chunk] frame of a turn served by OpenAI carries a
    non-empty fragment: the service skips the chunks of the stream that have
    no text. *)
Theorem X13_openai_chunks_not_empty
    (env : Env) (data : Inbound) (req : ChatRequest.t) (w : World) (m c : string) :
  chat_request data = Some req ->
  ChatRequest.model req = JStr m ->
  includes m "gpt" = true ->
  In (StreamingChunk c) (emitted w (on_message env data w)) ->
  c <> "".
Proof.
  intros Hreq Hm Hgpt Hin. rewrite (@emitted_chat env data req w Hreq) in Hin.
  apply chunk_payloads_In in Hin. rewrite chunk_payloads_turn_frames in Hin.
  rewrite Hm in Hin. simpl in Hin. rewrite Hgpt in Hin.
  apply delivered_In, fragments_In in Hin. destruct Hin as [s Hin].
  unfold turn_script, script in Hin. cbn [steps] in Hin.
  apply steps_of_fragment in Hin. destruct Hin as [chunk Hc].
  unfold openai_fragment in Hc.
  destruct (String.eqb_spec (OpenAI.delta_content chunk) ""); [discriminate|].
  inversion Hc. congruence.
Qed.

(** X14. When the provider fails and the connection is still open, the last
    frame of the turn is an [error] frame whose message is the service's
    prefix followed by the failure's message, or by "Unknown error" when what
    was thrown is not an [Error]. *)
Theorem X14_provider_failure_message
    (env : Env) (data : Inbound) (req : ChatRequest.t) (w : World)
    (call : ApiCall) (e : Thrown) :
  chat_request data = Some req ->
  In call (new_calls w (on_message env data w)) ->
  reply_ending env call = Some e ->
  WebSocket.is_open (ws (on_message env data w)) = true ->
  exists before,
    emitted w (on_message env data w) =
    (before ++ [ErrorFrame (provider_prefix call ++ error_message e)])%list.
Proof.
  intros Hreq Hcall Hend Hopen.
  rewrite (@new_calls_chat env data req w Hreq) in Hcall.
  rewrite (@on_message_chat env data req w Hreq), run_chat_is_open in Hopen.
  rewrite (@emitted_chat env data req w Hreq).
  unfold turn_calls in Hcall. unfold turn_frames, terminal_frame.
  destruct (js_includes (ChatRequest.model req) "gpt") as [e0|isOpenAI]; [destruct Hcall|].
  destruct Hcall as [<-|[]]. cbv zeta.
  destruct (script_reply env isOpenAI (ChatRequest.model req) (turn_history env req w))
    as [_ Hending]. fold (turn_script env req w isOpenAI) in Hending.
  rewrite <- Hending in Hend. rewrite Hend, Hopen.
  assert (Hp : provider_prefix (call (turn_script env req w isOpenAI)) =
               error_prefix (turn_script env req w isOpenAI))
    by (unfold turn_script, script; now destruct isOpenAI).
  rewrite Hp, app_assoc. eauto.
Qed.

(** X15. A frame never makes the handler delete or create anything but the
    turn's own messages: the uploaded files and the set of conversations stay
    as they are, every stored message stays unless one of the turn's two
    uuids replaces it, and nothing is stored under any other id.  A frame that
    is not a chat request leaves the whole store as it is. *)
Theorem X15_turn_only_adds_its_messages (env : Env) (data : Inbound) (w : World) :
  let s := storage w in
  let s' := storage (on_message env data w) in
  MemStorage.uploadedFiles s' = MemStorage.uploadedFiles s /\
  map fst (MemStorage.conversations s') = map fst (MemStorage.conversations s) /\
  (forall k m, In (k, m) (MemStorage.messages s) ->
     k <> userUuid env -> k <> assistantUuid env -> In (k, m) (MemStorage.messages s')) /\
  (forall k m, In (k, m) (MemStorage.messages s') ->
     In (k, m) (MemStorage.messages s) \/ k = userUuid env \/ k = assistantUuid env) /\
  (chat_request data = None -> s' = s).
Proof.
  intros s s'. subst s s'.
  assert (Hkeys : forall uuid now touch ins s0,
            map fst (MemStorage.conversations (snd (MemStorage.createMessage uuid now touch ins s0))) =
            map fst (MemStorage.conversations s0)).
  { intros. rewrite createMessage_conversations.
    destruct (InsertMessage.conversationId ins); try reflexivity.
    destruct (map_get s (MemStorage.conversations s0)) eqn:E; [|reflexivity].
    rewrite map_set_keys. unfold map_has. now rewrite E. }
  destruct (chat_request data) as [req|] eqn:Hreq.
  - rewrite (@storage_chat env data req w Hreq).
    destruct (turn_completion env req w) as [full|];
      unfold storage_with_both, storage_with_user;
      rewrite ?createMessage_uploadedFiles, ?Hkeys, ?createMessage_messages;
      (split; [reflexivity|]); (split; [reflexivity|]).
    + split; [|split; [|discriminate]].
      * intros k m Hin Hu Ha. now do 2 (apply map_set_other; [assumption|]).
      * intros k m Hin. apply map_set_inv in Hin. destruct Hin as [E|Hin]; [inversion E; auto|].
        apply map_set_inv in Hin. destruct Hin as [E|Hin]; [inversion E; auto | auto].
    + split; [|split; [|discriminate]].
      * intros k m Hin Hu Ha. now apply map_set_other.
      * intros k m Hin. apply map_set_inv in Hin. destruct Hin as [E|Hin]; [inversion E; auto | auto].
  - assert (Hs : storage (on_message env data w) = storage w).
    { rewrite (on_message_other env data w Hreq).
      destruct data as [m|v]; [apply send_if_open_storage|].
      destruct (get_prop v "type"); [apply send_if_open_storage | reflexivity]. }
    rewrite Hs. repeat split; auto.
Qed.

(** ** The transcript over one turn and over two *)

Lemma call_messages_script (env : Env) (isOpenAI : bool) (model : JsValue)
    (history : list HistoryItem.t) :
  call_messages (call (script env isOpenAI model history)) =
  sent_history (call (script env isOpenAI model history)) history.
Proof. unfold script. now destruct isOpenAI. Qed.

Section TranscriptOfTurn.
Variables (env : Env) (req : ChatRequest.t) (w : World).
Hypothesis user_fresh : MemStorage.getMessage (storage w) (userUuid env) = None.
Hypothesis assistant_fresh : MemStorage.getMessage (storage w) (assistantUuid env) = None.
Hypothesis distinct : userUuid env <> assistantUuid env.
Hypothesis later :
  forall m,
    In m (MemStorage.getMessagesByConversation (storage w) (ChatRequest.conversationId req)) ->
    Message.createdAt m <= userNow env.
Hypothesis clock : userNow env <= assistantNow env.

Lemma transcript_with_user :
  MemStorage.getMessagesByConversation (storage_with_user env req w)
    (ChatRequest.conversationId req) =
  (MemStorage.getMessagesByConversation (storage w) (ChatRequest.conversationId req)
     ++ [user_row env req])%list.
Proof.
  unfold storage_with_user. rewrite transcript_append; auto using strict_eq_refl.
Qed.

Lemma transcript_with_both (fullResponse : string) :
  MemStorage.getMessagesByConversation (storage_with_both env req w fullResponse)
    (ChatRequest.conversationId req) =
  (MemStorage.getMessagesByConversation (storage w) (ChatRequest.conversationId req)
     ++ [user_row env req; assistant_row env req fullResponse])%list.
Proof.
  unfold storage_with_both. rewrite transcript_append.
  - rewrite transcript_with_user, <- app_assoc. reflexivity.
  - unfold MemStorage.getMessage, storage_with_user.
    rewrite createMessage_messages, map_get_set_other by congruence. exact assistant_fresh.
  - apply strict_eq_refl.
  - intros m Hm. rewrite transcript_with_user in Hm. apply in_app_or in Hm.
    destruct Hm as [Hm|[<-|[]]]; [specialize (later m Hm); lia | exact clock].
Qed.

Lemma turn_history_appended :
  turn_history env req w =
  map history_item
    (MemStorage.getMessagesByConversation (storage w) (ChatRequest.conversationId req)
       ++ [user_row env req]).
Proof. unfold turn_history. now rewrite transcript_with_user. Qed.
End TranscriptOfTurn.

(** X16. A chat turn whose two uuids are fresh and distinct, and whose clock
    readings are in order and not earlier than the messages already in the
    conversation, extends the conversation's transcript at its end: by the
    user message when the turn fails, by the user message and the assistant
    message when it succeeds.  The provider is handed the old transcript
    followed by the user message. *)
Theorem X16_turn_extends_transcript
    (env : Env) (data : Inbound) (req : ChatRequest.t) (w : World) :
  chat_request data = Some req ->
  MemStorage.getMessage (storage w) (userUuid env) = None ->
  MemStorage.getMessage (storage w) (assistantUuid env) = None ->
  userUuid env <> assistantUuid env ->
  (forall m,
     In m (MemStorage.getMessagesByConversation (storage w) (ChatRequest.conversationId req)) ->
     Message.createdAt m <= userNow env) ->
  userNow env <= assistantNow env ->
  let before :=
    MemStorage.getMessagesByConversation (storage w) (ChatRequest.conversationId req) in
  let after :=
    MemStorage.getMessagesByConversation (storage (on_message env data w))
      (ChatRequest.conversationId req) in
  (forall call, In call (new_calls w (on_message env data w)) ->
     call_messages call =
     sent_history call (map history_item (before ++ [user_row env req]))) /\
  (forall e, snd (handle env data w) = inl e ->
     after = (before ++ [user_row env req])%list) /\
  (snd (handle env data w) = inr tt ->
     exists fullResponse,
       after = (before ++ [user_row env req; assistant_row env req fullResponse])%list).
Proof.
  intros Hreq Hu Ha Hd Hlater Hclock before after. subst before after.
  rewrite (@new_calls_chat env data req w Hreq), (@storage_chat env data req w Hreq),
    (@result_chat env data req w Hreq).
  unfold turn_calls, turn_completion, chat_result.
  destruct (js_includes (ChatRequest.model req) "gpt") as [e0|isOpenAI].
  - split; [intros call []|]. split; [|discriminate].
    intros e _. now apply transcript_with_user.
  - cbv zeta. split; [|split].
    + intros call [<-|[]]. unfold turn_script.
      rewrite call_messages_script. now rewrite turn_history_appended.
    + intros e He. destruct (ending _); [|discriminate]. now apply transcript_with_user.
    + intros He. destruct (ending _); [discriminate|].
      eexists. now apply transcript_with_both.
Qed.


(** X18. A frame that does not parse is answered with one [error] frame that
    carries the parser's message, if the connection is open, and with nothing
    otherwise; the store, the provider calls and the rest of the world are as
    before. *)
Theorem X18_unparseable_frame (env : Env) (message : string) (w : World) :
  let w' := on_message env (Unparseable message) w in
  emitted w w' = (if WebSocket.is_open (ws w) then [ErrorFrame message] else []) /\
  storage w' = storage w /\
  new_calls w w' = [] /\
  aiResponse w' = aiResponse w /\
  WebSocket.readyState (ws w') = WebSocket.readyState (ws w).
Proof.
  intros w'. subst w'. rewrite unparseable_frame. unfold emitted, new_calls.
  rewrite send_if_open_sent, send_if_open_storage, send_if_open_apiCalls,
    send_if_open_aiResponse, skipn_length_app.
  repeat split.
  - rewrite <- (app_nil_r (apiCalls w)) at 2. apply skipn_length_app.
  - unfold send_if_open. now destruct (WebSocket.is_open (ws w)).
Qed.

(** ** The hook at the other end of the connection *)

Lemma receive_app (a b : list Frame) (h : Hook.t) :
  Hook.receive (a ++ b) h = Hook.receive b (Hook.receive a h).
Proof. apply fold_left_app. Qed.

Lemma receive_chunks (cs : list string) (h : Hook.t) :
  Hook.receive (map StreamingChunk cs) h =
  Hook.setStreamingContent (fun prev => prev ++ join cs) h.
Proof.
  revert h. induction cs as [|c cs IH]; intros h.
  - destruct h. unfold Hook.setStreamingContent. cbn. now rewrite string_app_empty_r.
  - cbn [map Hook.receive fold_left]. fold (Hook.receive (map StreamingChunk cs)).
    rewrite IH. destruct h. unfold Hook.setStreamingContent. cbn.
    destruct (String.eqb c "") eqn:E.
    + apply String.eqb_eq in E. subst c. reflexivity.
    + cbn. now rewrite string_app_assoc.
Qed.

Lemma complete_turn_inv (frames : list Frame) :
  complete_turn frames = true ->
  exists cs t, frames = (StreamingStart :: map StreamingChunk cs ++ [t])%list /\
               is_terminal t = true.
Proof.
  destruct frames as [|[| | |] rest]; try discriminate. simpl.
  induction rest as [|f rest IH]; [discriminate|].
  destruct f as [|c|c u|m]; simpl.
  - discriminate.
  - intros H. destruct (IH H) as [cs [t [E Ht]]]. injection E as E.
    exists (c :: cs), t. split; [|exact Ht]. simpl. now rewrite E.
  - destruct rest; [|discriminate]. exists [], (StreamingComplete c u). now split.
  - destruct rest; [|discriminate]. exists [], (ErrorFrame m). now split.
Qed.

(** X19. From [streaming_start] on, the hook is streaming and shows the
    concatenation of the chunks received so far, whatever it showed before;
    it sends nothing, raises no toast and invalidates no query meanwhile. *)
Theorem X19_hook_shows_chunks_so_far (cs : list string) (h : Hook.t) :
  let h' := Hook.receive (StreamingStart :: map StreamingChunk cs) h in
  Hook.isStreaming h' = true /\
  Hook.streamingContent h' = join cs /\
  Hook.isConnected h' = Hook.isConnected h /\
  Hook.sentFrames h' = Hook.sentFrames h /\
  Hook.toasts h' = Hook.toasts h /\
  Hook.invalidated h' = Hook.invalidated h.
Proof.
  cbv zeta. change (StreamingStart :: map StreamingChunk cs)
    with ([StreamingStart] ++ map StreamingChunk cs)%list.
  rewrite receive_app, receive_chunks. destruct h. cbn. repeat split; reflexivity.
Qed.

Lemma hook_after_complete_turn (frames : list Frame) (h : Hook.t) :
  complete_turn frames = true ->
  let h' := Hook.receive frames h in
  Hook.isStreaming h' = false /\
  Hook.streamingContent h' = "" /\
  match last frames StreamingStart with
  | ErrorFrame m =>
      Hook.invalidated h' = Hook.invalidated h /\
      Hook.toasts h' =
      (Hook.toasts h ++
       [Toast.mk "AI Error"
          (Hook.or_default (Some m) "An error occurred while processing your request.")
          "destructive"])%list
  | _ =>
      Hook.invalidated h' =
      (Hook.invalidated h ++
       [[JStr "/api/conversations"];
        [JStr "/api/conversations"; JUndefined; JStr "messages"]])%list /\
      Hook.toasts h' = Hook.toasts h
  end.
Proof.
  intros H. destruct (complete_turn_inv _ H) as [cs [t [-> Ht]]]. cbv zeta.
  change (StreamingStart :: map StreamingChunk cs ++ [t])%list
    with ([StreamingStart] ++ (map StreamingChunk cs ++ [t]))%list.
  rewrite last_last || (rewrite app_assoc, last_last).
  rewrite !receive_app, receive_chunks.
  destruct t as [|c|c u|m]; try discriminate; destruct h; cbn.
  - rewrite <- app_assoc. repeat split; reflexivity.
  - repeat split; reflexivity.
Qed.

(** X20. Server and hook together: after a chat turn whose connection is still
    open at its end, the hook that received the turn's frames is not streaming
    and shows no partial text.  If the turn succeeded it has invalidated the
    conversation queries and raised no toast; if the turn failed it has raised
    one "AI Error" toast with the failure's message and invalidated nothing. *)
Theorem X20_hook_idle_after_turn
    (env : Env) (data : Inbound) (req : ChatRequest.t) (w : World) (h : Hook.t) :
  chat_request data = Some req ->
  WebSocket.is_open (ws (on_message env data w)) = true ->
  let h' := Hook.receive (emitted w (on_message env data w)) h in
  Hook.isStreaming h' = false /\
  Hook.streamingContent h' = "" /\
  match snd (handle env data w) with
  | inr _ =>
      Hook.invalidated h' =
      (Hook.invalidated h ++
       [[JStr "/api/conversations"];
        [JStr "/api/conversations"; JUndefined; JStr "messages"]])%list /\
      Hook.toasts h' = Hook.toasts h
  | inl e =>
      Hook.invalidated h' = Hook.invalidated h /\
      Hook.toasts h' =
      (Hook.toasts h ++
       [Toast.mk "AI Error"
          (Hook.or_default (Some (error_message e))
             "An error occurred while processing your request.")
          "destructive"])%list
  end.
Proof.
  intros Hreq Hopen. cbv zeta.
  rewrite (@emitted_chat env data req w Hreq), (@result_chat env data req w Hreq).
  rewrite (@on_message_chat env data req w Hreq), run_chat_is_open in Hopen.
  unfold turn_frames, chat_result.
  destruct (js_includes (ChatRequest.model req) "gpt") as [e0|isOpenAI].
  - rewrite Hopen. destruct h. cbn. repeat split; reflexivity.
  - apply Bool.andb_true_iff in Hopen. destruct Hopen as [Hopen Hquiet].
    cbv zeta. set (sc := turn_script env req w isOpenAI) in *.
    rewrite Hopen, Hquiet. cbn [andb].
    set (frames := ([StreamingStart] ++
                    map StreamingChunk (delivered true (steps sc)) ++ [terminal_frame sc])%list).
    assert (Hwhole : complete_turn frames = true).
    { subst frames. simpl. rewrite chunks_then_terminal_chunks.
      apply chunks_then_terminal_one, terminal_frame_is_terminal. }
    pose proof (hook_after_complete_turn frames h Hwhole) as H. cbv zeta in H.
    assert (Hlast : last frames StreamingStart = terminal_frame sc).
    { subst frames. now rewrite app_assoc, last_last. }
    rewrite Hlast in H. unfold terminal_frame in H.
    destruct (ending sc) as [e|]; cbn [error_message]; exact H.
Qed.

(** X21. When the socket is open and the hook is not streaming, [sendMessage]
    sends one frame and raises no toast.  The server recognises the frame as a
    chat request for the given conversation and content, with a model and a
    mode that are non-empty strings ("gpt-5" and "chat" when none was given),
    and answers it by calling exactly one provider: the failure of a missing
    model cannot be reached from the hook. *)
Theorem X21_sent_frame_is_served
    (content conversationId : string) (model mode : option string) (h : Hook.t)
    (ref : nat) (env : Env) (w : World) :
  Hook.socket h = Some OPEN ->
  Hook.isStreaming h = false ->
  let h' := Hook.sendMessage content conversationId model mode h in
  exists frame m md,
    Hook.sentFrames h' = (Hook.sentFrames h ++ [frame])%list /\
    Hook.toasts h' = Hook.toasts h /\
    m <> "" /\ md <> "" /\
    (forall x, model = Some x -> x <> "" -> m = x) /\
    chat_request (Parsed (JObj ref frame)) =
    Some (ChatRequest.mk (JStr conversationId) (JStr content) (JStr m) (JStr md)) /\
    List.length (new_calls w (on_message env (Parsed (JObj ref frame)) w)) = 1%nat.
Proof.
  intros Hsock Hidle. cbv zeta. unfold Hook.sendMessage. rewrite Hsock, Hidle. cbn [negb].
  eexists _, (Hook.or_default model "gpt-5"), (Hook.or_default mode "chat").
  assert (Hdef : forall o d, d <> "" -> Hook.or_default o d <> "").
  { intros [s|] d Hd; simpl; [|exact Hd].
    destruct (String.eqb s "") eqn:E; [exact Hd|]. now apply String.eqb_neq in E. }
  split; [reflexivity|]. split; [reflexivity|].
  split; [apply Hdef; discriminate|]. split; [apply Hdef; discriminate|].
  split.
  { intros x -> Hx. simpl. apply String.eqb_neq in Hx. now rewrite Hx. }
  assert (Hreq : chat_request
            (Parsed (JObj ref
               [("type", JStr "chat"); ("conversationId", JStr conversationId);
                ("content", JStr content);
                ("model", JStr (Hook.or_default model "gpt-5"));
                ("mode", JStr (Hook.or_default mode "chat"))])) =
          Some (ChatRequest.mk (JStr conversationId) (JStr content)
                  (JStr (Hook.or_default model "gpt-5"))
                  (JStr (Hook.or_default mode "chat")))) by reflexivity.
  split; [exact Hreq|].
  rewrite (@new_calls_chat env _ _ w Hreq). reflexivity.
Qed.

(** X22. Between [streaming_start] and the terminal frame of a turn the hook
    sends nothing: [sendMessage] leaves the outbox as it was and raises the
    "Connection Error" toast, also on an open socket. *)
Theorem X22_no_send_while_streaming
    (cs : list string) (content conversationId : string) (model mode : option string)
    (h : Hook.t) :
  let streaming := Hook.receive (StreamingStart :: map StreamingChunk cs) h in
  let h' := Hook.sendMessage content conversationId model mode streaming in
  Hook.sentFrames h' = Hook.sentFrames h /\
  Hook.toasts h' =
  (Hook.toasts h ++
   [Toast.mk "Connection Error" "Unable to send message. Please check your connection."
      "destructive"])%list /\
  Hook.isStreaming h' = true /\
  Hook.streamingContent h' = join cs.
Proof.
  cbv zeta. change (StreamingStart :: map StreamingChunk cs)
    with ([StreamingStart] ++ map StreamingChunk cs)%list.
  rewrite receive_app, receive_chunks. destruct h as [c s t [[| | |]|] o ts i r]; cbn;
    repeat split; reflexivity.
Qed.

(** X23. [sendMessage] does not mark the hook as streaming: only the server's
    [streaming_start] does.  A second message sent before that frame arrives
    goes out as well, so two chat requests can be in flight at once. *)
Theorem X23_two_sends_before_start
    (c1 c2 id1 id2 : string) (model1 model2 mode1 mode2 : option string) (h : Hook.t) :
  Hook.socket h = Some OPEN ->
  Hook.isStreaming h = false ->
  let h1 := Hook.sendMessage c1 id1 model1 mode1 h in
  let h2 := Hook.sendMessage c2 id2 model2 mode2 h1 in
  Hook.isStreaming h1 = false /\
  exists f1 f2,
    Hook.sentFrames h2 = (Hook.sentFrames h ++ [f1; f2])%list /\
    get_field "content" f1 = JStr c1 /\
    get_field "content" f2 = JStr c2 /\
    Hook.toasts h2 = Hook.toasts h.
Proof.
  intros Hsock Hidle. cbv zeta. destruct h as [c s t so o ts i r].
  cbn in Hsock, Hidle. subst so s. cbn. split; [reflexivity|].
  eexists _, _. rewrite <- app_assoc. cbn. repeat split; reflexivity.
Qed.

(** ** Logs and scan results *)

Lemma map_get_filter {V} (p : string * V -> bool) (k : string) (v : V) (m : JsMap V) :
  unique_keys m ->
  map_get k (filter p m) = Some v <-> map_get k m = Some v /\ p (k, v) = true.
Proof.
  intros Hu. split.
  - intros H. apply map_get_Some_In, filter_In in H. destruct H as [H Hp].
    split; [now apply map_get_In|exact Hp].
  - intros [H Hp]. apply map_get_In; [now apply unique_keys_filter|].
    apply filter_In. split; [now apply map_get_Some_In|exact Hp].
Qed.

Lemma filter_nothing {A} (l : list A) : filter (fun _ => false) l = [].
Proof. induction l; simpl; auto. Qed.

Lemma cleanup_loop (cutoffDate : option Z) (entries m : JsMap AutonomousLog.t) (d : Z) :
  fold_left
    (fun (acc : JsMap AutonomousLog.t * Z) (entry : string * AutonomousLog.t) =>
       if date_lt (AutonomousLog.timestamp (snd entry)) cutoffDate
       then (snd (map_delete (fst entry) (fst acc)), snd acc + 1)
       else acc)
    entries (m, d) =
  (MemStorage.delete_each
     (map fst (filter (fun e => date_lt (AutonomousLog.timestamp (snd e)) cutoffDate) entries))
     m,
   d + Z.of_nat
         (List.length
            (filter (fun e => date_lt (AutonomousLog.timestamp (snd e)) cutoffDate) entries))).
Proof.
  revert m d. induction entries as [|e entries IH]; intros m d.
  - simpl. now rewrite Z.add_0_r.
  - cbn [fold_left filter].
    destruct (date_lt (AutonomousLog.timestamp (snd e)) cutoffDate).
    + cbn [fst snd]. rewrite IH. cbn [map List.length fst snd].
      change (MemStorage.delete_each (fst e :: ?l) m)
        with (MemStorage.delete_each l (snd (map_delete (fst e) m))).
      f_equal. lia.
    + apply IH.
Qed.

Lemma delete_the_selected {V} (old : string * V -> bool) (m : JsMap V) :
  unique_keys m ->
  MemStorage.delete_each (map fst (filter old m)) m = filter (fun e => negb (old e)) m.
Proof.
  intros Hu. rewrite delete_each_filter. apply filter_ext_in. intros e He. f_equal.
  destruct (old e) eqn:Hold.
  - apply existsb_exists. exists (fst e). split; [|apply String.eqb_refl].
    apply in_map, filter_In. now split.
  - apply Bool.not_true_is_false. intros H. apply existsb_exists in H.
    destruct H as [k [Hk Heq]]. apply String.eqb_eq in Heq. subst k.
    apply in_map_iff in Hk. destruct Hk as [e' [Hfst He']]. apply filter_In in He'.
    destruct He' as [He' Hold']. destruct e as [k v], e' as [k' v']. simpl in Hfst. subst k'.
    rewrite (unique_keys_functional _ _ _ Hu He He') in Hold. congruence.
Qed.

(** X24. [cleanupOldLogs(days)] removes exactly the logs whose timestamp is
    earlier than [days] days before now, keeps the others in their order, and
    returns how many it removed; a log can be looked up afterwards if and only
    if it could before and is not that old.  When the cutoff is not a valid
    date nothing is removed and the count is 0.  Scan results are untouched. *)
Theorem X24_cleanupOldLogs (now : Z) (days : option Z) (s : AutonomousStorage.t) :
  unique_keys (AutonomousStorage.autonomousLogs s) ->
  let cutoff := now - or_else days 30 * 24 * 60 * 60 * 1000 in
  let expired :=
    fun e : string * AutonomousLog.t => AutonomousLog.timestamp (snd e) <? cutoff in
  let deleted := fst (AutonomousStorage.cleanupOldLogs now days s) in
  let s' := snd (AutonomousStorage.cleanupOldLogs now days s) in
  (Z.abs cutoff <= 8640000000000000 ->
     AutonomousStorage.autonomousLogs s' =
     filter (fun e => negb (expired e)) (AutonomousStorage.autonomousLogs s) /\
     deleted = Z.of_nat (List.length (filter expired (AutonomousStorage.autonomousLogs s))) /\
     (forall id log,
        AutonomousStorage.getAutonomousLog s' id = Some log <->
        AutonomousStorage.getAutonomousLog s id = Some log /\
        cutoff <= AutonomousLog.timestamp log)) /\
  (8640000000000000 < Z.abs cutoff -> s' = s /\ deleted = 0) /\
  AutonomousStorage.scanResults s' = AutonomousStorage.scanResults s.
Proof.
  intros Hu cutoff expired deleted s'. subst deleted s'.
  unfold AutonomousStorage.cleanupOldLogs. rewrite cleanup_loop.
  fold cutoff.
  cbn [fst snd AutonomousStorage.autonomousLogs AutonomousStorage.scanResults].
  split; [|split; [|reflexivity]].
  - intros Hrange. unfold time_clip. apply Z.leb_le in Hrange. rewrite Hrange.
    cbn [date_lt]. fold expired. rewrite (delete_the_selected expired Hu).
    split; [reflexivity|]. split; [reflexivity|].
    intros id log. unfold AutonomousStorage.getAutonomousLog.
    cbn [AutonomousStorage.autonomousLogs]. rewrite (map_get_filter _ _ _ Hu).
    subst expired. cbn [snd]. rewrite Bool.negb_true_iff, Z.ltb_ge. reflexivity.
  - intros Hrange. unfold time_clip. apply Z.leb_gt in Hrange. rewrite Hrange.
    cbn [date_lt]. rewrite filter_nothing. destruct s. now split.
Qed.

Lemma filter_twice {A} (f g : A -> bool) (l : list A) :
  filter g (filter f l) = filter (fun x => f x && g x) l.
Proof.
  induction l as [|x l IH]; simpl; [reflexivity|].
  destruct (f x); simpl; [destruct (g x)|]; now rewrite IH.
Qed.

Lemma filter_everything {A} (l : list A) : filter (fun _ => true) l = l.
Proof. induction l; simpl; congruence. Qed.

Lemma getAutonomousLogs_eq (s : AutonomousStorage.t) (category level : JsValue)
    (limit : option Z) :
  AutonomousStorage.getAutonomousLogs s category level limit =
  slice_to (or_else limit 100)
    (js_sort AutonomousLog.timestamp true (matching_logs s category level)).
Proof.
  unfold AutonomousStorage.getAutonomousLogs, matching_logs, log_matches. f_equal. f_equal.
  destruct (truthy category), (truthy level); cbn [negb orb].
  - apply filter_twice.
  - apply filter_ext. intros log. now rewrite Bool.andb_true_r.
  - reflexivity.
  - now rewrite filter_everything.
Qed.

Lemma slice_to_split {A} (limit : Z) (l : list A) :
  exists rest, l = (slice_to limit l ++ rest)%list.
Proof.
  unfold slice_to. destruct (limit <? 0); eexists; symmetry; apply firstn_skipn.
Qed.

Lemma slice_to_length {A} (limit : Z) (l : list A) :
  Z.of_nat (List.length (slice_to limit l)) =
  if limit <? 0 then Z.max 0 (Z.of_nat (List.length l) + limit)
  else Z.min limit (Z.of_nat (List.length l)).
Proof.
  unfold slice_to. destruct (Z.ltb_spec limit 0); rewrite length_firstn; lia.
Qed.

Lemma sorted_app_order {A} (R : A -> A -> Prop) (a b : list A) :
  StronglySorted R (a ++ b) ->
  StronglySorted R a /\ forall x y, In x a -> In y b -> R x y.
Proof.
  induction a as [|z a IH]; simpl; intros H.
  - split; [constructor|]. intros x y [].
  - inversion H as [|? ? Hs Hall]; subst. destruct (IH Hs) as [Ha Hab].
    rewrite Forall_app in Hall. destruct Hall as [Hza Hzb]. split.
    + now constructor.
    + intros x y [<-|Hx] Hy; [|now apply Hab].
      rewrite Forall_forall in Hzb. now apply Hzb.
Qed.

(** X25. [getAutonomousLogs] answers with logs of the requested category and
    level only (a missing or empty filter admits every log), newest first, and
    what the limit cuts off is never newer than what is kept. *)
Theorem X25_getAutonomousLogs_newest_kept
    (s : AutonomousStorage.t) (category level : JsValue) (limit : option Z) :
  let result := AutonomousStorage.getAutonomousLogs s category level limit in
  newest_first result /\
  (forall log, In log result ->
     In log (map_values (AutonomousStorage.autonomousLogs s)) /\
     (truthy category = true -> JStr (AutonomousLog.category log) = category) /\
     (truthy level = true -> JStr (AutonomousLog.level log) = level)) /\
  (forall kept left,
     In kept result -> In left (matching_logs s category level) -> ~ In left result ->
     AutonomousLog.timestamp left <= AutonomousLog.timestamp kept).
Proof.
  cbv zeta. rewrite getAutonomousLogs_eq.
  set (sorted := js_sort AutonomousLog.timestamp true (matching_logs s category level)).
  destruct (slice_to_split (or_else limit 100) sorted) as [rest Hsplit].
  assert (Hsorted : newest_first sorted).
  { unfold newest_first, sorted.
    eapply StronglySorted_weaken; [|apply js_sort_sorted].
    intros x y H. unfold in_order, not_after in H. now apply Z.leb_le in H. }
  rewrite Hsplit in Hsorted. apply sorted_app_order in Hsorted.
  destruct Hsorted as [Hkept Horder]. split; [exact Hkept|]. split.
  - intros log Hin.
    assert (Hm : In log (matching_logs s category level)).
    { apply (js_sort_In AutonomousLog.timestamp true). fold sorted. rewrite Hsplit.
      apply in_or_app. now left. }
    unfold matching_logs in Hm. apply filter_In in Hm. destruct Hm as [Hlog Hm].
    unfold log_matches in Hm. apply Bool.andb_true_iff in Hm. destruct Hm as [Hc Hl].
    split; [exact Hlog|]. split; intros Ht; rewrite Ht in *; cbn [negb orb] in *.
    + symmetry. exact (strict_eq_eq _ _ Hc).
    + symmetry. exact (strict_eq_eq _ _ Hl).
  - intros kept left Hkept' Hleft Hnot. apply Horder; [exact Hkept'|].
    apply (js_sort_In AutonomousLog.timestamp true) in Hleft. fold sorted in Hleft.
    rewrite Hsplit in Hleft. apply in_app_or in Hleft. tauto.
Qed.

(** X26. How many logs [GET /api/autonomous/logs] returns, with [n] logs
    matching the filters: at most [limit] for a positive limit; at most 100
    when the limit is missing, unreadable or 0; and for a negative limit
    [-k] all but the [k] oldest, however many that is. *)
Theorem X26_logs_route_count
    (category level : JsValue) (parsed : option Z) (s : AutonomousStorage.t) :
  let n := Z.of_nat (List.length (matching_logs s category level)) in
  let got := Z.of_nat (List.length (AutonomousRoutes.get_logs category level parsed s)) in
  match parsed with
  | None => got = Z.min 100 n
  | Some limit =>
      if limit =? 0 then got = Z.min 100 n
      else if 0 <? limit then got = Z.min limit n
      else got = Z.max 0 (n + limit)
  end.
Proof.
  cbv zeta. unfold AutonomousRoutes.get_logs. rewrite getAutonomousLogs_eq, slice_to_length.
  rewrite (Permutation_length (js_sort_perm AutonomousLog.timestamp true _)).
  destruct parsed as [limit|]; cbn [or_else]; [|reflexivity].
  destruct (Z.eqb_spec limit 0) as [->|Hz]; [reflexivity|].
  destruct (Z.ltb_spec 0 limit), (Z.ltb_spec limit 0); try lia; reflexivity.
Qed.

Lemma find_app_found {A} (p : A -> bool) (a b : list A) (x : A) :
  find p a = Some x -> find p (a ++ b) = Some x.
Proof.
  induction a as [|y a IH]; simpl; [discriminate|]. destruct (p y); auto.
Qed.

Lemma find_app_missing {A} (p : A -> bool) (a b : list A) :
  find p a = None -> find p (a ++ b) = find p b.
Proof.
  induction a as [|y a IH]; simpl; [reflexivity|]. destruct (p y); [discriminate|auto].
Qed.

(** X27. [getScanResultByUrl] answers with the scan of the URL that was
    stored first: storing another scan, of this or any other URL, does not
    change the answer for a URL that already has one.  A URL without a scan
    gets the new one if it is a scan of that URL. *)
Theorem X27_getScanResultByUrl_first_stored
    (uuid : string) (now : Z) (ins : InsertScanResult.t) (s : AutonomousStorage.t)
    (url : string) :
  AutonomousStorage.getScanResult s uuid = None ->
  let created := AutonomousStorage.createScanResult uuid now ins s in
  AutonomousStorage.getScanResult (snd created) uuid = Some (fst created) /\
  match AutonomousStorage.getScanResultByUrl s url with
  | Some first => AutonomousStorage.getScanResultByUrl (snd created) url = Some first
  | None =>
      AutonomousStorage.getScanResultByUrl (snd created) url =
      if String.eqb (InsertScanResult.url ins) url then Some (fst created) else None
  end.
Proof.
  intros Hfresh. cbv zeta.
  unfold AutonomousStorage.getScanResult, AutonomousStorage.getScanResultByUrl,
    AutonomousStorage.createScanResult in *.
  cbn [fst snd AutonomousStorage.scanResults]. split; [apply map_get_set_same|].
  rewrite map_set_fresh by exact Hfresh. unfold map_values. rewrite map_app.
  destruct (find _ (map snd (AutonomousStorage.scanResults s))) as [first|] eqn:E.
  - now apply find_app_found.
  - rewrite find_app_missing by exact E. reflexivity.
Qed.

(** ** The properties above on concrete cases *)

Lemma X5_witness :
  MemStorage.getConversation
    (snd (MemStorage.createMessage "d" 20 20 Cases.more Scenario.busy_store)) "C2" =
  Some (Conversation.mk "C2" "Other" "gpt-5" "chat" 1 20).
Proof.
  exact (proj1 (@X5_createMessage_touches_conversation "d" 20 20 Cases.more
                  Scenario.busy_store "C2" eq_refl)
           (Conversation.mk "C2" "Other" "gpt-5" "chat" 1 11) eq_refl).
Defined.

Lemma X6_witness :
  exists rest,
    MemStorage.getConversations
      (snd (MemStorage.createMessage "d" 20 20 Cases.more Scenario.busy_store)) =
    Conversation.mk "C2" "Other" "gpt-5" "chat" 1 20 :: rest.
Proof.
  apply (@X6_message_moves_conversation_to_top "d" 20 20 Cases.more Scenario.busy_store
           "C2" (Conversation.mk "C2" "Other" "gpt-5" "chat" 1 11)).
  - exact (wf_conversations store_wf_busy).
  - reflexivity.
  - reflexivity.
  - intros id' c' Hne H. apply map_get_Some_In in H. vm_compute in H.
    destruct H as [H|[H|[]]]; inversion H; subst; [reflexivity|now elim Hne].
Defined.

Lemma X8_witness :
  MemStorage.getMessagesByConversation
    (snd (MemStorage.createMessage "d" 20 20 Cases.more Scenario.busy_store)) (JStr "C2") =
  (MemStorage.getMessagesByConversation Scenario.busy_store (JStr "C2") ++
   [fst (MemStorage.createMessage "d" 20 20 Cases.more Scenario.busy_store)])%list.
Proof.
  apply (proj1 (@X8_createMessage_appends "d" 20 20 Cases.more Scenario.busy_store
                  (JStr "C2") eq_refl)).
  - reflexivity.
  - intros m Hin. vm_compute in Hin. destruct Hin as [<-|[]]. vm_compute. discriminate.
Defined.

Lemma X9_witness :
  MemStorage.getMessagesByConversation
    (snd (MemStorage.deleteConversation "C1" Scenario.busy_store)) (JStr "C2") =
  MemStorage.getMessagesByConversation Scenario.busy_store (JStr "C2").
Proof.
  exact (proj1 (@X9_deleteConversation_spares_others "C1" Scenario.busy_store store_wf_busy)
           (JStr "C2") eq_refl).
Defined.

Lemma X10_witness :
  fst (Routes.delete_conversation "C1" Scenario.busy_store) =
    Routes.json (Routes.SuccessBody true) /\
  Routes.get_messages "C1" (snd (Routes.delete_conversation "C1" Scenario.busy_store)) =
    Routes.json (Routes.MessageList []).
Proof.
  pose proof (@X10_delete_route "C1" Scenario.busy_store (wf_ok store_wf_busy)) as H.
  split; [|exact (proj1 (proj2 (proj2 H)))].
  apply (proj2 (proj1 (proj2 H))). discriminate.
Defined.

Lemma X11_witness :
  MemStorage.uploadedFiles (snd (MemStorage.deleteConversation "" Scenario.busy_store)) = [].
Proof.
  exact (proj2 (@X11_empty_id_deletes_every_file Scenario.busy_store (wf_ok store_wf_busy))).
Defined.

Lemma X12_witness :
  new_calls Scenario.world
    (on_message (Scenario.env Scenario.hello) Scenario.hi Scenario.world) =
  [OpenAICreate (JStr "gpt-5") [HistoryItem.mk "user" (JStr "Hi")]].
Proof.
  exact (proj1 (@X12_one_provider_call (Scenario.env Scenario.hello) Scenario.hi
                  Scenario.hi_request Scenario.world eq_refl)
           "gpt-5" eq_refl eq_refl).
Defined.

Lemma X13_witness :
  In (StreamingChunk "Hel")
     (emitted Scenario.world
        (on_message (Scenario.env Scenario.hello) Scenario.hi Scenario.world)) /\
  "Hel" <> "".
Proof.
  assert (Hin : In (StreamingChunk "Hel")
                  (emitted Scenario.world
                     (on_message (Scenario.env Scenario.hello) Scenario.hi Scenario.world))).
  { vm_compute. right. left. reflexivity. }
  split; [exact Hin|].
  exact (@X13_openai_chunks_not_empty (Scenario.env Scenario.hello) Scenario.hi
           Scenario.hi_request Scenario.world "gpt-5" "Hel" eq_refl eq_refl eq_refl Hin).
Defined.

Lemma X14_witness :
  exists before,
    emitted Scenario.world
      (on_message (Scenario.env Scenario.rate_limited) Scenario.hi Scenario.world) =
    (before ++ [ErrorFrame "OpenAI API error: rate limited"])%list.
Proof.
  exact (@X14_provider_failure_message (Scenario.env Scenario.rate_limited) Scenario.hi
           Scenario.hi_request Scenario.world
           (OpenAICreate (JStr "gpt-5") [HistoryItem.mk "user" (JStr "Hi")])
           (ErrorObject "rate limited") eq_refl (or_introl eq_refl) eq_refl eq_refl).
Defined.

Lemma X16_witness :
  exists fullResponse,
    MemStorage.getMessagesByConversation
      (storage (on_message (Scenario.env Scenario.hello) Scenario.hi Scenario.world))
      (JStr "C1") =
    [user_row (Scenario.env Scenario.hello) Scenario.hi_request;
     assistant_row (Scenario.env Scenario.hello) Scenario.hi_request fullResponse].
Proof.
  apply (proj2 (proj2 (@X16_turn_extends_transcript (Scenario.env Scenario.hello)
                         Scenario.hi Scenario.hi_request Scenario.world eq_refl
                         eq_refl eq_refl ltac:(discriminate)
                         ltac:(intros m Hin; vm_compute in Hin; destruct Hin)
                         ltac:(vm_compute; discriminate)))).
  reflexivity.
Defined.


Lemma X20_witness :
  Hook.isStreaming
    (Hook.receive
       (emitted Scenario.world
          (on_message (Scenario.env Scenario.hello) Scenario.hi Scenario.world))
       Cases.ready) = false.
Proof.
  exact (proj1 (@X20_hook_idle_after_turn (Scenario.env Scenario.hello) Scenario.hi
                  Scenario.hi_request Scenario.world Cases.ready eq_refl eq_refl)).
Defined.

Lemma X21_witness :
  exists frame,
    Hook.sentFrames (Hook.sendMessage "Hi" "C1" None None Cases.ready) = [frame] /\
    chat_request (Parsed (JObj 0 frame)) = Some Scenario.hi_request.
Proof.
  destruct (@X21_sent_frame_is_served "Hi" "C1" None None Cases.ready 0%nat
              (Scenario.env Scenario.hello) Scenario.world eq_refl eq_refl)
    as [frame [m [md [Hsent [_ [_ [_ [_ [Hreq _]]]]]]]]].
  exists frame. split; [exact Hsent|].
  rewrite Hreq. vm_compute in Hsent. inversion Hsent. subst frame.
  vm_compute in Hreq. inversion Hreq. reflexivity.
Defined.

Lemma X23_witness :
  Hook.isStreaming (Hook.sendMessage "Hi" "C1" None None Cases.ready) = false.
Proof.
  exact (proj1 (@X23_two_sends_before_start "Hi" "again" "C1" "C1" None None None None
                  Cases.ready eq_refl eq_refl)).
Defined.

Lemma X24_witness :
  fst (AutonomousStorage.cleanupOldLogs 15 (Some 0) Cases.logs) = 1 /\
  map fst (AutonomousStorage.autonomousLogs
             (snd (AutonomousStorage.cleanupOldLogs 15 (Some 0) Cases.logs))) = ["l2"; "l3"].
Proof.
  assert (Hu : unique_keys (AutonomousStorage.autonomousLogs Cases.logs)).
  { unfold unique_keys. vm_compute. repeat constructor; simpl; intuition discriminate. }
  assert (Hrange : Z.abs (15 - or_else (Some 0) 30 * 24 * 60 * 60 * 1000) <= 8640000000000000).
  { vm_compute. discriminate. }
  pose proof (proj1 (@X24_cleanupOldLogs 15 (Some 0) Cases.logs Hu) Hrange) as [H1 [H2 _]].
  split; [exact H2|]. rewrite H1. reflexivity.
Defined.

Lemma X27_witness :
  AutonomousStorage.getScanResultByUrl
    (snd (AutonomousStorage.createScanResult "s2" 2 (Cases.scan "new") Cases.scans))
    "http://a" =
  AutonomousStorage.getScanResultByUrl Cases.scans "http://a".
Proof.
  exact (proj2 (@X27_getScanResultByUrl_first_stored "s2" 2 (Cases.scan "new") Cases.scans
                  "http://a" eq_refl)).
Defined.
